(** * github-comment-fetcher: a shallow embedding of [github-comments-fetcher.go]

    The program is one [main] that resolves three string parameters from
    flags and a cache file, issues two HTTP GET requests, decodes the two
    JSON bodies into fixed records and writes a text transcript.

    The embedding threads an explicit process state (the file system and
    the trace of system calls) through [main]; every [panic] and
    [log.Fatalf] of the source is an [Exit] value.  The packages of the Go
    standard library that [main] calls ([encoding/json], [time], [os],
    [net/http], [fmt], [path/filepath]) are modelled in modules of the same
    names, so that the embedded [main] reads like the source. *)

From stdpp Require Import gmap strings list.
From Stdlib Require Import String Ascii NArith DecimalString Lia.
From Stdlib Require DecimalPos.

#[local] Set Warnings "-register-all".

(** ** Bytes and strings

    A Go [string] is a sequence of bytes: [string] of the Standard Library
    (a list of [ascii], eight bits each). *)

Definition code (c : ascii) : N := N_of_ascii c.
Definition chr (n : N) : ascii := ascii_of_N n.

Definition between (lo hi : N) (c : ascii) : bool :=
  ((lo <=? code c) && (code c <=? hi))%N.

Definition str1 (c : ascii) : string := String c EmptyString.

Definition isByte (c : ascii) (d : string) : bool := String.eqb (str1 c) d.

(** The characters that a Rocq string literal cannot hold. *)
Definition nl : string := str1 (chr 10).
Definition dquote : ascii := chr 34.
Definition dq : string := str1 dquote.

Fixpoint rev_string (acc : list ascii) (out : string) : string :=
  match acc with
  | [] => out
  | c :: acc' => rev_string acc' (String c out)
  end.

Definition isDigit (c : ascii) : bool := between 48 57 c.

Definition hexval (c : ascii) : option N :=
  if isDigit c then Some (code c - 48)%N
  else if between 97 102 c then Some (code c - 87)%N
  else if between 65 70 c then Some (code c - 55)%N
  else None.

Definition hexdigit (n : N) : ascii :=
  if (n <? 10)%N then chr (48 + n) else chr (87 + n).

(** ** Go's [error] values

    The errors of the operating system and of the network are opaque: the
    environment supplies their text.  The errors of [encoding/json] and
    [time] are the ones the decoders below raise; [Errorf] is
    [fmt.Errorf] with one wrapped error. *)

Inductive error : Type :=
  | Errno (text : string)                       (* os, net/http, io *)
  | SyntaxError                                 (* json: not a JSON text *)
  | UnmarshalTypeError (value : string) (field : string)
  | NotAJSONString                              (* Time.UnmarshalJSON *)
  | ParseError (value : string)                 (* time: not RFC 3339 *)
  | Errorf (format : string) (err : error).

(** ** Package [unicode/utf8] and [unicode/utf16] *)

Module utf8.

Definition RuneError : N := 65533.
Definition RuneSelf : N := 128.

Definition cont (c : ascii) : bool := between 128 191 c.
Definition low6 (c : ascii) : N := N.land (code c) 63.

(** [DecodeRuneInString s] is the first rune of [s] and its width in
    bytes; an invalid or truncated encoding gives [(RuneError, 1)], the
    empty string [(RuneError, 0)]. *)
Definition DecodeRuneInString (s : string) : N * nat :=
  match s with
  | EmptyString => (RuneError, 0)
  | String c0 s1 =>
    let b0 := code c0 in
    if (b0 <? RuneSelf)%N then (b0, 1)
    else if between 194 223 c0 then
      match s1 with
      | String c1 _ =>
        if cont c1
        then (N.lor (N.shiftl (N.land b0 31) 6) (low6 c1), 2)
        else (RuneError, 1)
      | _ => (RuneError, 1)
      end
    else if between 224 239 c0 then
      match s1 with
      | String c1 (String c2 _) =>
        let lo := if (b0 =? 224)%N then 160%N else 128%N in
        let hi := if (b0 =? 237)%N then 159%N else 191%N in
        if between lo hi c1 && cont c2
        then (N.lor (N.shiftl (N.land b0 15) 12)
                (N.lor (N.shiftl (low6 c1) 6) (low6 c2)), 3)
        else (RuneError, 1)
      | _ => (RuneError, 1)
      end
    else if between 240 244 c0 then
      match s1 with
      | String c1 (String c2 (String c3 _)) =>
        let lo := if (b0 =? 240)%N then 144%N else 128%N in
        let hi := if (b0 =? 244)%N then 143%N else 191%N in
        if between lo hi c1 && cont c2 && cont c3
        then (N.lor (N.shiftl (N.land b0 7) 18)
                (N.lor (N.shiftl (low6 c1) 12)
                   (N.lor (N.shiftl (low6 c2) 6) (low6 c3))), 4)
        else (RuneError, 1)
      | _ => (RuneError, 1)
      end
    else (RuneError, 1)
  end.

Definition tail6 (r : N) (shift : N) : ascii :=
  chr (N.lor 128 (N.land (N.shiftr r shift) 63)).

(** [EncodeRune r]: surrogates and runes beyond U+10FFFF are written as
    U+FFFD. *)
Definition EncodeRune (r : N) : string :=
  let r := if ((55296 <=? r) && (r <=? 57343) || (1114111 <? r))%N
           then RuneError else r in
  if (r <=? 127)%N then str1 (chr r)
  else if (r <=? 2047)%N then
    String (chr (N.lor 192 (N.shiftr r 6))) (str1 (tail6 r 0))
  else if (r <=? 65535)%N then
    String (chr (N.lor 224 (N.shiftr r 12)))
      (String (tail6 r 6) (str1 (tail6 r 0)))
  else
    String (chr (N.lor 240 (N.shiftr r 18)))
      (String (tail6 r 12) (String (tail6 r 6) (str1 (tail6 r 0)))).

End utf8.

Module utf16.

Definition IsSurrogate (r : N) : bool := ((55296 <=? r) && (r <? 57344))%N.

Definition DecodeRune (r1 r2 : N) : N :=
  if ((55296 <=? r1) && (r1 <? 56320) && (56320 <=? r2) && (r2 <? 57344))%N
  then (N.lor (N.shiftl (r1 - 55296) 10) (r2 - 56320) + 65536)%N
  else utf8.RuneError.

End utf16.

(** ** Package [encoding/json]: the scanner

    [json.Unmarshal] first validates the whole input with a byte-at-a-time
    state machine ([scanner.go]: one [step] function per state and a stack
    [parseState] of the open objects and arrays), then walks the input
    again and stores every value.  The embedding runs the state machine
    once and lets it build the document: a stack entry also holds the
    members or elements read so far. *)

Module json.

Inductive Value : Type :=
  | Null
  | Bool (b : bool)
  | Number (lit : string)
  | Str (raw : string)          (* the bytes between the quotes, escapes kept *)
  | Array (elems : list Value)
  | Object (members : list (string * Value)). (* raw keys, in input order *)

Inductive Step : Set :=
  | stateBeginValue | stateBeginValueOrEmpty
  | stateBeginStringOrEmpty | stateBeginString
  | stateEndValue | stateEndTop
  | stateInString | stateInStringEsc
  | stateInStringEscU | stateInStringEscU1
  | stateInStringEscU12 | stateInStringEscU123
  | stateNeg | state1 | state0 | stateDot | stateDot0
  | stateE | stateESign | stateE0
  | stateT | stateTr | stateTru
  | stateF | stateFa | stateFal | stateFals
  | stateN | stateNu | stateNul.

(** The entries of [parseState].  [parseObjectKey] is split in two (before
    the key, before the colon) and so are [parseObjectValue] and
    [parseArrayValue] (before the value, after it). *)
Inductive Frame : Type :=
  | parseObjectKey (ms : list (string * Value))
  | parseObjectColon (ms : list (string * Value)) (key : string)
  | parseObjectValue (ms : list (string * Value)) (key : string)
  | parseObjectNext (ms : list (string * Value))
  | parseArrayValue (es : list Value)
  | parseArrayNext (es : list Value).

Record scanner : Type := mkScanner {
  step : Step;
  parseState : list Frame;
  lit : list ascii;            (* the literal being read, last byte first *)
  top : option Value           (* the top-level value, once it has ended *)
}.

Definition maxNestingDepth : N := 10000.

Definition isSpace (c : ascii) : bool :=
  (code c <=? 32)%N &&
  ((code c =? 32) || (code c =? 9) || (code c =? 13) || (code c =? 10))%N.

Definition goto (st : Step) (sc : scanner) : option scanner :=
  Some (mkScanner st (parseState sc) (lit sc) (top sc)).

Definition shift (st : Step) (c : ascii) (sc : scanner) : option scanner :=
  Some (mkScanner st (parseState sc) (c :: lit sc) (top sc)).

Definition pushParseState (f : Frame) (st : Step) (sc : scanner)
  : option scanner :=
  if (N.of_nat (List.length (parseState sc)) <? maxNestingDepth)%N
  then Some (mkScanner st (f :: parseState sc) [] (top sc))
  else None.

(** A value has just ended: store it where the innermost open container
    expects it. *)
Definition complete (v : Value) (stack : list Frame) (tp : option Value)
  : option scanner :=
  match stack with
  | [] => Some (mkScanner stateEndValue [] [] (Some v))
  | parseObjectKey ms :: st =>
    match v with
    | Str k => Some (mkScanner stateEndValue (parseObjectColon ms k :: st) [] tp)
    | _ => None
    end
  | parseObjectValue ms k :: st =>
    Some (mkScanner stateEndValue (parseObjectNext ((k, v) :: ms) :: st) [] tp)
  | parseArrayValue es :: st =>
    Some (mkScanner stateEndValue (parseArrayNext (v :: es) :: st) [] tp)
  | _ => None
  end.

Definition stepEndValue (sc : scanner) (c : ascii) : option scanner :=
  match parseState sc with
  | [] => if isSpace c then goto stateEndTop sc else None
  | f :: st =>
    if isSpace c then goto stateEndValue sc
    else match f with
      | parseObjectColon ms k =>
        if isByte c ":"
        then Some (mkScanner stateBeginValue (parseObjectValue ms k :: st) [] (top sc))
        else None
      | parseObjectNext ms =>
        if isByte c ","
        then Some (mkScanner stateBeginString (parseObjectKey ms :: st) [] (top sc))
        else if isByte c "}" then complete (Object (rev ms)) st (top sc)
        else None
      | parseArrayNext es =>
        if isByte c ","
        then Some (mkScanner stateBeginValue (parseArrayValue es :: st) [] (top sc))
        else if isByte c "]" then complete (Array (rev es)) st (top sc)
        else None
      | _ => None
      end
  end.

Definition endNumber (sc : scanner) (c : ascii) : option scanner :=
  match complete (Number (rev_string (lit sc) EmptyString)) (parseState sc) (top sc) with
  | Some sc' => stepEndValue sc' c
  | None => None
  end.

Definition stepBeginValue (sc : scanner) (c : ascii) : option scanner :=
  if isSpace c then goto stateBeginValue sc
  else if isByte c "{" then pushParseState (parseObjectKey []) stateBeginStringOrEmpty sc
  else if isByte c "[" then pushParseState (parseArrayValue []) stateBeginValueOrEmpty sc
  else if Ascii.eqb c dquote then goto stateInString sc
  else if isByte c "-" then shift stateNeg c sc
  else if isByte c "0" then shift state0 c sc
  else if isByte c "t" then goto stateT sc
  else if isByte c "f" then goto stateF sc
  else if isByte c "n" then goto stateN sc
  else if between 49 57 c then shift state1 c sc
  else None.

Definition stepBeginString (sc : scanner) (c : ascii) : option scanner :=
  if isSpace c then goto stateBeginString sc
  else if Ascii.eqb c dquote then goto stateInString sc
  else None.

Definition step0 (sc : scanner) (c : ascii) : option scanner :=
  if isByte c "." then shift stateDot c sc
  else if isByte c "e" || isByte c "E" then shift stateE c sc
  else endNumber sc c.

Definition stepESign (sc : scanner) (c : ascii) : option scanner :=
  if isDigit c then shift stateE0 c sc else None.

Definition expect (d : string) (st : Step) (sc : scanner) (c : ascii)
  : option scanner :=
  if isByte c d then goto st sc else None.

Definition hexStep (st : Step) (sc : scanner) (c : ascii) : option scanner :=
  match hexval c with Some _ => shift st c sc | None => None end.

(** One call of [s.step(s, c)]; [None] is [scanError]. *)
Definition scan (sc : scanner) (c : ascii) : option scanner :=
  match step sc with
  | stateBeginValue => stepBeginValue sc c
  | stateBeginValueOrEmpty =>
    if isSpace c then goto stateBeginValueOrEmpty sc
    else if isByte c "]" then
      match parseState sc with
      | parseArrayValue [] :: st => complete (Array []) st (top sc)
      | _ => None
      end
    else stepBeginValue sc c
  | stateBeginStringOrEmpty =>
    if isSpace c then goto stateBeginStringOrEmpty sc
    else if isByte c "}" then
      match parseState sc with
      | parseObjectKey [] :: st => complete (Object []) st (top sc)
      | _ => None
      end
    else stepBeginString sc c
  | stateBeginString => stepBeginString sc c
  | stateEndValue => stepEndValue sc c
  | stateEndTop => if isSpace c then goto stateEndTop sc else None
  | stateInString =>
    if Ascii.eqb c dquote
    then complete (Str (rev_string (lit sc) EmptyString)) (parseState sc) (top sc)
    else if isByte c "\" then shift stateInStringEsc c sc
    else if (code c <? 32)%N then None
    else shift stateInString c sc
  | stateInStringEsc =>
    if isByte c "b" || isByte c "f" || isByte c "n" || isByte c "r" || isByte c "t"
       || isByte c "\" || isByte c "/" || Ascii.eqb c dquote
    then shift stateInString c sc
    else if isByte c "u" then shift stateInStringEscU c sc
    else None
  | stateInStringEscU => hexStep stateInStringEscU1 sc c
  | stateInStringEscU1 => hexStep stateInStringEscU12 sc c
  | stateInStringEscU12 => hexStep stateInStringEscU123 sc c
  | stateInStringEscU123 => hexStep stateInString sc c
  | stateNeg =>
    if isByte c "0" then shift state0 c sc
    else if between 49 57 c then shift state1 c sc
    else None
  | state1 => if isDigit c then shift state1 c sc else step0 sc c
  | state0 => step0 sc c
  | stateDot => if isDigit c then shift stateDot0 c sc else None
  | stateDot0 =>
    if isDigit c then shift stateDot0 c sc
    else if isByte c "e" || isByte c "E" then shift stateE c sc
    else endNumber sc c
  | stateE =>
    if isByte c "+" || isByte c "-" then shift stateESign c sc else stepESign sc c
  | stateESign => stepESign sc c
  | stateE0 => if isDigit c then shift stateE0 c sc else endNumber sc c
  | stateT => expect "r" stateTr sc c
  | stateTr => expect "u" stateTru sc c
  | stateTru =>
    if isByte c "e" then complete (Bool true) (parseState sc) (top sc) else None
  | stateF => expect "a" stateFa sc c
  | stateFa => expect "l" stateFal sc c
  | stateFal => expect "s" stateFals sc c
  | stateFals =>
    if isByte c "e" then complete (Bool false) (parseState sc) (top sc) else None
  | stateN => expect "u" stateNu sc c
  | stateNu => expect "l" stateNul sc c
  | stateNul =>
    if isByte c "l" then complete Null (parseState sc) (top sc) else None
  end.

Fixpoint scanAll (sc : scanner) (data : string) : option scanner :=
  match data with
  | EmptyString => Some sc
  | String c rest =>
    match scan sc c with
    | Some sc' => scanAll sc' rest
    | None => None
    end
  end.

(** [checkValid] and the walk in one: the document of [data], or [None]
    for a [SyntaxError].  At the end of the input the scanner is fed one
    space, as [scanner.eof] does, so that a number at the top level ends. *)
Definition parse (data : string) : option Value :=
  match scanAll (mkScanner stateBeginValue [] [] None) data with
  | Some sc =>
    match scan sc " "%char with
    | Some sc' => top sc'
    | None => None
    end
  | None => None
  end.

(** *** Strings: [unquote] and the encoder's [appendString] *)

Definition hex4 (h1 h2 h3 h4 : ascii) : option N :=
  match hexval h1, hexval h2, hexval h3, hexval h4 with
  | Some a, Some b, Some c, Some d => Some (((a * 16 + b) * 16 + c) * 16 + d)%N
  | _, _, _, _ => None
  end.

(** [getu4 s]: the rune of a leading [\uXXXX], Go's [-1] being [None]. *)
Definition getu4 (s : string) : option N :=
  match s with
  | String b (String u (String h1 (String h2 (String h3 (String h4 _))))) =>
    if isByte b "\" && isByte u "u" then hex4 h1 h2 h3 h4 else None
  | _ => None
  end.

Definition unescape (e : ascii) : ascii :=
  if isByte e "b" then chr 8
  else if isByte e "f" then chr 12
  else if isByte e "n" then chr 10
  else if isByte e "r" then chr 13
  else if isByte e "t" then chr 9
  else e.

Definition replacement : string := utf8.EncodeRune utf8.RuneError.

(** [unquote raw]: the Go string of a JSON string literal whose bytes
    between the quotes are [raw] (the scanner has accepted it).  [skip]
    counts the continuation bytes of a well-formed multi-byte rune that are
    still to be copied. *)
Fixpoint unquoteFrom (skip : nat) (s : string) : string :=
  match s with
  | EmptyString => EmptyString
  | String c r =>
    match skip with
    | S k => String c (unquoteFrom k r)
    | O =>
      if isByte c "\" then
        match r with
        | String e r1 =>
          if isByte e "u" then
            match r1 with
            | String h1 (String h2 (String h3 (String h4 r2))) =>
              match hex4 h1 h2 h3 h4 with
              | Some rr =>
                if utf16.IsSurrogate rr then
                  match r2 with
                  | String _ (String _ (String _ (String _ (String _ (String _ r3))))) =>
                    match getu4 r2 with
                    | Some rr1 =>
                      let dec := utf16.DecodeRune rr rr1 in
                      if (dec =? utf8.RuneError)%N
                      then replacement +:+ unquoteFrom 0 r2
                      else utf8.EncodeRune dec +:+ unquoteFrom 0 r3
                    | None => replacement +:+ unquoteFrom 0 r2
                    end
                  | _ => replacement +:+ unquoteFrom 0 r2
                  end
                else utf8.EncodeRune rr +:+ unquoteFrom 0 r2
              | None => String c (unquoteFrom 0 r)
              end
            | _ => String c (unquoteFrom 0 r)
            end
          else String (unescape e) (unquoteFrom 0 r1)
        | EmptyString => str1 c
        end
      else if (code c <? utf8.RuneSelf)%N then String c (unquoteFrom 0 r)
      else
        match utf8.DecodeRuneInString s with
        | (_, S (S k)) => String c (unquoteFrom (S k) r)
        | _ => replacement +:+ unquoteFrom 0 r
        end
    end
  end.

Definition unquote (raw : string) : string := unquoteFrom 0 raw.

(** [htmlSafeSet]: the ASCII bytes the encoder copies unescaped. *)
Definition htmlSafe (c : ascii) : bool :=
  between 32 127 c &&
  negb (Ascii.eqb c dquote || isByte c "\" || isByte c "<" || isByte c ">"
        || isByte c "&").

Definition escapeByte (c : ascii) : string :=
  if Ascii.eqb c dquote || isByte c "\" then String "\" (str1 c)
  else if (code c =? 8)%N then "\b"
  else if (code c =? 12)%N then "\f"
  else if (code c =? 10)%N then "\n"
  else if (code c =? 13)%N then "\r"
  else if (code c =? 9)%N then "\t"
  else "\u00" +:+ String (hexdigit (N.shiftr (code c) 4))
                    (str1 (hexdigit (N.land (code c) 15))).

(** The body of [appendString] with [escapeHTML] set, as [Marshal] sets it:
    invalid UTF-8 is written as the escape of U+FFFD; U+2028 and U+2029 are escaped. *)
Fixpoint appendStringFrom (skip : nat) (s : string) : string :=
  match s with
  | EmptyString => EmptyString
  | String c r =>
    match skip with
    | S k => String c (appendStringFrom k r)
    | O =>
      if (code c <? utf8.RuneSelf)%N then
        (if htmlSafe c then str1 c else escapeByte c) +:+ appendStringFrom 0 r
      else
        match utf8.DecodeRuneInString s with
        | (rn, S (S k)) =>
          if (rn =? 8232)%N || (rn =? 8233)%N
          then "\u202" +:+ String (hexdigit (N.land rn 15))
                             (match r with
                              | String _ (String _ r2) => appendStringFrom 0 r2
                              | _ => EmptyString
                              end)
          else String c (appendStringFrom (S k) r)
        | _ => "\ufffd" +:+ appendStringFrom 0 r
        end
    end
  end.

Definition appendString (s : string) : string :=
  dq +:+ appendStringFrom 0 s +:+ dq.

(** *** Matching object keys to struct fields

    [foldName]: keys match field names up to case.  ASCII letters are
    upper-cased; of the other runes only U+017F and U+212A fold to an ASCII
    letter ([S] and [K]), the rest is copied, which decides equality with a
    field name of this program (all of them are ASCII) as Go does. *)
Fixpoint foldName (s : string) : string :=
  match s with
  | EmptyString => EmptyString
  | String c r =>
    if between 97 122 c then String (chr (code c - 32)) (foldName r)
    else if (code c =? 197)%N then
      match r with
      | String c1 r1 =>
        if (code c1 =? 191)%N then String "S" (foldName r1)
        else String c (foldName r)
      | EmptyString => str1 c
      end
    else if (code c =? 226)%N then
      match r with
      | String c1 (String c2 r2) =>
        if ((code c1 =? 132) && (code c2 =? 170))%N
        then String "K" (foldName r2)
        else String c (foldName r)
      | _ => String c (foldName r)
      end
    else String c (foldName r)
  end.

(** The index of the struct field, given by its tags, that the key names. *)
Fixpoint fieldIndex (tags : list string) (key : string) : option nat :=
  match tags with
  | [] => None
  | t :: tags' =>
    if String.eqb (foldName t) (foldName key) then Some 0
    else option_map S (fieldIndex tags' key)
  end.

(** The bytes of a value, as an [Unmarshaler] receives them, white space
    between the tokens left out. *)
Fixpoint text (v : Value) : string :=
  match v with
  | Null => "null"
  | Bool true => "true"
  | Bool false => "false"
  | Number l => l
  | Str raw => dq +:+ raw +:+ dq
  | Array es =>
    "[" +:+ (fix elems (es : list Value) : string :=
               match es with
               | [] => EmptyString
               | [e] => text e
               | e :: es' => text e +:+ "," +:+ elems es'
               end) es +:+ "]"
  | Object ms =>
    "{" +:+ (fix membs (ms : list (string * Value)) : string :=
               match ms with
               | [] => EmptyString
               | [(k, e)] => dq +:+ k +:+ dq +:+ ":" +:+ text e
               | (k, e) :: ms' =>
                 dq +:+ k +:+ dq +:+ ":" +:+ text e +:+ "," +:+ membs ms'
               end) ms +:+ "}"
  end.

(** *** Storing values *)

Definition kind (v : Value) : string :=
  match v with
  | Null => "null"
  | Bool _ => "bool"
  | Number _ => "number"
  | Str _ => "string"
  | Array _ => "array"
  | Object _ => "object"
  end.

(** [d.saveError]: the first type error is kept and decoding goes on. *)
Definition saveError (saved : option error) (e : error) : option error :=
  match saved with
  | Some _ => saved
  | None => Some e
  end.

(** A decoder for a destination of type [T]: the new contents and the
    saved error, or the error of an [Unmarshaler], which stops the walk. *)
Definition Decoder (T : Type) : Type :=
  Value -> T -> option error -> (T * option error) + error.

(** A JSON string is stored, [null] leaves the destination as it is, any
    other value is a type error. *)
Definition intoString (field : string) : Decoder string :=
  fun v cur saved =>
    match v with
    | Str raw => inl (unquote raw, saved)
    | Null => inl (cur, saved)
    | _ => inl (cur, saveError saved (UnmarshalTypeError (kind v) field))
    end.

(** A field of a struct, decoded in place. *)
Definition field {T A : Type} (get : T -> A) (set : T -> A -> T)
    (dec : Decoder A) : Decoder T :=
  fun v cur saved =>
    match dec v (get cur) saved with
    | inl (a, saved') => inl (set cur a, saved')
    | inr e => inr e
    end.

(** A field index beyond the struct's fields: never reached. *)
Definition nofield {T : Type} : Decoder T :=
  fun _ cur saved => inl (cur, saved).

(** The members of an object, in input order: a key that names no field is
    skipped together with its value. *)
Fixpoint members {T : Type} (tags : list string)
    (field : nat -> Decoder T) (ms : list (string * Value))
    (cur : T) (saved : option error) : (T * option error) + error :=
  match ms with
  | [] => inl (cur, saved)
  | (k, v) :: ms' =>
    match fieldIndex tags (unquote k) with
    | None => members tags field ms' cur saved
    | Some i =>
      match field i v cur saved with
      | inl (cur', saved') => members tags field ms' cur' saved'
      | inr e => inr e
      end
    end
  end.

Definition intoStruct {T : Type} (name : string) (tags : list string)
    (field : nat -> Decoder T) : Decoder T :=
  fun v cur saved =>
    match v with
    | Object ms => members tags field ms cur saved
    | Null => inl (cur, saved)
    | _ => inl (cur, saveError saved (UnmarshalTypeError (kind v) name))
    end.

(** The elements of an array into a slice that was [nil]: every element is
    decoded into a zero value and appended. *)
Fixpoint elements {T : Type} (zero : T) (elem : Decoder T)
    (es : list Value) (saved : option error) : (list T * option error) + error :=
  match es with
  | [] => inl ([], saved)
  | v :: es' =>
    match elem v zero saved with
    | inl (x, saved') =>
      match elements zero elem es' saved' with
      | inl (xs, saved'') => inl (x :: xs, saved'')
      | inr e => inr e
      end
    | inr e => inr e
    end
  end.

Definition intoSlice {T : Type} (name : string) (zero : T) (elem : Decoder T)
  : Decoder (list T) :=
  fun v cur saved =>
    match v with
    | Array es => elements zero elem es saved
    | Null => inl ([], saved)
    | _ => inl (cur, saveError saved (UnmarshalTypeError (kind v) name))
    end.

(** [Unmarshal data &x] with [x] holding [zero]: a syntax error before
    anything is stored, else the error of the walk, else the saved one. *)
Definition Unmarshal {T : Type} (dec : Decoder T) (data : string) (zero : T)
  : T + error :=
  match parse data with
  | None => inr SyntaxError
  | Some v =>
    match dec v zero None with
    | inl (x, None) => inl x
    | inl (_, Some e) => inr e
    | inr e => inr e
    end
  end.
(** *** The encoder

    [MarshalIndent(x, prefix, indent)] for a struct [x] whose fields are
    strings, given by tag and contents in the order of declaration: one
    member a line.  It returns no error at such a type. *)
Fixpoint marshalFields (fields : list (string * string)) (prefix indent : string)
  : string :=
  match fields with
  | [] => EmptyString
  | (tag, s) :: rest =>
    nl +:+ prefix +:+ indent +:+ appendString tag +:+ ": " +:+ appendString s
    +:+ match rest with
        | [] => EmptyString
        | _ => "," +:+ marshalFields rest prefix indent
        end
  end.

Definition MarshalIndent (fields : list (string * string))
    (prefix indent : string) : string :=
  match fields with
  | [] => "{}"
  | _ => "{" +:+ marshalFields fields prefix indent +:+ nl +:+ prefix +:+ "}"
  end.

End json.

(** ** Package [strconv] *)

Module strconv.

(** Decimal digits of a number that is not negative. *)
Definition Itoa (n : N) : string := NilEmpty.string_of_uint (N.to_uint n).

End strconv.


(** ** Package [time]

    A [Time] is held by the civil date and clock it shows in its own
    location, which is all that [Format] reads. *)

Module time.

Record Time : Set := Date {
  Year : N; Month : N; Day : N;
  Hour : N; Minute : N; Second : N
}.

(** The zero [Time]: January 1, year 1, 00:00:00 UTC. *)
Definition zero : Time := Date 1 1 1 0 0 0.

Definition isLeap (year : N) : bool :=
  ((year mod 4 =? 0) && (negb (year mod 100 =? 0) || (year mod 400 =? 0)))%N.

Definition daysIn (m year : N) : N :=
  if (m =? 2)%N then (if isLeap year then 29 else 28)%N
  else if ((m =? 4) || (m =? 6) || (m =? 9) || (m =? 11))%N then 30%N
  else 31%N.

Definition digit (c : ascii) : option N :=
  if isDigit c then Some (code c - 48)%N else None.

(** [getnum s fixed]: a number of two digits, or of one when [fixed] is
    unset and the second byte is no digit; also what follows it. *)
Definition getnum (s : string) (fixed : bool) : option (N * string) :=
  match s with
  | String c0 r =>
    d0 ← digit c0;
    match r with
    | String c1 r' =>
      match digit c1 with
      | Some d1 => Some (d0 * 10 + d1, r')%N
      | None => if fixed then None else Some (d0, r)
      end
    | EmptyString => if fixed then None else Some (d0, r)
    end
  | EmptyString => None
  end.

Definition skip (c : string) (s : string) : option string :=
  match s with
  | String c0 r => if isByte c0 c then Some r else None
  | EmptyString => None
  end.

Fixpoint skipDigits (s : string) : string :=
  match s with
  | String c r => if isDigit c then skipDigits r else s
  | EmptyString => s
  end.

(** A fraction of a second in the input: a period or a comma and digits. *)
Definition skipFraction (s : string) : string :=
  match s with
  | String p (String d r) =>
    if (isByte p "." || isByte p ",") && isDigit d then skipDigits r else s
  | _ => s
  end.

(** The zone [Z07:00]: [Z], or a sign, hours up to 24, a colon and minutes
    up to 60.  The offset moves the instant and sets the location; the
    clock shown in that location is the one that was read. *)
Definition zone (s : string) : option string :=
  match s with
  | String z r =>
    if isByte z "Z" then Some r
    else
      '(hr, r1) ← getnum r true;
      r2 ← skip ":" r1;
      '(mm, r3) ← getnum r2 true;
      if ((hr <=? 24) && (mm <=? 60))%N && (isByte z "+" || isByte z "-")
      then Some r3 else None
  | EmptyString => None
  end.

(** [time.Parse(time.RFC3339, s)], the parser behind [Time.UnmarshalJSON]. *)
Definition ParseRFC3339 (s : string) : option Time :=
  match s with
  | String y0 (String y1 (String y2 (String y3 r))) =>
    a ← digit y0; b ← digit y1; c ← digit y2; d ← digit y3;
    let year := (((a * 10 + b) * 10 + c) * 10 + d)%N in
    r ← skip "-" r;
    '(month, r) ← getnum r true;
    r ← skip "-" r;
    '(day, r) ← getnum r true;
    r ← skip "T" r;
    '(hour, r) ← getnum r false;
    r ← skip ":" r;
    '(min, r) ← getnum r true;
    r ← skip ":" r;
    '(sec, r) ← getnum r true;
    r ← zone (skipFraction r);
    if ((1 <=? month) && (month <=? 12) && (hour <? 24) && (min <? 60)
        && (sec <? 60) && (1 <=? day) && (day <=? daysIn month year))%N
       && String.eqb r EmptyString
    then Some (Date year month day hour min sec)
    else None
  | _ => None
  end.

Fixpoint last (s : string) : option ascii :=
  match s with
  | EmptyString => None
  | String c EmptyString => Some c
  | String _ r => last r
  end.

Fixpoint init (s : string) : string :=
  match s with
  | EmptyString => EmptyString
  | String _ EmptyString => EmptyString
  | String c r => String c (init r)
  end.

(** [t.UnmarshalJSON(data)]: [null] is no change; the bytes between the
    quotes are parsed as they stand, escapes are not resolved. *)
Definition UnmarshalJSON (data : string) (t : Time) : Time + error :=
  if String.eqb data "null" then inl t
  else match data with
    | String q0 (String c r) =>
      if Ascii.eqb q0 dquote && bool_decide (last (String c r) = Some dquote)
      then match ParseRFC3339 (init (String c r)) with
        | Some t' => inl t'
        | None => inr (ParseError (init (String c r)))
        end
      else inr NotAJSONString
    | _ => inr NotAJSONString
    end.

(** [appendInt x width]: decimal, padded with zeros to [width] digits. *)
Fixpoint appendInt (x : N) (width : nat) : string :=
  match width with
  | O => if (x =? 0)%N then EmptyString else strconv.Itoa x
  | S w => appendInt (x / 10) w +:+ str1 (chr (48 + x mod 10))
  end.

(** [t.Format("2006-01-02 15:04:05")], the one layout of the program. *)
Definition FormatDateTime (t : Time) : string :=
  appendInt (Year t) 4 +:+ "-" +:+ appendInt (Month t) 2 +:+ "-"
  +:+ appendInt (Day t) 2 +:+ " " +:+ appendInt (Hour t) 2 +:+ ":"
  +:+ appendInt (Minute t) 2 +:+ ":" +:+ appendInt (Second t) 2.

End time.

(** ** The program's records

    The struct [File] of the source is declared and never used. *)

Module User.
Record t : Type := mk { Login : string }.
Definition zero : t := mk EmptyString.
End User.
Abbreviation User := User.t.

Module Issue.
Record t : Type := mk {
  Title : string;             (* json:"title" *)
  Body : string;              (* json:"body" *)
  User : User.t;              (* json:"user" *)
  DateTime : time.Time;       (* json:"created_at" *)
  UpdatedAt : time.Time       (* json:"updated_at" *)
}.
Definition zero : t := mk EmptyString EmptyString User.zero time.zero time.zero.
End Issue.
Abbreviation Issue := Issue.t.

Module Comment.
Record t : Type := mk {
  Body : string;              (* json:"body" *)
  User : User.t;              (* json:"user" *)
  DateTime : time.Time        (* json:"created_at" *)
}.
Definition zero : t := mk EmptyString User.zero time.zero.
End Comment.
Abbreviation Comment := Comment.t.

(** The anonymous struct of [main], [readInputsFromFile] and
    [updateInputsInFile]: the cache file's object. *)
Module Inputs.
Record t : Type := mk {
  Owner : string;             (* json:"owner" *)
  Repo : string;              (* json:"repo" *)
  IssueNumber : string        (* json:"issueNumber" *)
}.
Definition zero : t := mk EmptyString EmptyString EmptyString.
(** The fields as the encoder finds them. *)
Definition fields (x : t) : list (string * string) :=
  [("owner", Owner x); ("repo", Repo x); ("issueNumber", IssueNumber x)].
End Inputs.
Abbreviation Inputs := Inputs.t.

(** ** What [encoding/json] does at these types

    Go finds the fields of a struct and its [Unmarshaler]s by reflection;
    here each type has its decoder, built from the tags above. *)

Definition intoTime : json.Decoder time.Time :=
  fun v cur saved =>
    match time.UnmarshalJSON (json.text v) cur with
    | inl t => inl (t, saved)
    | inr e => inr e
    end.

Definition intoUser : json.Decoder User :=
  json.intoStruct "User" ["login"] (fun i =>
    match i with
    | 0 => json.field User.Login (fun _ s => User.mk s) (json.intoString "login")
    | _ => json.nofield
    end).

Definition intoIssue : json.Decoder Issue :=
  json.intoStruct "Issue" ["title"; "body"; "user"; "created_at"; "updated_at"]
    (fun i =>
      match i with
      | 0 => json.field Issue.Title
               (fun x s => Issue.mk s (Issue.Body x) (Issue.User x)
                             (Issue.DateTime x) (Issue.UpdatedAt x))
               (json.intoString "title")
      | 1 => json.field Issue.Body
               (fun x s => Issue.mk (Issue.Title x) s (Issue.User x)
                             (Issue.DateTime x) (Issue.UpdatedAt x))
               (json.intoString "body")
      | 2 => json.field Issue.User
               (fun x u => Issue.mk (Issue.Title x) (Issue.Body x) u
                             (Issue.DateTime x) (Issue.UpdatedAt x))
               intoUser
      | 3 => json.field Issue.DateTime
               (fun x d => Issue.mk (Issue.Title x) (Issue.Body x)
                             (Issue.User x) d (Issue.UpdatedAt x))
               intoTime
      | 4 => json.field Issue.UpdatedAt
               (fun x d => Issue.mk (Issue.Title x) (Issue.Body x)
                             (Issue.User x) (Issue.DateTime x) d)
               intoTime
      | _ => json.nofield
      end).

Definition intoComment : json.Decoder Comment :=
  json.intoStruct "Comment" ["body"; "user"; "created_at"] (fun i =>
    match i with
    | 0 => json.field Comment.Body
             (fun x s => Comment.mk s (Comment.User x) (Comment.DateTime x))
             (json.intoString "body")
    | 1 => json.field Comment.User
             (fun x u => Comment.mk (Comment.Body x) u (Comment.DateTime x))
             intoUser
    | 2 => json.field Comment.DateTime
             (fun x d => Comment.mk (Comment.Body x) (Comment.User x) d)
             intoTime
    | _ => json.nofield
    end).

Definition intoComments : json.Decoder (list Comment) :=
  json.intoSlice "[]Comment" Comment.zero intoComment.

Definition intoInputs : json.Decoder Inputs :=
  json.intoStruct "struct" ["owner"; "repo"; "issueNumber"] (fun i =>
    match i with
    | 0 => json.field Inputs.Owner
             (fun x s => Inputs.mk s (Inputs.Repo x) (Inputs.IssueNumber x))
             (json.intoString "owner")
    | 1 => json.field Inputs.Repo
             (fun x s => Inputs.mk (Inputs.Owner x) s (Inputs.IssueNumber x))
             (json.intoString "repo")
    | 2 => json.field Inputs.IssueNumber
             (fun x s => Inputs.mk (Inputs.Owner x) (Inputs.Repo x) s)
             (json.intoString "issueNumber")
    | _ => json.nofield
    end).

(** ** The process and its environment *)

Module url.
(** A [*url.URL]: the text that [url.Parse] read (scheme, host and query
    are its), and the [Path] field once the program has assigned it. *)
Record URL : Type := mk { Text : string; Path : option string }.
End url.

Module net.
Module http.
Record Request : Type := mkRequest {
  Method : string;
  URL : url.URL;
  Header : list (string * string)
}.
Record Response : Type := mkResponse {
  StatusCode : N;
  Status : string;              (* e.g. 200 OK *)
  Body : string + error         (* what [io.ReadAll] gets from the body *)
}.
Definition StatusOK : N := 200.
End http.
End net.

(** The calls that leave the process. *)
Inductive Call : Type :=
  | getwd
  | stat (name : string)
  | readFile (name : string)
  | writeFile (name : string) (data : string)
  | getenv (key : string)
  | newRequest (method : string) (url : string)
  | roundTrip (req : net.http.Request)
  | create (name : string)
  | write (name : string) (offset : nat) (b : string)
  | println (line : string).

(** The environment of one run, which starts when [flag.Parse] has
    returned.  The flag variables hold what it has stored ([-O]/[-owner],
    [-R]/[-repo], [-I]/[-issueNumber]; the empty string when a flag is not
    given).  [fails] tells which calls to the operating system (and which
    [http.NewRequest]) return an error; [server] is what [client.Do]
    returns for a request; [short] tells what a write to a file had done
    when it failed: nothing, or the number of bytes that it had written. *)
Record World : Type := mkWorld {
  ownerFlag : string;
  repoFlag : string;
  issueNumberFlag : string;
  cwd : string;
  environ : string -> string;
  disk : gmap string string;
  fails : Call -> option error;
  server : net.http.Request -> net.http.Response + error;
  short : Call -> option nat
}.

(** The state that a run changes: the files, by absolute path, and the
    calls made so far, oldest first. *)
Record State : Type := mkState {
  files : gmap string string;
  trace : list Call
}.

(** What [panic] and [log.Fatalf] are given. *)
Inductive value : Type :=
  | vstring (s : string)
  | verror (e : error).
Coercion vstring : string >-> value.
Coercion verror : error >-> value.

(** How a run ends early: [panic(v)], or [log.Fatalf(format, v)], which
    prints and calls [os.Exit(1)].  Every [panic] of the program comes
    before its first [defer], and [os.Exit] runs no deferred call; what was
    written to a file stays written. *)
Inductive Exit : Type :=
  | Panic (v : value)
  | Fatal (format : string) (v : value).

Inductive Result (A : Type) : Type :=
  | Return (a : A) (s : State)
  | Exited (x : Exit) (s : State).
Arguments Return {A} a s.
Arguments Exited {A} x s.

Definition Proc (A : Type) : Type := State -> Result A.

Definition ret {A : Type} (a : A) : Proc A := fun s => Return a s.

Definition bind {A B : Type} (m : Proc A) (k : A -> Proc B) : Proc B :=
  fun s =>
    match m s with
    | Return a s' => k a s'
    | Exited x s' => Exited x s'
    end.

Definition panic {A : Type} (v : value) : Proc A := fun s => Exited (Panic v) s.

Declare Scope proc_scope.
Delimit Scope proc_scope with proc.
Bind Scope proc_scope with Proc.

Notation "x <- m ;; k" := (bind m (fun x => k))
  (at level 100, m at next level, right associativity) : proc_scope.
Notation "m ;; k" := (bind m (fun _ => k))
  (at level 100, right associativity) : proc_scope.

(** [if err != nil { handler }] after a call that returns a value and an
    error, and after one that returns an error alone. *)
Definition orElse {A : Type} (m : Proc (A + error)) (handler : error -> Proc A)
  : Proc A :=
  bind m (fun r => match r with inl a => ret a | inr err => handler err end).

Definition check (m : Proc (option error)) (handler : error -> Proc unit)
  : Proc unit :=
  bind m (fun r => match r with None => ret tt | Some err => handler err end).

Definition called (c : Call) (s : State) : State :=
  mkState (files s) (trace s ++ [c]).

Module log.
Definition Fatalf {A : Type} (format : string) (v : value) : Proc A :=
  fun s => Exited (Fatal format v) s.
End log.

Module fmt.

(** An operand of [Sprintf]. *)
Inductive any : Type :=
  | str (s : string)
  | int (n : N).

Definition verb (v : ascii) (a : any) : string :=
  match a with
  | str s =>
    if isByte v "s" then s
    else "%!" +:+ str1 v +:+ "(string=" +:+ s +:+ ")"
  | int n =>
    if isByte v "d" then strconv.Itoa n
    else "%!" +:+ str1 v +:+ "(int=" +:+ strconv.Itoa n +:+ ")"
  end.

(** [Sprintf format args], for the verbs [%s], [%d] and [%%]; every call
    of the program has as many operands as its format has verbs, operands
    left over are dropped here. *)
Fixpoint Sprintf (format : string) (args : list any) : string :=
  match format with
  | EmptyString => EmptyString
  | String c r =>
    if isByte c "%" then
      match r with
      | EmptyString => "%!(NOVERB)"
      | String v r' =>
        if isByte v "%" then String v (Sprintf r' args)
        else match args with
          | a :: args' => verb v a +:+ Sprintf r' args'
          | [] => "%!" +:+ str1 v +:+ "(MISSING)" +:+ Sprintf r' []
          end
      end
    else String c (Sprintf r args)
  end.

(** [fmt.Println(line)] *)
Definition Println (line : string) : Proc unit :=
  fun s => Return tt (called (println line) s).

End fmt.

Module filepath.
(** [filepath.Join(dir, name)] for a clean rooted [dir], as [os.Getwd]
    returns it, and a plain file name. *)
Definition Join (dir name : string) : string :=
  if String.eqb dir "/" then "/" +:+ name else dir +:+ "/" +:+ name.
End filepath.

Module os.

(** The absolute path that the system resolves a name to. *)
Definition abs (w : World) (name : string) : string :=
  match name with
  | String "/" _ => name
  | _ => filepath.Join (cwd w) name
  end.

Definition Getwd (w : World) : Proc (string + error) :=
  fun s =>
    Return (match fails w getwd with Some e => inr e | None => inl (cwd w) end)
           (called getwd s).

(** [os.Stat]: of its results the program reads the error alone, which is
    [nil] when the file is there. *)
Definition Stat (w : World) (name : string) : Proc (option error) :=
  fun s =>
    Return (match files s !! abs w name with
            | Some _ => None
            | None => Some (Errno "no such file or directory")
            end)
           (called (stat name) s).

Definition ReadFile (w : World) (name : string) : Proc (string + error) :=
  fun s =>
    Return (match fails w (readFile name) with
            | Some e => inr e
            | None =>
              match files s !! abs w name with
              | Some data => inl data
              | None => inr (Errno "no such file or directory")
              end
            end)
           (called (readFile name) s).

(** [os.WriteFile]: the file is created or truncated and holds [data].
    A call that fails has not opened the file, which is as it was, or has
    truncated it and written the first bytes of [data]. *)
Definition WriteFile (w : World) (name data : string) : Proc (option error) :=
  fun s =>
    match fails w (writeFile name data) with
    | Some e =>
      Return (Some e)
        (mkState (match short w (writeFile name data) with
                  | Some n => <[abs w name := String.substring 0 n data]> (files s)
                  | None => files s
                  end)
                 (trace s ++ [writeFile name data]))
    | None =>
      Return None (mkState (<[abs w name := data]> (files s))
                           (trace s ++ [writeFile name data]))
    end.

Definition Getenv (w : World) (key : string) : Proc string :=
  fun s => Return (environ w key) (called (getenv key) s).

(** An open [*os.File], by its name. *)
Definition File : Type := string.

(** [os.Create]: the file is created or truncated. *)
Definition Create (w : World) (name : string) : Proc (File + error) :=
  fun s =>
    match fails w (create name) with
    | Some e => Return (inr e) (called (create name) s)
    | None =>
      Return (inl name) (mkState (<[abs w name := EmptyString]> (files s))
                                 (trace s ++ [create name]))
    end.

(** What a write of [b] that fails has written: the first bytes of [b],
    as many as the environment tells and fewer than all ([Write] returns an
    error when it has written less than it was given). *)
Definition shortWrite (w : World) (c : Call) (b : string) : string :=
  String.substring 0 (Nat.min (default 0 (short w c)) (String.length b - 1)) b.

(** [file.WriteString]: the bytes go to the file at its end (the file is
    written by nobody else), all of them, or the first of them when the
    call fails. *)
Definition WriteString (w : World) (file : File) (b : string)
  : Proc (option error) :=
  fun s =>
    let old := default EmptyString (files s !! abs w file) in
    let c := write file (String.length old) b in
    match fails w c with
    | Some e =>
      Return (Some e) (mkState (<[abs w file := old +:+ shortWrite w c b]> (files s))
                               (trace s ++ [c]))
    | None => Return None (mkState (<[abs w file := old +:+ b]> (files s))
                                   (trace s ++ [c]))
    end.

End os.

Module http.
Include net.http.

Definition NewRequest (w : World) (method url : string)
  : Proc (Request + error) :=
  fun s =>
    Return (match fails w (newRequest method url) with
            | Some e => inr e
            | None => inl (mkRequest method (url.mk url None) [])
            end)
           (called (newRequest method url) s).

(** [req.Header.Set(key, v)] *)
Definition HeaderSet (req : Request) (key v : string) : Request :=
  mkRequest (Method req) (URL req)
    ((key, v) :: filter (fun kv => fst kv <> key) (Header req)).

(** [req.URL.Path = path] *)
Definition SetURLPath (req : Request) (path : string) : Request :=
  mkRequest (Method req) (url.mk (url.Text (URL req)) (Some path)) (Header req).

End http.

Module client.
(** [client.Do(req)] *)
Definition Do (w : World) (req : http.Request) : Proc (http.Response + error) :=
  fun s => Return (server w req) (called (roundTrip req) s).
End client.

Module io.
(** [io.ReadAll(resp.Body)] *)
Definition ReadAll (body : string + error) : Proc (string + error) := ret body.
End io.

(** ** The program *)

Definition getAbsolutePath (w : World) (filePath : string) : Proc string :=
  (currentDir <- orElse (os.Getwd w) (fun err =>
       panic (Errorf "failed to get current directory: %w" err)) ;;
   ret (filepath.Join currentDir filePath))%proc.

Definition readInputsFromFile (w : World) (filePath : string)
  : Proc (string * string * string) :=
  ((* Read the contents of the file *)
   fileData <- orElse (os.ReadFile w filePath) (fun err =>
       panic (Errorf "failed to read inputs from file: %w" err)) ;;
   (* Unmarshal the JSON data into a struct *)
   inputs <- orElse (ret (json.Unmarshal intoInputs fileData Inputs.zero))
     (fun err => panic (Errorf "failed to parse inputs from file: %w" err)) ;;
   ret (Inputs.Owner inputs, Inputs.Repo inputs, Inputs.IssueNumber inputs))%proc.

Definition updateInputsInFile (w : World)
    (filePath owner repo issueNumber : string) : Proc unit :=
  (* Create the new inputs struct *)
  let newInputs := Inputs.mk owner repo issueNumber in
  (* Convert to JSON *)
  let newInputsJSON := json.MarshalIndent (Inputs.fields newInputs) "" "  " in
  (* Write to the file *)
  check (os.WriteFile w filePath newInputsJSON) (fun err =>
    panic (Errorf "failed to write updated inputs to file: %w" err)).

(** The loop [for i, comment := range comments] of [main], from index [i]. *)
Fixpoint rangeComments (w : World) (file : os.File) (i : nat)
    (comments : list Comment) : Proc unit :=
  match comments with
  | [] => ret tt
  | comment :: rest =>
    ((if (0 <? i)%nat
      then check (os.WriteString w file nl) (fun err =>
             log.Fatalf "Failed to write space to file: %s" err)
      else ret tt) ;;
     let commentHeader :=
       fmt.Sprintf "Comment %d by %s at %s"
         [fmt.int (N.of_nat (i + 1)); fmt.str (User.Login (Comment.User comment));
          fmt.str (time.FormatDateTime (Comment.DateTime comment))] in
     check (os.WriteString w file (commentHeader +:+ ":" +:+ nl)) (fun err =>
       log.Fatalf "Failed to write comment header to file: %s" err) ;;
     let commentBody := fmt.Sprintf ("%s" +:+ nl) [fmt.str (Comment.Body comment)] in
     check (os.WriteString w file commentBody) (fun err =>
       log.Fatalf "Failed to write comment body to file: %s" err) ;;
     rangeComments w file (S i) rest)%proc
  end.

Definition nonempty (s : string) : bool := negb (String.eqb s EmptyString).

Definition main (w : World) : Proc unit :=
  ((* GitHub API endpoint to fetch issue/PR and comments *)
   let apiURL := "https://api.github.com/repos/{owner}/{repo}/issues/{issueNumber}" in
   (* flag.Parse(): the flag variables of [w] *)
   inputsFilePath <- getAbsolutePath w "github-comments-fetcher-inputs.txt" ;;
   (* Check if github-comments-fetcher-inputs.txt exists *)
   err <- os.Stat w inputsFilePath ;;
   current <-
     match err with
     | None =>
       (* The file exists, so read existing inputs from the file *)
       loaded <- readInputsFromFile w inputsFilePath ;;
       let '(currentOwner, currentRepo, currentIssueNumber) := loaded in
       (* Check if the owner and repo fields are empty *)
       if String.eqb currentOwner EmptyString || String.eqb currentRepo EmptyString
       then panic "The 'owner' and 'repo' fields in github-comments-fetcher-inputs.txt cannot be empty"
       else
         (* Update inputs if flags were provided *)
         let currentOwner :=
           if nonempty (ownerFlag w) then ownerFlag w else currentOwner in
         let currentRepo :=
           if nonempty (repoFlag w) then repoFlag w else currentRepo in
         let currentIssueNumber :=
           if nonempty (issueNumberFlag w) then issueNumberFlag w
           else currentIssueNumber in
         (* Update the inputs in the file *)
         updateInputsInFile w inputsFilePath currentOwner currentRepo
           currentIssueNumber ;;
         ret (currentOwner, currentRepo, currentIssueNumber)
     | Some _ =>
       (* The file doesn't exist, so create it *)
       let newInputs := Inputs.mk (ownerFlag w) (repoFlag w) (issueNumberFlag w) in
       let newInputsJSON := json.MarshalIndent (Inputs.fields newInputs) "" "  " in
       check (os.WriteFile w inputsFilePath newInputsJSON) (fun err =>
         panic (Errorf "failed to write new inputs to file: %w" err)) ;;
       (* currentOwner, currentRepo and currentIssueNumber are not assigned
          in this branch: they keep the zero value *)
       ret (EmptyString, EmptyString, EmptyString)
     end ;;
   let '(currentOwner, currentRepo, currentIssueNumber) := current in
   (* Retrieve access token from environment *)
   accessToken <- os.Getenv w "GITHUB_ACCESS_TOKEN" ;;
   if String.eqb accessToken EmptyString
   then panic "GitHub access token not found in environment"
   else
   (* GitHub repository information *)
   let owner := currentOwner in
   let repo := currentRepo in
   let issueNumber := currentIssueNumber in
   (* Create the request *)
   req <- orElse (http.NewRequest w "GET" apiURL) (fun err =>
       log.Fatalf "Failed to create request: %s" err) ;;
   (* Add the access token to the request header *)
   let req :=
     if nonempty accessToken
     then http.HeaderSet req "Authorization" ("Bearer " +:+ accessToken)
     else req in
   (* Replace the placeholders in the API URL *)
   let req := http.SetURLPath req
     (fmt.Sprintf "/repos/%s/%s/issues/%s"
        [fmt.str owner; fmt.str repo; fmt.str issueNumber]) in
   (* Send the request *)
   resp <- orElse (client.Do w req) (fun err =>
       log.Fatalf "Failed to send request: %s" err) ;;
   (* Read the response body *)
   body <- orElse (io.ReadAll (http.Body resp)) (fun err =>
       log.Fatalf "Failed to read response body: %s" err) ;;
   (* Check the response status code *)
   if negb (http.StatusCode resp =? http.StatusOK)%N
   then log.Fatalf "Request failed with status: %s" (http.Status resp)
   else
   (* Parse the response body as an Issue *)
   issue <- orElse (ret (json.Unmarshal intoIssue body Issue.zero)) (fun err =>
       log.Fatalf "Failed to parse issue response body: %s" err) ;;
   (* Create or open the output file *)
   file <- orElse (os.Create w "comments.txt") (fun err =>
       log.Fatalf "Failed to create file: %s" err) ;;
   (* Write the issue details to the file *)
   let issueLine :=
     fmt.Sprintf ("Issue Title: %s" +:+ nl +:+ "Issue Body: %s" +:+ nl
                  +:+ "Issue Author: %s" +:+ nl +:+ "Created At: %s" +:+ nl
                  +:+ "Updated At: %s" +:+ nl +:+ nl)
       [fmt.str (Issue.Title issue); fmt.str (Issue.Body issue);
        fmt.str (User.Login (Issue.User issue));
        fmt.str (time.FormatDateTime (Issue.DateTime issue));
        fmt.str (time.FormatDateTime (Issue.UpdatedAt issue))] in
   check (os.WriteString w file issueLine) (fun err =>
     log.Fatalf "Failed to write issue details to file: %s" err) ;;
   (* Fetch comments *)
   let apiCommentsURL :=
     fmt.Sprintf "https://api.github.com/repos/%s/%s/issues/%s/comments"
       [fmt.str owner; fmt.str repo; fmt.str issueNumber] in
   reqComments <- orElse (http.NewRequest w "GET" apiCommentsURL) (fun err =>
       log.Fatalf "Failed to create comments request: %s" err) ;;
   let reqComments :=
     if nonempty accessToken
     then http.HeaderSet reqComments "Authorization" ("Bearer " +:+ accessToken)
     else reqComments in
   respComments <- orElse (client.Do w reqComments) (fun err =>
       log.Fatalf "Failed to send comments request: %s" err) ;;
   bodyComments <- orElse (io.ReadAll (http.Body respComments)) (fun err =>
       log.Fatalf "Failed to read comments response body: %s" err) ;;
   if negb (http.StatusCode respComments =? http.StatusOK)%N
   then log.Fatalf "Comments request failed with status: %s" (http.Status respComments)
   else
   comments <- orElse (ret (json.Unmarshal intoComments bodyComments [])) (fun err =>
       log.Fatalf "Failed to parse comments response body: %s" err) ;;
   (* Write the comments to the file *)
   rangeComments w file 0 comments ;;
   fmt.Println "Issue details and comments have been fetched and saved to comments.txt.")%proc.

(** A run of the program in the environment [w]. *)
Definition run (w : World) : Result unit := main w (mkState (disk w) []).

(** ** Observations of a run *)

Definition final {A : Type} (r : Result A) : State :=
  match r with
  | Return _ s => s
  | Exited _ s => s
  end.

(** The requests that [client.Do] has sent, oldest first. *)
Fixpoint requests (calls : list Call) : list http.Request :=
  match calls with
  | [] => []
  | roundTrip req :: rest => req :: requests rest
  | _ :: rest => requests rest
  end.

Definition inputsFile : string := "github-comments-fetcher-inputs.txt".
Definition outputFile : string := "comments.txt".
Definition tokenVariable : string := "GITHUB_ACCESS_TOKEN".

(** Where the system keeps the cache file and the transcript. *)
Definition cachePath (w : World) : string :=
  os.abs w (filepath.Join (cwd w) inputsFile).
Definition outputPath (w : World) : string := os.abs w outputFile.

(** The pretty-printed object that the program writes to the cache file. *)
Definition cacheText (x : Inputs) : string :=
  json.MarshalIndent (Inputs.fields x) "" "  ".

(** The path that the issue request is sent to, and the address of the
    comments request. *)
Definition issuePath (owner repo issueNumber : string) : string :=
  "/repos/" +:+ owner +:+ "/" +:+ repo +:+ "/issues/" +:+ issueNumber.
Definition commentsURL (owner repo issueNumber : string) : string :=
  "https://api.github.com/repos/" +:+ owner +:+ "/" +:+ repo +:+ "/issues/"
  +:+ issueNumber +:+ "/comments".

(** ** The transcript, as the specification words it

    The issue header block, one blank line, then the comment blocks in the
    order of the response, numbered from 1, with one blank line between two
    blocks. *)

Definition line (s : string) : string := s +:+ nl.
Definition blank : string := nl.

Definition issueHeader (x : Issue) : string :=
  line ("Issue Title: " +:+ Issue.Title x)
  +:+ line ("Issue Body: " +:+ Issue.Body x)
  +:+ line ("Issue Author: " +:+ User.Login (Issue.User x))
  +:+ line ("Created At: " +:+ time.FormatDateTime (Issue.DateTime x))
  +:+ line ("Updated At: " +:+ time.FormatDateTime (Issue.UpdatedAt x)).

Definition commentBlock (number : nat) (c : Comment) : string :=
  line ("Comment " +:+ strconv.Itoa (N.of_nat number) +:+ " by "
        +:+ User.Login (Comment.User c) +:+ " at "
        +:+ time.FormatDateTime (Comment.DateTime c) +:+ ":")
  +:+ line (Comment.Body c).

Fixpoint joinBlocks (blocks : list string) : string :=
  match blocks with
  | [] => EmptyString
  | [b] => b
  | b :: rest => b +:+ blank +:+ joinBlocks rest
  end.

Definition commentBlocks (comments : list Comment) : list string :=
  imap (fun i c => commentBlock (S i) c) comments.

Definition transcript (x : Issue) (comments : list Comment) : string :=
  issueHeader x +:+ blank +:+ joinBlocks (commentBlocks comments).

(** [s] reads YYYY-MM-DD HH:MM:SS, every letter a decimal digit. *)
Definition isDateTime (s : string) : bool :=
  match list_ascii_of_string s with
  | [y1; y2; y3; y4; d1; m1; m2; d2; a1; a2; sp; h1; h2; c1; n1; n2; c2; s1; s2] =>
    forallb isDigit [y1; y2; y3; y4; m1; m2; a1; a2; h1; h2; n1; n2; s1; s2]
    && isByte d1 "-" && isByte d2 "-" && isByte sp " "
    && isByte c1 ":" && isByte c2 ":"
  | _ => false
  end.

(** *** The text of the transcript, letter by letter

    The decimal numeral of a number, found by counting, and a date and time
    of day written [YYYY-MM-DD HH:MM:SS] digit by digit.  Neither calls
    [strconv.Itoa] or [Time.Format] of the program. *)

(** The numeral that follows the one of the digits [digits], which are
    held from the last to the first. *)
Fixpoint succNumeral (digits : list ascii) : list ascii :=
  match digits with
  | [] => ["1"%char]
  | d :: rest =>
    if Ascii.eqb d "9" then "0"%char :: succNumeral rest
    else chr (code d + 1) :: rest
  end.

Fixpoint numeralDigits (n : nat) : list ascii :=
  match n with
  | O => ["0"%char]
  | S n' => succNumeral (numeralDigits n')
  end.

Definition numeral (n : nat) : string := rev_string (numeralDigits n) EmptyString.

Definition digitOf (d : N) : ascii :=
  match d with
  | 0 => "0" | 1 => "1" | 2 => "2" | 3 => "3" | 4 => "4"
  | 5 => "5" | 6 => "6" | 7 => "7" | 8 => "8" | _ => "9"
  end%N%char.

Definition twoDigits (n : N) : string :=
  String (digitOf (n / 10)) (str1 (digitOf (n mod 10))).

Definition fourDigits (n : N) : string :=
  twoDigits (n / 100) +:+ twoDigits (n mod 100).

(** [YYYY-MM-DD HH:MM:SS] *)
Definition stamp (t : time.Time) : string :=
  fourDigits (time.Year t) +:+ "-" +:+ twoDigits (time.Month t) +:+ "-"
  +:+ twoDigits (time.Day t) +:+ " " +:+ twoDigits (time.Hour t) +:+ ":"
  +:+ twoDigits (time.Minute t) +:+ ":" +:+ twoDigits (time.Second t).

Definition headerText (x : Issue) : string :=
  "Issue Title: " +:+ Issue.Title x +:+ nl
  +:+ "Issue Body: " +:+ Issue.Body x +:+ nl
  +:+ "Issue Author: " +:+ User.Login (Issue.User x) +:+ nl
  +:+ "Created At: " +:+ stamp (Issue.DateTime x) +:+ nl
  +:+ "Updated At: " +:+ stamp (Issue.UpdatedAt x) +:+ nl.

Definition blockText (number : nat) (c : Comment) : string :=
  "Comment " +:+ numeral number +:+ " by " +:+ User.Login (Comment.User c)
  +:+ " at " +:+ stamp (Comment.DateTime c) +:+ ":" +:+ nl
  +:+ Comment.Body c +:+ nl.

(** The blocks of the comments, which are numbered from 1. *)
Definition blockTexts (comments : list Comment) : list string :=
  imap (fun i c => blockText (S i) c) comments.

(** The header block, a blank line, and the blocks of the comments with a
    blank line between two of them. *)
Definition transcriptText (x : Issue) (comments : list Comment) : string :=
  headerText x +:+ nl +:+ joinBlocks (blockTexts comments).

(** ** Definitions for the statements

    The messages that a run ends with, and the two requests as [main]
    builds them. *)

Definition emptyMessage : string :=
  "The 'owner' and 'repo' fields in github-comments-fetcher-inputs.txt cannot be empty".
Definition tokenMessage : string :=
  "GitHub access token not found in environment".

(** The format of the fatal message for a response that is not 200: the
    issue request is the one whose [URL.Path] the program has set. *)
Definition statusFormat (req : http.Request) : string :=
  match url.Path (http.URL req) with
  | Some _ => "Request failed with status: %s"
  | None => "Comments request failed with status: %s"
  end.

(** The format of the fatal message for a body that does not decode. *)
Definition parseFormat (req : http.Request) : string :=
  match url.Path (http.URL req) with
  | Some _ => "Failed to parse issue response body: %s"
  | None => "Failed to parse comments response body: %s"
  end.

Definition apiURL : string :=
  "https://api.github.com/repos/{owner}/{repo}/issues/{issueNumber}".

(** The issue request as [main] builds it. *)
Definition issueRequest (token owner repo issueNumber : string) : http.Request :=
  http.mkRequest "GET" (url.mk apiURL (Some (issuePath owner repo issueNumber)))
    [("Authorization", "Bearer " +:+ token)].

Definition commentsRequest (token owner repo issueNumber : string) : http.Request :=
  http.mkRequest "GET" (url.mk (commentsURL owner repo issueNumber) None)
    [("Authorization", "Bearer " +:+ token)].

(** C7 as it is stated: a response with another status than 200 ends the
    run in the fatal message that carries its status text. *)
Definition statusDecides (w : World) : Prop :=
  forall req resp,
    In (roundTrip req) (trace (final (run w))) ->
    server w req = inl resp ->
    http.StatusCode resp <> http.StatusOK ->
    exists s, run w = Exited (Fatal (statusFormat req) (vstring (http.Status resp))) s.

(** *** Partial output *)

Definition properPrefix (p s : string) : Prop :=
  exists rest, rest <> EmptyString /\ s = p +:+ rest.

(** The run has left in the output file, which it has changed, a proper
    prefix of a transcript. *)
Definition partialOutput (w : World) (s : State) : Prop :=
  exists issue comments p,
    files s !! outputPath w = Some p
    /\ files s !! outputPath w <> disk w !! outputPath w
    /\ properPrefix p (transcript issue comments).

(** C2 as it is stated: no run that ends early leaves partial output. *)
Definition noPartialOutput (w : World) : Prop :=
  forall x s, run w = Exited x s -> ~ partialOutput w s.

(** The ways to end before the output file is there, and the ways to end
    between the issue header and the first comment. *)
Definition beforeOutput (x : Exit) : Prop :=
  match x with
  | Panic _ => True
  | Fatal format _ =>
    In format ["Failed to create request: %s"; "Failed to send request: %s";
               "Failed to read response body: %s"; "Request failed with status: %s";
               "Failed to parse issue response body: %s"; "Failed to create file: %s"]
  end.

Definition commentsFetchFailure (x : Exit) : Prop :=
  match x with
  | Panic _ => False
  | Fatal format _ =>
    In format ["Failed to create comments request: %s";
               "Failed to send comments request: %s";
               "Failed to read comments response body: %s";
               "Comments request failed with status: %s";
               "Failed to parse comments response body: %s"]
  end.

(** *** The loop over the comments *)

Definition isWrite (c : Call) : Prop :=
  match c with
  | write _ _ _ => True
  | _ => False
  end.

(** The text that the loop writes from index [i] on. *)
Fixpoint written (i : nat) (comments : list Comment) : string :=
  match comments with
  | [] => EmptyString
  | c :: rest =>
    (if (0 <? i)%nat then blank else EmptyString)
    +:+ commentBlock (S i) c +:+ written (S i) rest
  end.

Definition content (w : World) (file : os.File) (s : State) : string :=
  default EmptyString (files s !! os.abs w file).

Definition writeFailure (x : Exit) : Prop :=
  exists format e, x = Fatal format (verror e) /\
    In format ["Failed to write space to file: %s";
               "Failed to write comment header to file: %s";
               "Failed to write comment body to file: %s"].

(** [r] is the result, from [s], of a piece of the program that changes the
    transcript alone, calls [write] alone and, having ended, has appended
    [text]. *)
Definition appends (w : World) (file : os.File) (text : string)
    (s : State) (r : Result unit) : Prop :=
  (forall p, p <> os.abs w file -> files (final r) !! p = files s !! p)
  /\ (exists ws, trace (final r) = trace s ++ ws /\ Forall isWrite ws)
  /\ match r with
     | Return _ s' =>
       forall d, files s !! os.abs w file = Some d ->
         files s' !! os.abs w file = Some (d +:+ text)
     | Exited x _ => writeFailure x
     end.

(** *** Invariants of the decoders *)

Module valid.
(** The dates that the decoder yields. *)
Definition Time (t : time.Time) : Prop :=
  (time.Year t < 10000 /\ time.Month t < 100 /\ time.Day t < 100
   /\ time.Hour t < 100 /\ time.Minute t < 100 /\ time.Second t < 100)%N.
Definition Issue (x : Issue.t) : Prop :=
  Time (Issue.DateTime x) /\ Time (Issue.UpdatedAt x).
Definition Comment (c : Comment.t) : Prop := Time (Comment.DateTime c).
End valid.

(** A decoder keeps [P] when what it stores has [P] if what was there had. *)
Definition keeps {T : Type} (P : T -> Prop) (dec : json.Decoder T) : Prop :=
  forall v cur saved cur' saved',
    P cur -> dec v cur saved = inl (cur', saved') -> P cur'.

(** *** The cache file read back

    [ValidString s] is [utf8.ValidString]: [s] is a sequence of well-formed
    UTF-8 encodings.  [skip] counts the continuation bytes of the rune that
    is being crossed. *)

Fixpoint validFrom (skip : nat) (s : string) : bool :=
  match s with
  | EmptyString => true
  | String c r =>
    match skip with
    | S k => validFrom k r
    | O =>
      if (code c <? utf8.RuneSelf)%N then validFrom 0 r
      else match utf8.DecodeRuneInString s with
        | (_, S (S k)) => validFrom (S k) r
        | _ => false
        end
    end
  end.

Definition ValidString (s : string) : bool := validFrom 0 s.

Definition chars (s : string) : list ascii := list_ascii_of_string s.

(** The scanner, inside a string literal, reads [ch] and is inside the
    literal still, with [ch] added to what it has read of it. *)
Definition copied (ch : string) : Prop :=
  forall ps l tp,
    json.scanAll (json.mkScanner json.stateInString ps l tp) ch
    = Some (json.mkScanner json.stateInString ps (rev (chars ch) ++ l) tp).

(** A byte that is not ASCII. *)
Definition high (c : ascii) : Prop := (code c <? 128)%N = false.

(** *** Calls in a trace *)



Definition isNewRequest (c : Call) : Prop :=
  match c with
  | newRequest _ _ => True
  | _ => False
  end.

(** A JSON value that a string field does not take. *)
Definition wrongType (v : json.Value) : Prop :=
  match v with
  | json.Str _ | json.Null => False
  | _ => True
  end.

(** The error that the walk has saved, if any, is a type error. *)
Definition typeError (saved : option error) : Prop :=
  exists value field, saved = Some (UnmarshalTypeError value field).

(** A piece of the program that ends early has appended to the transcript
    a part of [text], and not all of it. *)
Definition partial (w : World) (file : os.File) (text : string) (m : Proc unit)
  : Prop :=
  forall s x s' d,
    m s = Exited x s' ->
    files s !! os.abs w file = Some d ->
    exists p rest,
      files s' !! os.abs w file = Some (d +:+ p)
      /\ text = p +:+ rest /\ rest <> EmptyString.

(** ** Example environments *)

(** A JSON text written with apostrophes for the quotation marks. *)
Fixpoint quoted (s : string) : string :=
  match s with
  | EmptyString => EmptyString
  | String c r => String (if Ascii.eqb c "'" then dquote else c) (quoted r)
  end.

Definition tokenEnv (token key : string) : string :=
  if String.eqb key tokenVariable then token else EmptyString.

(** A server that answers the issue request (the one with a path) and the
    comments request. *)
Definition github (issue comments : http.Response + error) (req : http.Request)
  : http.Response + error :=
  match url.Path (http.URL req) with
  | Some _ => issue
  | None => comments
  end.

Definition ok (body : string) : http.Response + error :=
  inl (http.mkResponse 200 "200 OK" (inl body)).
Definition notFound : http.Response + error :=
  inl (http.mkResponse 404 "404 Not Found" (inl (quoted "{'message':'Not Found'}"))).

Definition issueBody : string :=
  quoted "{'title':'T','body':'B','user':{'login':'u','id':4},'created_at':'2020-01-02T03:04:05Z','updated_at':'2021-01-02T03:04:05Z','labels':[]}".
Definition commentsBody : string :=
  quoted "[{'body':'hi','user':{'login':'v'},'created_at':'2020-01-03T03:04:05Z'},{'id':7,'body':'yo','user':{'login':'w'},'created_at':'2020-01-04T03:04:05+02:00'}]".

Definition issueT : Issue :=
  Issue.mk "T" "B" (User.mk "u") (time.Date 2020 1 2 3 4 5) (time.Date 2021 1 2 3 4 5).
Definition commentsT : list Comment :=
  [Comment.mk "hi" (User.mk "v") (time.Date 2020 1 3 3 4 5);
   Comment.mk "yo" (User.mk "w") (time.Date 2020 1 4 3 4 5)].

Definition noFault (c : Call) : option error := None.
Definition noShort (c : Call) : option nat := None.
Definition home : string := "/home/u".
Definition homeCache : string := "/home/u/github-comments-fetcher-inputs.txt".

(** No cache file, the three flags given. *)
Definition worldFresh : World :=
  mkWorld "A" "B" "3" home (tokenEnv "tok") ∅ noFault
    (github (ok issueBody) (ok commentsBody)) noShort.

(** A cache file of A, B, 1 and the one flag issueNumber=2. *)
Definition worldCached : World :=
  mkWorld EmptyString EmptyString "2" home (tokenEnv "tok")
    {[ homeCache := quoted "{'owner':'A','repo':'B','issueNumber':'1'}" ]}
    noFault (github (ok issueBody) (ok commentsBody)) noShort.

(** A cache file with an empty owner, and owner and repo flags. *)
Definition worldEmptyOwner : World :=
  mkWorld "X" "Y" "2" home (tokenEnv "tok")
    {[ homeCache := quoted "{'owner':'','repo':'B','issueNumber':'1'}" ]}
    noFault (github (ok issueBody) (ok commentsBody)) noShort.

(** No token in the environment. *)
Definition worldNoToken : World :=
  mkWorld "A" "B" "3" home (tokenEnv EmptyString) ∅ noFault
    (github (ok issueBody) (ok commentsBody)) noShort.

(** The issue is not found. *)
Definition worldIssue404 : World :=
  mkWorld EmptyString EmptyString EmptyString home (tokenEnv "tok")
    {[ homeCache := quoted "{'owner':'A','repo':'B','issueNumber':'1'}" ]}
    noFault (github notFound (ok commentsBody)) noShort.

(** The issue is not found, and the body of the response breaks off as
    it is read. *)
Definition unreadable : http.Response :=
  http.mkResponse 404 "404 Not Found" (inr (Errno "unexpected EOF")).

Definition worldUnreadable : World :=
  mkWorld EmptyString EmptyString EmptyString home (tokenEnv "tok")
    {[ homeCache := quoted "{'owner':'A','repo':'B','issueNumber':'1'}" ]}
    noFault (github (inl unreadable) (ok commentsBody)) noShort.

(** The issue is found, its comments are not. *)
Definition worldComments404 : World :=
  mkWorld EmptyString EmptyString EmptyString home (tokenEnv "tok")
    {[ homeCache := quoted "{'owner':'A','repo':'B','issueNumber':'1'}" ]}
    noFault (github (ok issueBody) notFound) noShort.

(** The body of the comments response breaks off. *)
Definition worldBadJSON : World :=
  mkWorld EmptyString EmptyString EmptyString home (tokenEnv "tok")
    {[ homeCache := quoted "{'owner':'A','repo':'B','issueNumber':'1'}" ]}
    noFault (github (ok issueBody) (ok (quoted "[{'body':'hi'"))) noShort.

(** No cache file and no flag. *)
Definition worldNoFlags : World :=
  mkWorld EmptyString EmptyString EmptyString home (tokenEnv "tok") ∅ noFault
    (github (ok issueBody) (ok commentsBody)) noShort.

(** The run that follows a run in [w], in the same directory, with the
    flags [owner], [repo] and [issueNumber]. *)
Definition after (w : World) (owner repo issueNumber : string) : World :=
  mkWorld owner repo issueNumber (cwd w) (environ w) (files (final (run w)))
    (fails w) (server w) (short w).

(** The write of the header of the second comment fails after eight bytes. *)
Definition diskFull (c : Call) : option error :=
  match c with
  | write _ _ b =>
    if String.prefix "Comment 2" b then Some (Errno "no space left on device")
    else None
  | _ => None
  end.

Definition worldDiskFull : World :=
  mkWorld EmptyString EmptyString EmptyString home (tokenEnv "tok")
    {[ homeCache := quoted "{'owner':'A','repo':'B','issueNumber':'1'}" ]}
    diskFull (github (ok issueBody) (ok commentsBody)) (fun _ => Some 8).

(** ** Strings *)

Arguments json.Unmarshal : simpl never.
Arguments json.MarshalIndent : simpl never.
Arguments time.FormatDateTime : simpl never.
Arguments strconv.Itoa : simpl never.
Arguments fmt.Sprintf : simpl never.
Arguments filepath.Join : simpl never.
Arguments os.abs : simpl never.
Arguments os.shortWrite : simpl never.
Arguments rangeComments : simpl never.

Lemma append_cons (c : ascii) (a b : string) :
  String c a +:+ b = String c (a +:+ b).
Proof. reflexivity. Qed.

Lemma append_nil_r (s : string) : s +:+ EmptyString = s.
Proof.
  induction s as [|c s IH]; [reflexivity | now rewrite append_cons, IH].
Qed.

Lemma append_assoc (a b c : string) : (a +:+ b) +:+ c = a +:+ (b +:+ c).
Proof.
  induction a as [|x a IH]; [reflexivity | now rewrite !append_cons, IH].
Qed.

Lemma length_append (a b : string) :
  String.length (a +:+ b) = (String.length a + String.length b)%nat.
Proof.
  induction a as [|x a IH]; [reflexivity | rewrite append_cons; simpl; now rewrite IH].
Qed.

(** Two strings with ends of one length are equal only if the ends are. *)
Lemma append_inj_end (a b x y : string) :
  String.length x = String.length y -> a +:+ x = b +:+ y -> x = y.
Proof.
  revert b. induction a as [|c a IH]; intros [|d b] Hlen H.
  - exact H.
  - apply (f_equal String.length) in H. rewrite !length_append in H.
    simpl in H. lia.
  - apply (f_equal String.length) in H. rewrite !length_append in H.
    simpl in H. lia.
  - rewrite !append_cons in H. injection H as _ H. eauto.
Qed.

Lemma join_end (d name e : string) :
  exists p, filepath.Join d (name +:+ e) = p +:+ e.
Proof.
  unfold filepath.Join. destruct (String.eqb d "/").
  - exists ("/" +:+ name). now rewrite append_assoc.
  - exists (d +:+ "/" +:+ name). now rewrite !append_assoc.
Qed.

Lemma abs_end (w : World) (name e : string) :
  exists p, os.abs w (name +:+ e) = p +:+ e.
Proof.
  unfold os.abs.
  destruct (name +:+ e) as [|c r] eqn:Hn.
  - rewrite <- Hn. apply join_end.
  - destruct (Ascii.ascii_dec c "/") as [->|Hc].
    + exists name. now rewrite Hn.
    + destruct (join_end (cwd w) name e) as [p Hp]. exists p.
      rewrite <- Hp, Hn.
      destruct c as [[] [] [] [] [] [] [] []]; try reflexivity. now elim Hc.
Qed.

(** The cache file and the transcript are two files. *)
Lemma paths_differ (w : World) : cachePath w <> outputPath w.
Proof.
  unfold cachePath, outputPath.
  destruct (join_end (cwd w) "github-comments-fetcher-in" "puts.txt") as [d Hd].
  change ("github-comments-fetcher-in" +:+ "puts.txt") with inputsFile in Hd.
  rewrite Hd.
  destruct (abs_end w d "puts.txt") as [a ->].
  destruct (abs_end w "comm" "ents.txt") as [b Hb].
  change ("comm" +:+ "ents.txt") with outputFile in Hb. rewrite Hb.
  intros H. apply append_inj_end in H; [discriminate | reflexivity].
Qed.

(** ** What [fmt.Sprintf] gives for the formats of the program *)

Lemma Sprintf_issuePath (owner repo issueNumber : string) :
  fmt.Sprintf "/repos/%s/%s/issues/%s"
    [fmt.str owner; fmt.str repo; fmt.str issueNumber]
  = issuePath owner repo issueNumber.
Proof.
  unfold issuePath. cbv -[String.append]. now rewrite append_nil_r.
Qed.

Lemma Sprintf_commentsURL (owner repo issueNumber : string) :
  fmt.Sprintf "https://api.github.com/repos/%s/%s/issues/%s/comments"
    [fmt.str owner; fmt.str repo; fmt.str issueNumber]
  = commentsURL owner repo issueNumber.
Proof. reflexivity. Qed.

Lemma Sprintf_issueLine (x : Issue) :
  fmt.Sprintf ("Issue Title: %s" +:+ nl +:+ "Issue Body: %s" +:+ nl
               +:+ "Issue Author: %s" +:+ nl +:+ "Created At: %s" +:+ nl
               +:+ "Updated At: %s" +:+ nl +:+ nl)
    [fmt.str (Issue.Title x); fmt.str (Issue.Body x);
     fmt.str (User.Login (Issue.User x));
     fmt.str (time.FormatDateTime (Issue.DateTime x));
     fmt.str (time.FormatDateTime (Issue.UpdatedAt x))]
  = issueHeader x +:+ blank.
Proof.
  unfold issueHeader, line, blank. rewrite !append_assoc. reflexivity.
Qed.

Lemma Sprintf_commentHeader (n : N) (login date : string) :
  fmt.Sprintf "Comment %d by %s at %s" [fmt.int n; fmt.str login; fmt.str date]
  = "Comment " +:+ strconv.Itoa n +:+ " by " +:+ login +:+ " at " +:+ date.
Proof. cbv -[String.append strconv.Itoa]. now rewrite append_nil_r. Qed.

Lemma Sprintf_commentBody (body : string) :
  fmt.Sprintf ("%s" +:+ nl) [fmt.str body] = line body.
Proof. reflexivity. Qed.

(** What one turn of the loop writes after the separator. *)
Lemma commentBlock_written (i : nat) (c : Comment) :
  (fmt.Sprintf "Comment %d by %s at %s"
     [fmt.int (N.of_nat (i + 1)); fmt.str (User.Login (Comment.User c));
      fmt.str (time.FormatDateTime (Comment.DateTime c))] +:+ ":" +:+ nl)
  +:+ fmt.Sprintf ("%s" +:+ nl) [fmt.str (Comment.Body c)]
  = commentBlock (S i) c.
Proof.
  rewrite Sprintf_commentHeader, Sprintf_commentBody.
  unfold commentBlock, line. replace (i + 1)%nat with (S i) by lia.
  now rewrite !append_assoc.
Qed.

(** ** The loop over the comments *)

(** One [file.WriteString] and the check of its error. *)
Lemma write_checked (w : World) (file : os.File) (b format : string) (s : State) :
  let c := write file (String.length (content w file s)) b in
  let m := check (os.WriteString w file b) (fun err => log.Fatalf format err) in
  (exists e, fails w c = Some e /\
     m s = Exited (Fatal format (verror e))
             (mkState (<[os.abs w file := content w file s +:+ os.shortWrite w c b]>
                         (files s))
                      (trace s ++ [c])))
  \/ (fails w c = None /\
      m s = Return tt (mkState (<[os.abs w file := content w file s +:+ b]> (files s))
                               (trace s ++ [c]))).
Proof.
  unfold check, bind, os.WriteString, log.Fatalf, ret, called, content. cbn.
  destruct (fails w _) as [e|] eqn:Hf; [left; exists e | right]; split; reflexivity.
Qed.

Lemma rangeComments_nil (w : World) (file : os.File) (i : nat) (s : State) :
  rangeComments w file i [] s = Return tt s.
Proof. reflexivity. Qed.

Lemma rangeComments_cons (w : World) (file : os.File) (i : nat)
    (c : Comment) (rest : list Comment) :
  rangeComments w file i (c :: rest) =
  bind (if (0 <? i)%nat
        then check (os.WriteString w file nl) (fun err =>
               log.Fatalf "Failed to write space to file: %s" err)
        else ret tt) (fun _ =>
  bind (check (os.WriteString w file
          (fmt.Sprintf "Comment %d by %s at %s"
             [fmt.int (N.of_nat (i + 1)); fmt.str (User.Login (Comment.User c));
              fmt.str (time.FormatDateTime (Comment.DateTime c))] +:+ ":" +:+ nl))
          (fun err => log.Fatalf "Failed to write comment header to file: %s" err))
       (fun _ =>
  bind (check (os.WriteString w file
          (fmt.Sprintf ("%s" +:+ nl) [fmt.str (Comment.Body c)]))
          (fun err => log.Fatalf "Failed to write comment body to file: %s" err))
       (fun _ => rangeComments w file (S i) rest))).
Proof. reflexivity. Qed.

Lemma appends_write (w : World) (file : os.File) (b format text : string)
    (k : unit -> Proc unit) (s : State) :
  In format ["Failed to write space to file: %s";
             "Failed to write comment header to file: %s";
             "Failed to write comment body to file: %s"] ->
  (forall s1, appends w file text s1 (k tt s1)) ->
  appends w file (b +:+ text) s
    (bind (check (os.WriteString w file b) (fun err => log.Fatalf format err)) k s).
Proof.
  intros Hin Hk. unfold bind at 1.
  destruct (write_checked w file b format s) as [(e & _ & ->) | (_ & ->)].
  - split; [|split]; cbn.
    + intros p Hp. now rewrite lookup_insert_ne.
    + eexists [_]. split; [reflexivity | now constructor].
    + now exists format, e.
  - destruct (Hk (mkState (<[os.abs w file := content w file s +:+ b]> (files s))
                   (trace s ++ [write file (String.length (content w file s)) b])))
      as (Hframe & (ws & Htr & Hws) & Hres).
    cbn in *. split; [|split].
    + intros p Hp. rewrite Hframe by exact Hp. now rewrite lookup_insert_ne.
    + eexists (_ :: ws). split; [now rewrite Htr, <- app_assoc | now constructor].
    + destruct (k tt _) as [u s'|x s']; [|exact Hres].
      intros d Hd. rewrite <- append_assoc. apply Hres.
      unfold content. rewrite Hd. cbn. apply lookup_insert_eq.
Qed.

Lemma rangeComments_spec (w : World) (file : os.File) (comments : list Comment) :
  forall i s,
    appends w file (written i comments) s (rangeComments w file i comments s).
Proof.
  induction comments as [|c rest IH]; intros i s.
  - rewrite rangeComments_nil. split; [|split]; cbn.
    + reflexivity.
    + exists []. split; [now rewrite app_nil_r | constructor].
    + intros d Hd. now rewrite append_nil_r.
  - rewrite rangeComments_cons. cbn [written].
    rewrite <- commentBlock_written, !append_assoc.
    assert (Hblock : forall s1,
      appends w file
        (fmt.Sprintf "Comment %d by %s at %s"
           [fmt.int (N.of_nat (i + 1)); fmt.str (User.Login (Comment.User c));
            fmt.str (time.FormatDateTime (Comment.DateTime c))]
         +:+ ":" +:+ nl +:+ fmt.Sprintf ("%s" +:+ nl) [fmt.str (Comment.Body c)]
         +:+ written (S i) rest) s1
        (bind (check (os.WriteString w file
                 (fmt.Sprintf "Comment %d by %s at %s"
                    [fmt.int (N.of_nat (i + 1));
                     fmt.str (User.Login (Comment.User c));
                     fmt.str (time.FormatDateTime (Comment.DateTime c))]
                  +:+ ":" +:+ nl))
                 (fun err => log.Fatalf "Failed to write comment header to file: %s" err))
           (fun _ =>
         bind (check (os.WriteString w file
                 (fmt.Sprintf ("%s" +:+ nl) [fmt.str (Comment.Body c)]))
                 (fun err => log.Fatalf "Failed to write comment body to file: %s" err))
           (fun _ => rangeComments w file (S i) rest)) s1)).
    { intros s1.
      match goal with
      | |- appends _ _ (?h +:+ ":" +:+ nl +:+ ?b +:+ ?t) _ _ =>
        replace (h +:+ ":" +:+ nl +:+ b +:+ t)
          with ((h +:+ ":" +:+ nl) +:+ b +:+ t) by now rewrite !append_assoc
      end.
      apply appends_write; [cbn; auto|]. intros s2.
      apply appends_write; [cbn; auto|]. intros s3. apply IH. }
    destruct (0 <? i)%nat.
    + apply appends_write; [cbn; auto|]. exact Hblock.
    + apply Hblock.
Qed.

(** What the loop writes is the comment blocks with a blank line between
    two of them. *)
Lemma joinBlocks_cons (b : string) (blocks : list string) :
  joinBlocks (b :: blocks) =
  b +:+ match blocks with
        | [] => EmptyString
        | _ => blank +:+ joinBlocks blocks
        end.
Proof. destruct blocks; [now rewrite append_nil_r | reflexivity]. Qed.

Lemma written_succ (comments : list Comment) (i : nat) :
  written (S i) comments =
  match comments with
  | [] => EmptyString
  | _ => blank +:+ joinBlocks (imap (fun j c => commentBlock (S (S i + j)) c) comments)
  end.
Proof.
  revert i. induction comments as [|c rest IH]; intros i; [reflexivity|].
  cbn [written imap]. change (0 <? S i)%nat with true. cbv iota.
  rewrite joinBlocks_cons, IH. rewrite Nat.add_0_r.
  assert (Him : imap ((fun j c0 => commentBlock (S (S i + j)) c0) ∘ S) rest
                = imap (fun j c0 => commentBlock (S (S (S i) + j)) c0) rest).
  { apply imap_ext. intros j x _. cbn. f_equal. lia. }
  rewrite Him. destruct rest; reflexivity.
Qed.

Lemma written_joinBlocks (comments : list Comment) :
  written 0 comments = joinBlocks (commentBlocks comments).
Proof.
  destruct comments as [|c rest]; [reflexivity|].
  unfold commentBlocks. cbn [written imap]. change (0 <? 0)%nat with false.
  cbv iota. rewrite joinBlocks_cons, written_succ.
  change (EmptyString +:+ ?x) with x.
  assert (Him : imap ((fun i c0 => commentBlock (S i) c0) ∘ S) rest
                = imap (fun j c0 => commentBlock (S (1 + j)) c0) rest).
  { apply imap_ext. intros j x _. reflexivity. }
  rewrite Him. destruct rest; reflexivity.
Qed.

(** ** Timestamps *)

Lemma digit_lt (c : ascii) (d : N) : time.digit c = Some d -> (d < 10)%N.
Proof.
  unfold time.digit, isDigit, between. intros H.
  destruct (_ && _) eqn:Hb; [|discriminate]. injection H as <-.
  apply andb_true_iff in Hb as [H1 H2].
  apply N.leb_le in H1, H2. lia.
Qed.

Lemma isDigit_chr (d : N) : (d < 10)%N -> isDigit (chr (48 + d)) = true.
Proof.
  intros H.
  assert (Hd : In d [0; 1; 2; 3; 4; 5; 6; 7; 8; 9]%N).
  { cbn. lia. }
  cbn in Hd. repeat destruct Hd as [<-|Hd]; try reflexivity. destruct Hd.
Qed.

Lemma appendInt_2 (x : N) :
  (x < 100)%N ->
  time.appendInt x 2 = String (chr (48 + x / 10)) (str1 (chr (48 + x mod 10))).
Proof.
  intros H. cbn [time.appendInt].
  assert (H10 : (x / 10 / 10 = 0)%N).
  { rewrite N.Div0.div_div. apply N.div_small. lia. }
  rewrite H10. cbn [N.eqb]. 
  assert (Hm : ((x / 10) mod 10 = x / 10)%N).
  { apply N.mod_small. apply N.Div0.div_lt_upper_bound. lia. }
  rewrite Hm. reflexivity.
Qed.

Lemma appendInt_4 (x : N) :
  (x < 10000)%N ->
  time.appendInt x 4 =
  String (chr (48 + x / 1000))
    (String (chr (48 + (x / 100) mod 10))
       (String (chr (48 + (x / 10) mod 10)) (str1 (chr (48 + x mod 10))))).
Proof.
  intros H. cbn [time.appendInt].
  rewrite !N.Div0.div_div. change (10 * (10 * (10 * 10)))%N with 10000%N.
  change (10 * (10 * 10))%N with 1000%N. change (10 * 10)%N with 100%N.
  rewrite (N.div_small x 10000) by exact H. cbn [N.eqb].
  assert (Hm : ((x / 1000) mod 10 = x / 1000)%N).
  { apply N.mod_small. apply N.Div0.div_lt_upper_bound. lia. }
  rewrite Hm. reflexivity.
Qed.

Lemma FormatDateTime_shape (t : time.Time) :
  valid.Time t -> isDateTime (time.FormatDateTime t) = true.
Proof.
  destruct t as [y m d h n s]. unfold valid.Time. cbn.
  intros (Hy & Hm & Hd & Hh & Hn & Hs). unfold time.FormatDateTime.
  cbn [time.Year time.Month time.Day time.Hour time.Minute time.Second].
  rewrite appendInt_4 by exact Hy.
  rewrite !appendInt_2 by assumption.
  cbv -[chr N.div N.modulo N.add isDigit].
  rewrite !isDigit_chr; try reflexivity;
    try (apply N.mod_lt; discriminate);
    apply N.Div0.div_lt_upper_bound; lia.
Qed.

Lemma getnum_lt (s r : string) (fixed : bool) (n : N) :
  time.getnum s fixed = Some (n, r) -> (n < 100)%N.
Proof.
  unfold time.getnum. destruct s as [|c0 s]; [discriminate|].
  destruct (time.digit c0) as [d0|] eqn:H0; [|discriminate]. cbn.
  apply digit_lt in H0.
  destruct s as [|c1 s].
  - destruct fixed; [discriminate|]. intros [= <- _]. lia.
  - destruct (time.digit c1) as [d1|] eqn:H1.
    + apply digit_lt in H1. intros [= <- _]. lia.
    + destruct fixed; [discriminate|]. intros [= <- _]. lia.
Qed.

Lemma ParseRFC3339_valid (s : string) (t : time.Time) :
  time.ParseRFC3339 s = Some t -> valid.Time t.
Proof.
  unfold time.ParseRFC3339.
  destruct s as [|y0 [|y1 [|y2 [|y3 r]]]]; try discriminate.
  destruct (time.digit y0) as [a|] eqn:Ha; [|discriminate].
  destruct (time.digit y1) as [b|] eqn:Hb; [|discriminate].
  destruct (time.digit y2) as [c|] eqn:Hc; [|discriminate].
  destruct (time.digit y3) as [d|] eqn:Hd; [|discriminate].
  apply digit_lt in Ha, Hb, Hc, Hd. cbn.
  destruct (time.skip "-" r) as [r1|]; [|discriminate]. cbn.
  destruct (time.getnum r1 true) as [[month r2]|] eqn:Hmonth; [|discriminate]. cbn.
  destruct (time.skip "-" r2) as [r3|]; [|discriminate]. cbn.
  destruct (time.getnum r3 true) as [[day r4]|] eqn:Hday; [|discriminate]. cbn.
  destruct (time.skip "T" r4) as [r5|]; [|discriminate]. cbn.
  destruct (time.getnum r5 false) as [[hour r6]|] eqn:Hhour; [|discriminate]. cbn.
  destruct (time.skip ":" r6) as [r7|]; [|discriminate]. cbn.
  destruct (time.getnum r7 true) as [[min r8]|] eqn:Hmin; [|discriminate]. cbn.
  destruct (time.skip ":" r8) as [r9|]; [|discriminate]. cbn.
  destruct (time.getnum r9 true) as [[sec r10]|] eqn:Hsec; [|discriminate]. cbn.
  destruct (time.zone _) as [r11|]; [|discriminate]. cbn.
  destruct (_ && _); [|discriminate]. intros [= <-].
  apply getnum_lt in Hmonth, Hday, Hhour, Hmin, Hsec.
  repeat split; cbn; try assumption. lia.
Qed.

Lemma zero_valid : valid.Time time.zero.
Proof. repeat split; reflexivity. Qed.

Lemma UnmarshalJSON_valid (data : string) (t t' : time.Time) :
  valid.Time t -> time.UnmarshalJSON data t = inl t' -> valid.Time t'.
Proof.
  intros Ht. unfold time.UnmarshalJSON.
  destruct (String.eqb data "null"); [now intros [= <-]|].
  destruct data as [|q0 [|c r]]; try discriminate.
  destruct (_ && _); [|discriminate].
  destruct (time.ParseRFC3339 _) as [t1|] eqn:Hp; [|discriminate].
  intros [= <-]. now apply ParseRFC3339_valid in Hp.
Qed.

(** ** Invariants of the decoders *)

Section DecoderInvariant.
Context {T : Type} (P : T -> Prop).

Lemma keeps_nofield : keeps P json.nofield.
Proof. intros v cur saved cur' saved' H [= <- _]. exact H. Qed.

Lemma keeps_field {A : Type} (get : T -> A) (set : T -> A -> T)
    (dec : json.Decoder A) (Q : A -> Prop) :
  (forall cur, P cur -> Q (get cur)) ->
  (forall cur a, P cur -> Q a -> P (set cur a)) ->
  (forall v a saved a' saved', Q a -> dec v a saved = inl (a', saved') -> Q a') ->
  keeps P (json.field get set dec).
Proof.
  intros Hget Hset Hdec v cur saved cur' saved' Hcur. unfold json.field.
  destruct (dec v (get cur) saved) as [[a sv]|e] eqn:Hd; [|discriminate].
  intros [= <- _]. eauto.
Qed.

Lemma keeps_members (tags : list string) (field : nat -> json.Decoder T)
    (ms : list (string * json.Value)) :
  (forall i, keeps P (field i)) ->
  forall cur saved cur' saved',
    P cur -> json.members tags field ms cur saved = inl (cur', saved') -> P cur'.
Proof.
  intros Hfield. induction ms as [|[k v] ms IH]; intros cur saved cur' saved' Hcur.
  - now intros [= <- _].
  - cbn. destruct (json.fieldIndex tags (json.unquote k)) as [i|]; [|now apply IH].
    destruct (field i v cur saved) as [[c1 s1]|e] eqn:Hf; [|discriminate].
    apply IH. eapply Hfield; eauto.
Qed.

Lemma keeps_intoStruct (name : string) (tags : list string)
    (field : nat -> json.Decoder T) :
  (forall i, keeps P (field i)) -> keeps P (json.intoStruct name tags field).
Proof.
  intros Hfield v cur saved cur' saved' Hcur. unfold json.intoStruct.
  destruct v; try (now intros [= <- _]).
  now apply keeps_members.
Qed.

Lemma elements_Forall (zero : T) (elem : json.Decoder T) (es : list json.Value) :
  P zero -> keeps P elem ->
  forall saved xs saved',
    json.elements zero elem es saved = inl (xs, saved') -> Forall P xs.
Proof.
  intros Hzero Helem. induction es as [|v es IH]; intros saved xs saved'; cbn.
  - intros [= <- _]. constructor.
  - destruct (elem v zero saved) as [[x s1]|e] eqn:Hx; [|discriminate].
    destruct (json.elements zero elem es s1) as [[xs1 s2]|e] eqn:Hxs; [|discriminate].
    intros [= <- _]. constructor; eauto.
Qed.
End DecoderInvariant.

Lemma intoTime_valid (v : json.Value) (t t' : time.Time) (saved saved' : option error) :
  valid.Time t -> intoTime v t saved = inl (t', saved') -> valid.Time t'.
Proof.
  intros Ht. unfold intoTime.
  destruct (time.UnmarshalJSON _ t) as [t1|e] eqn:Hu; [|discriminate].
  intros [= <- _]. eapply UnmarshalJSON_valid; eauto.
Qed.

Lemma intoIssue_valid : keeps valid.Issue intoIssue.
Proof.
  apply keeps_intoStruct. intros [|[|[|[|[|i]]]]]; try apply keeps_nofield.
  - apply keeps_field with (Q := fun _ => True); auto.
  - apply keeps_field with (Q := fun _ => True); auto.
  - apply keeps_field with (Q := fun _ => True); auto.
  - apply keeps_field with (Q := valid.Time).
    + now intros cur [H1 H2].
    + intros cur a [H1 H2] Ha. now split.
    + intros v a saved a' saved'. apply intoTime_valid.
  - apply keeps_field with (Q := valid.Time).
    + now intros cur [H1 H2].
    + intros cur a [H1 H2] Ha. now split.
    + intros v a saved a' saved'. apply intoTime_valid.
Qed.

Lemma intoComment_valid : keeps valid.Comment intoComment.
Proof.
  apply keeps_intoStruct. intros [|[|[|i]]]; try apply keeps_nofield.
  - apply keeps_field with (Q := fun _ => True); auto.
  - apply keeps_field with (Q := fun _ => True); auto.
  - apply keeps_field with (Q := valid.Time); auto.
    intros v a saved a' saved'. apply intoTime_valid.
Qed.

Lemma Unmarshal_Issue_valid (body : string) (x : Issue) :
  json.Unmarshal intoIssue body Issue.zero = inl x -> valid.Issue x.
Proof.
  unfold json.Unmarshal. destruct (json.parse body) as [v|]; [|discriminate].
  destruct (intoIssue v Issue.zero None) as [[x1 [e|]]|e] eqn:Hd; try discriminate.
  intros [= <-]. eapply intoIssue_valid; [|exact Hd].
  split; apply zero_valid.
Qed.

Lemma Unmarshal_Comments_valid (body : string) (comments : list Comment) :
  json.Unmarshal intoComments body [] = inl comments -> Forall valid.Comment comments.
Proof.
  unfold json.Unmarshal. destruct (json.parse body) as [v|]; [|discriminate].
  destruct (intoComments v [] None) as [[xs [e|]]|e] eqn:Hd; try discriminate.
  intros [= <-]. unfold intoComments, json.intoSlice in Hd.
  destruct v; cbn in Hd; try discriminate.
  - injection Hd as <-. constructor.
  - apply (elements_Forall valid.Comment Comment.zero intoComment elems
             zero_valid intoComment_valid None xs None Hd).
Qed.

(** ** Walking through a run

    [run_cases H], for [H : run w = r], follows [main] from its first call
    and splits at every test of the source, in their order; each goal that
    is left is one way through the program, with the results of the tests
    as hypotheses and the result and the final state written out. *)

Arguments http.HeaderSet : simpl never.
Arguments http.SetURLPath : simpl never.

Ltac head_scrutinee t :=
  lazymatch t with
  | match ?x with _ => _ end => head_scrutinee x
  | if ?x then _ else _ => head_scrutinee x
  | let (_, _) := ?x in _ => head_scrutinee x
  | ?f ?a =>
    let x := head_scrutinee f in
    lazymatch x with
    | f => t
    | _ => x
    end
  | _ => t
  end.

Ltac run_step H :=
  lazymatch type of H with
  | ?l = _ =>
    let x := head_scrutinee l in
    lazymatch x with
    | Return _ _ => fail
    | Exited _ _ => fail
    | _ => destruct x eqn:?; cbn in H
    end
  end.

Ltac run_cases H :=
  cbv beta delta [run main getAbsolutePath readInputsFromFile updateInputsInFile
    bind orElse check ret panic log.Fatalf os.Getwd os.Stat os.ReadFile
    os.WriteFile os.Getenv os.Create os.WriteString http.NewRequest
    client.Do io.ReadAll fmt.Println called nonempty] in H;
  cbn in H;
  repeat run_step H;
  repeat match goal with
  | E : rangeComments ?w ?f ?i ?l ?s = _ |- _ =>
    let Hloop := fresh "Hloop" in
    pose proof (rangeComments_spec w f l i s) as Hloop;
    rewrite E in Hloop; clear E
  end.

Lemma requests_app (a b : list Call) : requests (a ++ b) = requests a ++ requests b.
Proof.
  induction a as [|c a IH]; [reflexivity|].
  destruct c; cbn; now rewrite IH.
Qed.

Lemma requests_writes (ws : list Call) : Forall isWrite ws -> requests ws = [].
Proof.
  induction 1 as [|c ws Hc _ IH]; [reflexivity|].
  destruct c; try contradiction. exact IH.
Qed.

(** C6: when the variable that holds the bearer token is absent or empty,
    the run ends early and has sent no request. *)
Theorem missing_token_sends_nothing (w : World) :
  environ w tokenVariable = EmptyString ->
  exists x s, run w = Exited x s /\ requests (trace s) = [].
Proof.
  unfold tokenVariable. intros Htoken.
  destruct (run w) as [[] s|x s] eqn:Hrun.
  all: run_cases Hrun.
  all: try (rewrite Htoken in *; discriminate).
  all: try discriminate Hrun.
  all: injection Hrun as <- <-.
  all: eexists; eexists; split; reflexivity.
Qed.

(** C1 (as the code has it): when there is no cache file, the first request
    goes to the path built from three empty strings, whatever the flags
    are: the branch that creates the cache file leaves [currentOwner],
    [currentRepo] and [currentIssueNumber] unassigned. *)
Theorem fresh_cache_request_ignores_flags (w : World) (req : http.Request) :
  disk w !! cachePath w = None ->
  head (requests (trace (final (run w)))) = Some req ->
  url.Path (http.URL req) = Some "/repos///issues/".
Proof.
  unfold cachePath, inputsFile. intros Hdisk.
  destruct (run w) as [[] s|x s] eqn:Hrun; cbn [final].
  all: run_cases Hrun.
  all: try congruence.
  all: try discriminate Hrun.
  all: inversion Hrun; subst; clear Hrun; cbn; try discriminate.
  all: try (destruct Hloop as (_ & (ws & Htr & _) & _); cbn in Htr; rewrite Htr; cbn).
  all: intros [= <-]; reflexivity.
Qed.

(** The branch for a cache file that is there does send the issue request
    to the path of the resolved owner, repo and issue number. *)
Lemma cached_request_uses_resolved (w : World) (data : string) (cached : Inputs)
    (req : http.Request) :
  disk w !! cachePath w = Some data ->
  json.Unmarshal intoInputs data Inputs.zero = inl cached ->
  head (requests (trace (final (run w)))) = Some req ->
  url.Path (http.URL req) =
    Some (issuePath
            (if nonempty (ownerFlag w) then ownerFlag w else Inputs.Owner cached)
            (if nonempty (repoFlag w) then repoFlag w else Inputs.Repo cached)
            (if nonempty (issueNumberFlag w) then issueNumberFlag w
             else Inputs.IssueNumber cached)).
Proof.
  unfold cachePath, inputsFile. intros Hdisk Hload.
  destruct (run w) as [[] s|x s] eqn:Hrun; cbn [final].
  all: run_cases Hrun.
  all: try congruence.
  all: try discriminate Hrun.
  all: inversion Hrun; subst; clear Hrun; cbn; try discriminate.
  all: try (destruct Hloop as (_ & (ws & Htr & _) & _); cbn in Htr; rewrite Htr; cbn).
  all: match goal with
       | Ht : json.Unmarshal intoInputs _ Inputs.zero = inl ?t |- _ =>
         assert_fails (constr_eq t cached);
         assert (t = cached) by congruence; subst t
       end.
  all: intros [= <-]; unfold http.SetURLPath; cbn [http.URL url.Path].
  all: now rewrite Sprintf_issuePath.
Qed.

(** C3: when the cache file is there and what is loaded from it has an
    empty owner or an empty repo, the run ends early and has sent no
    request, whatever the flags are; when the file could be read, it ends
    in the panic of that check. *)
Theorem empty_cached_owner_or_repo_is_fatal (w : World) (data : string)
    (cached : Inputs) :
  disk w !! cachePath w = Some data ->
  json.Unmarshal intoInputs data Inputs.zero = inl cached ->
  Inputs.Owner cached = EmptyString \/ Inputs.Repo cached = EmptyString ->
  exists x s,
    run w = Exited x s /\ requests (trace s) = [] /\
    (fails w getwd = None ->
     fails w (readFile (filepath.Join (cwd w) inputsFile)) = None ->
     x = Panic (vstring emptyMessage)).
Proof.
  unfold cachePath, inputsFile. intros Hdisk Hload Hempty.
  assert (Htest : String.eqb (Inputs.Owner cached) EmptyString
                  || String.eqb (Inputs.Repo cached) EmptyString = true).
  { destruct Hempty as [-> | ->]; [reflexivity | apply orb_true_r]. }
  destruct (run w) as [[] s|x s] eqn:Hrun.
  all: run_cases Hrun.
  all: try congruence.
  all: try discriminate Hrun.
  all: inversion Hrun; subst; clear Hrun.
  all: eexists; eexists; split; [reflexivity | split; [reflexivity|]].
  all: first [congruence | intros _ _; reflexivity].
Qed.

(** C4: with a cache file that holds a non-empty owner and repo, the cache
    file after the run holds, field by field, the flag when the flag is
    given and what was cached when it is not; so a cache of A, B, 1 and the
    one flag issueNumber=2 leave A, B, 2. *)
Theorem flags_override_cached_fields (w : World) (data : string) (cached : Inputs) :
  disk w !! cachePath w = Some data ->
  json.Unmarshal intoInputs data Inputs.zero = inl cached ->
  Inputs.Owner cached <> EmptyString ->
  Inputs.Repo cached <> EmptyString ->
  fails w getwd = None ->
  fails w (readFile (filepath.Join (cwd w) inputsFile)) = None ->
  (forall text, fails w (writeFile (filepath.Join (cwd w) inputsFile) text) = None) ->
  let pick (flag old : string) := if nonempty flag then flag else old in
  files (final (run w)) !! cachePath w =
    Some (cacheText (Inputs.mk (pick (ownerFlag w) (Inputs.Owner cached))
                               (pick (repoFlag w) (Inputs.Repo cached))
                               (pick (issueNumberFlag w) (Inputs.IssueNumber cached))))
  /\ (forall A B,
        cached = Inputs.mk A B "1" ->
        ownerFlag w = EmptyString -> repoFlag w = EmptyString ->
        issueNumberFlag w = "2" ->
        files (final (run w)) !! cachePath w = Some (cacheText (Inputs.mk A B "2"))).
Proof.
  intros Hdisk Hload Howner Hrepo Hwd Hread Hwrite pick.
  assert (Hmain : files (final (run w)) !! cachePath w =
    Some (cacheText (Inputs.mk (pick (ownerFlag w) (Inputs.Owner cached))
                               (pick (repoFlag w) (Inputs.Repo cached))
                               (pick (issueNumberFlag w) (Inputs.IssueNumber cached))))).
  { pose proof (paths_differ w) as Hne.
    unfold cachePath, outputPath, inputsFile, outputFile in *.
    apply String.eqb_neq in Howner, Hrepo.
    destruct (run w) as [[] s|x s] eqn:Hrun; cbn [final].
    all: run_cases Hrun.
    all: try congruence.
    all: try discriminate Hrun.
    all: match goal with
         | Ht : json.Unmarshal intoInputs _ Inputs.zero = inl ?t |- _ =>
           assert_fails (constr_eq t cached);
           assert (t = cached) by congruence; subst t
         end.
    all: try (rewrite Howner, Hrepo in *; discriminate).
    all: try (rewrite Hwrite in *; discriminate).
    all: inversion Hrun; subst; clear Hrun; cbn [files].
    all: try (destruct Hloop as (Hframe & _); cbn in Hframe;
              rewrite Hframe by exact Hne).
    all: rewrite ?(lookup_insert_ne _ _ _ _ (not_eq_sym Hne)).
    all: rewrite lookup_insert_eq.
    all: reflexivity. }
  split; [exact Hmain|].
  intros A B -> HO HR HI. rewrite Hmain. subst pick. cbn.
  now rewrite HO, HR, HI.
Qed.

(** C5: with no cache file, the cache file after the run is the
    pretty-printed object of the three flags, with the keys owner, repo and
    issueNumber in this order, two spaces of indentation and one member a
    line; nothing requires a flag to be non-empty, and the run does not end
    in the panic that guards the loaded cache. *)
Theorem fresh_cache_holds_flags (w : World) :
  disk w !! cachePath w = None ->
  fails w getwd = None ->
  (forall text, fails w (writeFile (filepath.Join (cwd w) inputsFile) text) = None) ->
  files (final (run w)) !! cachePath w =
    Some (cacheText (Inputs.mk (ownerFlag w) (repoFlag w) (issueNumberFlag w)))
  /\ cacheText (Inputs.mk (ownerFlag w) (repoFlag w) (issueNumberFlag w)) =
       "{" +:+ nl
       +:+ "  " +:+ dq +:+ "owner" +:+ dq +:+ ": "
       +:+ json.appendString (ownerFlag w) +:+ "," +:+ nl
       +:+ "  " +:+ dq +:+ "repo" +:+ dq +:+ ": "
       +:+ json.appendString (repoFlag w) +:+ "," +:+ nl
       +:+ "  " +:+ dq +:+ "issueNumber" +:+ dq +:+ ": "
       +:+ json.appendString (issueNumberFlag w) +:+ nl
       +:+ "}"
  /\ (forall s, run w <> Exited (Panic (vstring emptyMessage)) s).
Proof.
  intros Hdisk Hwd Hwrite.
  pose proof (paths_differ w) as Hne.
  unfold cachePath, outputPath, inputsFile, outputFile in *.
  split; [|split].
  - destruct (run w) as [[] s|x s] eqn:Hrun; cbn [final].
    all: run_cases Hrun.
    all: try congruence.
    all: try discriminate Hrun.
    all: inversion Hrun; subst; clear Hrun; cbn [files].
    all: try (destruct Hloop as (Hframe & _); cbn in Hframe;
              rewrite Hframe by exact Hne).
    all: rewrite ?(lookup_insert_ne _ _ _ _ (not_eq_sym Hne)).
    all: rewrite lookup_insert_eq.
    all: reflexivity.
  - unfold cacheText, json.MarshalIndent, Inputs.fields. cbn [json.marshalFields].
    cbn [Inputs.Owner Inputs.Repo Inputs.IssueNumber].
    rewrite !append_assoc. reflexivity.
  - intros s Hrun. unfold emptyMessage in Hrun.
    run_cases Hrun.
    all: try congruence.
    all: try discriminate Hrun.
    inversion Hrun; subst.
    destruct Hloop as (_ & _ & (format & e & Hx & _)). discriminate Hx.
Qed.

(** C10: a run that reads the token variable has written the cache file
    just before, with the flags (no cache file) or with the cached fields
    overridden by the flags that are given, and the cache file still holds
    that text when the run ends; a run that ends in the panic for the
    missing token is such a run. *)
Theorem cache_written_before_token_is_read (w : World) :
  (forall s, run w = Exited (Panic (vstring tokenMessage)) s ->
     In (getenv tokenVariable) (trace s))
  /\ (In (getenv tokenVariable) (trace (final (run w))) ->
      exists merged pre post,
        trace (final (run w)) =
          pre ++ writeFile (filepath.Join (cwd w) inputsFile) (cacheText merged)
              :: getenv tokenVariable :: post
        /\ ~ In (getenv tokenVariable) pre
        /\ files (final (run w)) !! cachePath w = Some (cacheText merged)
        /\ match disk w !! cachePath w with
           | None => merged = Inputs.mk (ownerFlag w) (repoFlag w) (issueNumberFlag w)
           | Some data =>
             exists cached,
               json.Unmarshal intoInputs data Inputs.zero = inl cached /\
               merged = Inputs.mk
                 (if nonempty (ownerFlag w) then ownerFlag w else Inputs.Owner cached)
                 (if nonempty (repoFlag w) then repoFlag w else Inputs.Repo cached)
                 (if nonempty (issueNumberFlag w) then issueNumberFlag w
                  else Inputs.IssueNumber cached)
           end).
Proof.
  pose proof (paths_differ w) as Hne.
  unfold cachePath, outputPath, inputsFile, outputFile, tokenVariable,
    tokenMessage, cacheText in *.
  split.
  - intros s Hrun.
    run_cases Hrun.
    all: try discriminate Hrun.
    all: inversion Hrun; subst; clear Hrun.
    all: try (destruct Hloop as (_ & _ & (format & e' & Hx & _)); discriminate Hx).
    all: cbn; tauto.
  - destruct (run w) as [[] s|x s] eqn:Hrun; cbn [final].
    all: run_cases Hrun.
    all: try discriminate Hrun.
    all: inversion Hrun; subst; clear Hrun.
    all: try (intros Hin; cbn in Hin; exfalso; intuition discriminate).
    all: intros _.
    all: cbn [trace files].
    all: try (destruct Hloop as (Hframe & (ws & Htr & _) & _);
              cbn in Hframe, Htr; rewrite Htr, (Hframe _ Hne); clear Htr Hframe).
    all: cbn [app].
    all: lazymatch goal with
         | |- exists _ _ _, (getwd :: stat ?p :: writeFile _ _ :: _) = _ /\ _ =>
           eexists _, [getwd; stat p], _
         | |- exists _ _ _, (getwd :: stat ?p :: readFile ?q :: _) = _ /\ _ =>
           eexists _, [getwd; stat p; readFile q], _
         end.
    all: split; [cbn; reflexivity|].
    all: split; [cbn; intuition discriminate|].
    all: rewrite ?(lookup_insert_ne _ _ _ _ (not_eq_sym Hne)).
    all: split; [apply lookup_insert_eq|].
    all: repeat match goal with
         | H : Some _ = Some _ |- _ => injection H as H; subst
         end.
    all: try reflexivity.
    all: eexists; split; [eassumption | reflexivity].
Qed.

Lemma writes_no_request (ws : list Call) (req : http.Request) :
  Forall isWrite ws -> ~ In (roundTrip req) ws.
Proof.
  intros Hws Hin. rewrite List.Forall_forall in Hws. exact (Hws _ Hin).
Qed.

(** Splits a hypothesis that a call is in a trace written out. *)
Ltac in_trace H :=
  cbn in H;
  repeat match type of H with
  | In _ (_ ++ _) => apply in_app_or in H
  | In _ (_ :: _) => progress cbn in H
  | In _ [] => destruct H
  | _ \/ _ => destruct H as [H|H]
  | False => destruct H
  | roundTrip _ = roundTrip _ => injection H as H
  | _ = _ => discriminate H
  end.

(** C7 (amended): for either request, once the response and its body have been
    read, the run ends in the fatal message that carries the status text
    exactly when the status is not 200; and when that happens for the issue
    request, the output file is as it was and has not been created. *)
Theorem status_200_is_success (w : World) (req : http.Request)
    (resp : http.Response) (body : string) :
  In (roundTrip req) (trace (final (run w))) ->
  server w req = inl resp ->
  http.Body resp = inl body ->
  (http.StatusCode resp <> http.StatusOK <->
   exists s, run w = Exited (Fatal (statusFormat req) (vstring (http.Status resp))) s)
  /\ (http.StatusCode resp <> http.StatusOK ->
      is_Some (url.Path (http.URL req)) ->
      files (final (run w)) !! outputPath w = disk w !! outputPath w
      /\ ~ In (create outputFile) (trace (final (run w)))).
Proof.
  pose proof (paths_differ w) as Hne.
  unfold cachePath, outputPath, inputsFile, outputFile in *.
  intros Hin Hserver Hbody.
  destruct (run w) as [[] s|x s] eqn:Hrun; cbn [final] in *.
  all: run_cases Hrun.
  all: try discriminate Hrun.
  all: inversion Hrun; subst; clear Hrun.
  all: cbn [trace files] in *.
  all: try (destruct Hloop as (_ & (ws & Htr & Hws) & Hexit);
            cbn in Htr; rewrite Htr in *; clear Htr).
  all: in_trace Hin.
  all: try (exfalso; eapply writes_no_request; eassumption).
  all: try subst req.
  all: repeat match goal with
       | H1 : server ?w ?r = inl ?a, H2 : server ?w ?r = inl ?b |- _ =>
         assert (a = b) by congruence; subst a; clear H2
       | H1 : server ?w ?r = inl _, H2 : server ?w ?r = inr _ |- _ =>
         congruence
       | H1 : http.Body ?r = inl _, H2 : http.Body ?r = inr _ |- _ =>
         congruence
       | H : negb (_ =? _)%N = true |- _ =>
         apply negb_true_iff, N.eqb_neq in H
       | H : negb (_ =? _)%N = false |- _ =>
         apply negb_false_iff, N.eqb_eq in H
       end.
  all: try match goal with
       | H : writeFailure _ |- _ => destruct H as (f & e' & -> & _)
       end.
  all: unfold statusFormat, http.SetURLPath, http.HeaderSet in *; cbn.
  all: split;
    [ split;
      [ intros Hst; first [congruence | eexists; reflexivity]
      | intros [s' Heq]; first [discriminate Heq | congruence] ]
    | intros Hst Hsome;
      first
        [ congruence
        | destruct Hsome as [p Hsome]; discriminate Hsome
        | split;
          [ rewrite ?(lookup_insert_ne _ _ _ _ Hne); reflexivity
          | cbn; intuition discriminate ] ] ].
Qed.

(** A member whose key names no field of the struct is skipped. *)
Lemma members_skip {T : Type} (tags : list string) (field : nat -> json.Decoder T)
    (pre post : list (string * json.Value)) (k : string) (v : json.Value)
    (cur : T) (saved : option error) :
  json.fieldIndex tags (json.unquote k) = None ->
  json.members tags field (pre ++ (k, v) :: post) cur saved
  = json.members tags field (pre ++ post) cur saved.
Proof.
  intros Hk. revert cur saved.
  induction pre as [|[k0 v0] pre IH]; intros cur saved; cbn.
  - now rewrite Hk.
  - destruct (json.fieldIndex tags (json.unquote k0)) as [i|]; [|apply IH].
    destruct (field i v0 cur saved) as [[c1 s1]|e]; [apply IH | reflexivity].
Qed.

Lemma Unmarshal_malformed {T : Type} (dec : json.Decoder T) (data : string) (zero : T) :
  json.parse data = None -> json.Unmarshal dec data zero = inr SyntaxError.
Proof. unfold json.Unmarshal. now intros ->. Qed.

(** C9: in an issue, in a comment and in the user of either, a member
    whose key names none of the fields of the record (keys match field
    names up to case, as [encoding/json] matches them) changes nothing of
    what is decoded, whatever its value; and a run that has read a response
    body that is no JSON text ends early, in the fatal message of the
    decoder when the status was 200. *)
Theorem unknown_fields_ignored_malformed_fatal :
  (forall pre k v post cur saved,
     json.fieldIndex ["title"; "body"; "user"; "created_at"; "updated_at"]
       (json.unquote k) = None ->
     intoIssue (json.Object (pre ++ (k, v) :: post)) cur saved
     = intoIssue (json.Object (pre ++ post)) cur saved)
  /\ (forall pre k v post cur saved,
        json.fieldIndex ["body"; "user"; "created_at"] (json.unquote k) = None ->
        intoComment (json.Object (pre ++ (k, v) :: post)) cur saved
        = intoComment (json.Object (pre ++ post)) cur saved)
  /\ (forall pre k v post cur saved,
        json.fieldIndex ["login"] (json.unquote k) = None ->
        intoUser (json.Object (pre ++ (k, v) :: post)) cur saved
        = intoUser (json.Object (pre ++ post)) cur saved)
  /\ (forall w req resp body,
        In (roundTrip req) (trace (final (run w))) ->
        server w req = inl resp ->
        http.Body resp = inl body ->
        json.parse body = None ->
        exists x s,
          run w = Exited x s /\
          (http.StatusCode resp = http.StatusOK ->
           x = Fatal (parseFormat req) (verror SyntaxError))).
Proof.
  split; [|split; [|split]].
  - intros. unfold intoIssue, json.intoStruct. now apply members_skip.
  - intros. unfold intoComment, json.intoStruct. now apply members_skip.
  - intros. unfold intoUser, json.intoStruct. now apply members_skip.
  - intros w req resp body Hin Hserver Hbody Hparse.
    pose proof (Unmarshal_malformed intoIssue body Issue.zero Hparse) as HI.
    pose proof (Unmarshal_malformed intoComments body [] Hparse) as HC.
    destruct (run w) as [[] s|x s] eqn:Hrun; cbn [final] in *.
    all: run_cases Hrun.
    all: try discriminate Hrun.
    all: inversion Hrun; subst; clear Hrun.
    all: cbn [trace files] in *.
    all: try (destruct Hloop as (_ & (ws & Htr & Hws) & Hexit);
              cbn in Htr; rewrite Htr in *; clear Htr).
    all: in_trace Hin.
    all: try (exfalso; eapply writes_no_request; eassumption).
    all: try subst req.
    all: repeat match goal with
         | H1 : server ?w ?r = inl ?a, H2 : server ?w ?r = inl ?b |- _ =>
           assert (a = b) by congruence; subst a; clear H2
         | H1 : http.Body ?r = inl ?a, H2 : http.Body ?r = inl ?b |- _ =>
           assert (a = b) by congruence; subst a; clear H2
         | H1 : server ?w ?r = inl _, H2 : server ?w ?r = inr _ |- _ =>
           congruence
         | H1 : http.Body ?r = inl _, H2 : http.Body ?r = inr _ |- _ =>
           congruence
         | H : negb (_ =? _)%N = true |- _ =>
           apply negb_true_iff, N.eqb_neq in H
         | H : negb (_ =? _)%N = false |- _ =>
           apply negb_false_iff, N.eqb_eq in H
         end.
    all: try congruence.
    all: unfold parseFormat, http.SetURLPath, http.HeaderSet in *; cbn.
    all: eexists; eexists; split; [reflexivity|].
    all: intros Hst; congruence.
Qed.

(** ** The text of the transcript *)

Lemma succNumeral_succ (d : Decimal.uint) :
  list_ascii_of_string (NilEmpty.string_of_uint (Decimal.Little.succ d))
  = succNumeral (list_ascii_of_string (NilEmpty.string_of_uint d)).
Proof.
  induction d; cbn; try reflexivity. now rewrite IHd.
Qed.

Lemma string_of_revapp (d acc : Decimal.uint) :
  NilEmpty.string_of_uint (Decimal.revapp d acc)
  = rev_string (list_ascii_of_string (NilEmpty.string_of_uint d))
      (NilEmpty.string_of_uint acc).
Proof.
  revert acc. induction d; intros acc; cbn; try reflexivity; now rewrite IHd.
Qed.

Lemma numeralDigits_to_lu (n : nat) :
  list_ascii_of_string
    (NilEmpty.string_of_uint (DecimalPos.Unsigned.to_lu (N.of_nat n)))
  = numeralDigits n.
Proof.
  induction n as [|n IH]; [reflexivity|].
  rewrite Nat2N.inj_succ, DecimalPos.Unsigned.to_lu_succ, succNumeral_succ, IH.
  reflexivity.
Qed.

(** The numeral is what [strconv.Itoa] prints. *)
Lemma numeral_Itoa (n : nat) : strconv.Itoa (N.of_nat n) = numeral n.
Proof.
  unfold strconv.Itoa, numeral. rewrite <- numeralDigits_to_lu.
  replace (N.to_uint (N.of_nat n))
    with (Decimal.rev (DecimalPos.Unsigned.to_lu (N.of_nat n)))
    by (now destruct (N.of_nat n)).
  unfold Decimal.rev. now rewrite string_of_revapp.
Qed.

Lemma digitOf_chr (d : N) : (d < 10)%N -> chr (48 + d) = digitOf d.
Proof.
  intros H.
  assert (Hd : In d [0; 1; 2; 3; 4; 5; 6; 7; 8; 9]%N) by (cbn; lia).
  cbn in Hd. repeat destruct Hd as [<-|Hd]; try reflexivity. destruct Hd.
Qed.

Lemma twoDigits_appendInt (n : N) :
  (n < 100)%N -> time.appendInt n 2 = twoDigits n.
Proof.
  intros H. rewrite appendInt_2 by exact H. unfold twoDigits.
  rewrite !digitOf_chr; [reflexivity | now apply N.mod_lt |].
  apply N.Div0.div_lt_upper_bound. lia.
Qed.

Lemma fourDigits_appendInt (n : N) :
  (n < 10000)%N -> time.appendInt n 4 = fourDigits n.
Proof.
  intros H. rewrite appendInt_4 by exact H. unfold fourDigits, twoDigits.
  assert (E1 : (n / 100 / 10 = n / 1000)%N) by now rewrite N.Div0.div_div.
  assert (E2 : (n mod 100 = 10 * ((n / 10) mod 10) + n mod 10)%N).
  { change 100%N with (10 * 10)%N. rewrite N.Div0.mod_mul_r. lia. }
  assert (L1 : (n mod 10 < 10)%N) by now apply N.mod_lt.
  assert (L2 : ((n / 10) mod 10 < 10)%N) by now apply N.mod_lt.
  assert (E3 : (n mod 100 / 10 = (n / 10) mod 10)%N).
  { symmetry. apply (N.div_unique _ _ _ (n mod 10)); [exact L1 | exact E2]. }
  assert (E4 : ((n mod 100) mod 10 = n mod 10)%N).
  { symmetry. apply (N.mod_unique _ _ ((n / 10) mod 10)); [exact L1 | exact E2]. }
  rewrite E1, E3, E4.
  rewrite !digitOf_chr; try reflexivity; try assumption.
  - now apply N.mod_lt.
  - apply N.Div0.div_lt_upper_bound. lia.
Qed.

(** The stamp is what [Format] prints of a date that was decoded. *)
Lemma stamp_Format (t : time.Time) :
  valid.Time t -> time.FormatDateTime t = stamp t.
Proof.
  destruct t as [y m d h n s]. unfold valid.Time. cbn.
  intros (Hy & Hm & Hd & Hh & Hn & Hs). unfold time.FormatDateTime, stamp.
  cbn [time.Year time.Month time.Day time.Hour time.Minute time.Second].
  rewrite fourDigits_appendInt by exact Hy.
  now rewrite !twoDigits_appendInt by assumption.
Qed.

Lemma headerText_issueHeader (x : Issue) :
  valid.Issue x -> issueHeader x = headerText x.
Proof.
  intros [Hc Hu]. unfold issueHeader, headerText, line.
  rewrite (stamp_Format _ Hc), (stamp_Format _ Hu).
  now rewrite !append_assoc.
Qed.

Lemma blockText_commentBlock (number : nat) (c : Comment) :
  valid.Comment c -> commentBlock number c = blockText number c.
Proof.
  intros Hc. unfold commentBlock, blockText, line.
  rewrite (stamp_Format _ Hc), numeral_Itoa.
  now rewrite !append_assoc.
Qed.

Lemma blockTexts_commentBlocks (comments : list Comment) :
  Forall valid.Comment comments -> commentBlocks comments = blockTexts comments.
Proof.
  intros Hcs. unfold commentBlocks, blockTexts.
  apply imap_ext. intros i c Hic. apply blockText_commentBlock.
  eapply Forall_lookup_1; eassumption.
Qed.

Lemma transcriptText_transcript (x : Issue) (comments : list Comment) :
  valid.Issue x -> Forall valid.Comment comments ->
  transcript x comments = transcriptText x comments.
Proof.
  intros Hx Hcs. unfold transcript, transcriptText, blank.
  now rewrite (headerText_issueHeader x Hx), (blockTexts_commentBlocks _ Hcs).
Qed.

(** C8: after a run that ends well, with the issue and the comments
    decoded from the bodies of the two responses, the output file holds
    the text of the transcript whatever it held before: the five lines of
    the issue header block, a blank line, then for each comment, in the
    order of the response, the line [Comment i by author at date:] with
    the decimal numeral of its rank from 1 and the line of its body, with
    one blank line between two blocks and none before the first; every date
    is written YYYY-MM-DD HH:MM:SS, digit by digit. *)
Theorem transcript_of_successful_run (w : World) (s : State) :
  run w = Return tt s ->
  exists reqI reqC respI respC bodyI bodyC issue comments,
    requests (trace s) = [reqI; reqC]
    /\ server w reqI = inl respI /\ http.Body respI = inl bodyI
    /\ json.Unmarshal intoIssue bodyI Issue.zero = inl issue
    /\ server w reqC = inl respC /\ http.Body respC = inl bodyC
    /\ json.Unmarshal intoComments bodyC [] = inl comments
    /\ files s !! outputPath w = Some (transcriptText issue comments)
    /\ isDateTime (time.FormatDateTime (Issue.DateTime issue)) = true
    /\ isDateTime (time.FormatDateTime (Issue.UpdatedAt issue)) = true
    /\ Forall (fun c => isDateTime (time.FormatDateTime (Comment.DateTime c)) = true)
         comments.
Proof.
  unfold outputPath, outputFile. intros Hrun.
  run_cases Hrun.
  all: try discriminate Hrun.
  all: inversion Hrun; subst; clear Hrun.
  all: cbn [trace files] in *.
  all: destruct Hloop as (_ & (ws & Htr & Hws) & Hfile).
  all: cbn [final trace] in Htr.
  all: match goal with
       | HI : json.Unmarshal intoIssue _ _ = inl ?x,
         HC : json.Unmarshal intoComments _ _ = inl ?l |- _ =>
         pose proof (Unmarshal_Issue_valid _ _ HI) as [Hcreated Hupdated];
         pose proof (Unmarshal_Comments_valid _ _ HC) as Hcomments
       end.
  all: do 8 eexists.
  all: split; [rewrite requests_app, Htr, requests_app, (requests_writes ws Hws);
               cbn; reflexivity|].
  all: repeat (split; [eassumption|]).
  all: split; [|split; [|split]].
  all: try (now apply FormatDateTime_shape).
  all: try (eapply Forall_impl; [exact Hcomments|]; intros c Hc;
            now apply FormatDateTime_shape).
  all: erewrite Hfile by apply lookup_insert_eq.
  all: rewrite lookup_insert_eq; cbn [default].
  all: change (EmptyString +:+ ?x) with x.
  all: rewrite Sprintf_issueLine, written_joinBlocks.
  all: rewrite <- (transcriptText_transcript _ _ (conj Hcreated Hupdated) Hcomments).
  all: unfold transcript; now rewrite !append_assoc.
Qed.

(** ** Partial output *)

(** C2 (counterexample): the comments are not found; the run ends in the
    fatal message of the status check and leaves an output file, which was
    not there before, with the issue header block alone: a proper prefix of
    the transcript with the comments. *)
Lemma comments_failure_leaves_issue_only :
  run worldComments404 =
    Exited (Fatal "Comments request failed with status: %s" (vstring "404 Not Found"))
           (final (run worldComments404))
  /\ disk worldComments404 !! outputPath worldComments404 = None
  /\ files (final (run worldComments404)) !! outputPath worldComments404
     = Some (issueHeader issueT +:+ blank)
  /\ partialOutput worldComments404 (final (run worldComments404))
  /\ ~ noPartialOutput worldComments404.
Proof.
  assert (Hrun : run worldComments404 =
    Exited (Fatal "Comments request failed with status: %s" (vstring "404 Not Found"))
           (final (run worldComments404))) by (vm_compute; reflexivity).
  assert (Hout : files (final (run worldComments404)) !! outputPath worldComments404
                 = Some (issueHeader issueT +:+ blank)) by (vm_compute; reflexivity).
  assert (Hpartial : partialOutput worldComments404 (final (run worldComments404))).
  { exists issueT, commentsT, (issueHeader issueT +:+ blank).
    split; [exact Hout|]. split; [rewrite Hout; vm_compute; discriminate|].
    exists (joinBlocks (commentBlocks commentsT)).
    split; [vm_compute; discriminate | vm_compute; reflexivity]. }
  split; [exact Hrun|]. split; [vm_compute; reflexivity|].
  split; [exact Hout|]. split; [exact Hpartial|].
  intros Hno. exact (Hno _ _ Hrun Hpartial).
Qed.

(** C2 (amended): a run that ends before the output file is created
    leaves the output file as it was; a run that ends on the comments
    request, on its status or on the decoding of the comments leaves in the
    output file the issue header block and its blank line, and nothing
    else. *)
Theorem early_exit_output (w : World) (x : Exit) (s : State) :
  run w = Exited x s ->
  (beforeOutput x -> files s !! outputPath w = disk w !! outputPath w)
  /\ (commentsFetchFailure x ->
      exists reqI respI bodyI issue,
        head (requests (trace s)) = Some reqI
        /\ server w reqI = inl respI /\ http.Body respI = inl bodyI
        /\ json.Unmarshal intoIssue bodyI Issue.zero = inl issue
        /\ files s !! outputPath w = Some (issueHeader issue +:+ blank)).
Proof.
  pose proof (paths_differ w) as Hne.
  unfold cachePath, outputPath, inputsFile, outputFile in *.
  intros Hrun.
  run_cases Hrun.
  all: try discriminate Hrun.
  all: inversion Hrun; subst; clear Hrun.
  all: try (destruct Hloop as (_ & _ & (f & e' & -> & Hf));
            cbn in Hf; split; intros Hx; cbn in Hx; exfalso;
            intuition (subst; discriminate)).
  all: cbn [trace files].
  all: split; intros Hx; cbn in Hx.
  all: try (exfalso; intuition discriminate).
  all: try (destruct (short w _)).
  all: try (rewrite ?(lookup_insert_ne _ _ _ _ Hne); reflexivity).
  all: do 4 eexists.
  all: split; [cbn; reflexivity|].
  all: repeat (split; [eassumption|]).
  all: rewrite !lookup_insert_eq; cbn [default].
  all: change (EmptyString +:+ ?y) with y.
  all: now rewrite Sprintf_issueLine.
Qed.

(** ** The theorems at the example environments *)

Ltac in_list := repeat first [left; reflexivity | right].

(** C1 at the flags A, B, 3 with no cache file: the request goes to
    /repos///issues/, not to /repos/A/B/issues/3. *)
Lemma fresh_cache_request_ignores_flags_witness :
  disk worldFresh !! cachePath worldFresh = None
  /\ head (requests (trace (final (run worldFresh))))
     = Some (issueRequest "tok" EmptyString EmptyString EmptyString)
  /\ url.Path (http.URL (issueRequest "tok" EmptyString EmptyString EmptyString))
     = Some "/repos///issues/"
  /\ Some "/repos///issues/"
     <> Some (issuePath (ownerFlag worldFresh) (repoFlag worldFresh)
                (issueNumberFlag worldFresh)).
Proof.
  split; [vm_compute; reflexivity|].
  split; [vm_compute; reflexivity|].
  split; [|vm_compute; discriminate].
  apply (fresh_cache_request_ignores_flags worldFresh); vm_compute; reflexivity.
Defined.

(** C3 at a cache file with an empty owner, with the owner and repo flags
    given. *)
Lemma empty_cached_owner_or_repo_is_fatal_witness :
  nonempty (ownerFlag worldEmptyOwner) = true
  /\ nonempty (repoFlag worldEmptyOwner) = true
  /\ exists x s,
       run worldEmptyOwner = Exited x s /\ requests (trace s) = [] /\
       (fails worldEmptyOwner getwd = None ->
        fails worldEmptyOwner
          (readFile (filepath.Join (cwd worldEmptyOwner) inputsFile)) = None ->
        x = Panic (vstring emptyMessage)).
Proof.
  split; [reflexivity|]. split; [reflexivity|].
  apply (empty_cached_owner_or_repo_is_fatal worldEmptyOwner
           (quoted "{'owner':'','repo':'B','issueNumber':'1'}")
           (Inputs.mk EmptyString "B" "1")).
  - vm_compute; reflexivity.
  - vm_compute; reflexivity.
  - left; reflexivity.
Defined.

(** C4 at the cache A, B, 1 and the one flag issueNumber=2; what is
    written reads back as A, B, 2. *)
Lemma flags_override_cached_fields_witness :
  files (final (run worldCached)) !! cachePath worldCached
  = Some (cacheText (Inputs.mk "A" "B" "2"))
  /\ json.Unmarshal intoInputs (cacheText (Inputs.mk "A" "B" "2")) Inputs.zero
     = inl (Inputs.mk "A" "B" "2").
Proof.
  split; [|vm_compute; reflexivity].
  refine (proj2 (flags_override_cached_fields worldCached
                   (quoted "{'owner':'A','repo':'B','issueNumber':'1'}")
                   (Inputs.mk "A" "B" "1") _ _ _ _ _ _ _) "A" "B" _ _ _ _).
  all: try (vm_compute; reflexivity).
  all: vm_compute; discriminate.
Defined.

(** C5 at the flags A, B, 3 with no cache file; what is written reads
    back as A, B, 3. *)
Lemma fresh_cache_holds_flags_witness :
  files (final (run worldFresh)) !! cachePath worldFresh
  = Some (cacheText (Inputs.mk "A" "B" "3"))
  /\ json.Unmarshal intoInputs (cacheText (Inputs.mk "A" "B" "3")) Inputs.zero
     = inl (Inputs.mk "A" "B" "3").
Proof.
  split; [|vm_compute; reflexivity].
  refine (proj1 (fresh_cache_holds_flags worldFresh _ _ _)).
  - vm_compute; reflexivity.
  - reflexivity.
  - intros text; reflexivity.
Defined.

(** C6 at an environment without the token. *)
Lemma missing_token_sends_nothing_witness :
  environ worldNoToken tokenVariable = EmptyString
  /\ exists x s, run worldNoToken = Exited x s /\ requests (trace s) = [].
Proof.
  split; [reflexivity|].
  apply (missing_token_sends_nothing worldNoToken). reflexivity.
Defined.

(** C7 at an issue that is not found. *)
Lemma status_200_is_success_witness :
  exists s,
    run worldIssue404
    = Exited (Fatal "Request failed with status: %s" (vstring "404 Not Found")) s.
Proof.
  refine (proj1 (proj1 (status_200_is_success worldIssue404
                          (issueRequest "tok" "A" "B" "1")
                          (http.mkResponse 404 "404 Not Found"
                             (inl (quoted "{'message':'Not Found'}")))
                          (quoted "{'message':'Not Found'}") _ _ _)) _).
  - vm_compute. in_list.
  - vm_compute; reflexivity.
  - reflexivity.
  - vm_compute; discriminate.
Defined.

(** C7 (counterexample): the issue is not found and the body of the
    response cannot be read; the run ends in the fatal message of the read,
    which comes before the check of the status, and the status text is not
    shown. *)
Lemma unread_body_hides_the_status :
  run worldUnreadable
  = Exited (Fatal "Failed to read response body: %s"
              (verror (Errno "unexpected EOF")))
           (final (run worldUnreadable))
  /\ In (roundTrip (issueRequest "tok" "A" "B" "1"))
        (trace (final (run worldUnreadable)))
  /\ server worldUnreadable (issueRequest "tok" "A" "B" "1") = inl unreadable
  /\ http.StatusCode unreadable <> http.StatusOK
  /\ ~ statusDecides worldUnreadable.
Proof.
  assert (Hrun : run worldUnreadable
                 = Exited (Fatal "Failed to read response body: %s"
                             (verror (Errno "unexpected EOF")))
                          (final (run worldUnreadable)))
    by (vm_compute; reflexivity).
  assert (Hin : In (roundTrip (issueRequest "tok" "A" "B" "1"))
                   (trace (final (run worldUnreadable))))
    by (vm_compute; in_list).
  assert (Hserver : server worldUnreadable (issueRequest "tok" "A" "B" "1")
                    = inl unreadable) by (vm_compute; reflexivity).
  assert (Hstatus : http.StatusCode unreadable <> http.StatusOK)
    by (vm_compute; discriminate).
  split; [exact Hrun|]. split; [exact Hin|]. split; [exact Hserver|].
  split; [exact Hstatus|].
  intros Hclaim. destruct (Hclaim _ _ Hin Hserver Hstatus) as [s Hs].
  rewrite Hrun in Hs. discriminate Hs.
Qed.

(** C8 at a run that ends well, with an issue and two comments: the text
    of the transcript, and the output file, which holds it. *)
Lemma transcript_of_successful_run_witness :
  run worldCached = Return tt (final (run worldCached))
  /\ transcriptText issueT commentsT
     = "Issue Title: T" +:+ nl +:+ "Issue Body: B" +:+ nl
       +:+ "Issue Author: u" +:+ nl
       +:+ "Created At: 2020-01-02 03:04:05" +:+ nl
       +:+ "Updated At: 2021-01-02 03:04:05" +:+ nl
       +:+ nl
       +:+ "Comment 1 by v at 2020-01-03 03:04:05:" +:+ nl +:+ "hi" +:+ nl
       +:+ nl
       +:+ "Comment 2 by w at 2020-01-04 03:04:05:" +:+ nl +:+ "yo" +:+ nl
  /\ files (final (run worldCached)) !! outputPath worldCached
     = Some (transcriptText issueT commentsT).
Proof.
  assert (Hrun : run worldCached = Return tt (final (run worldCached)))
    by (vm_compute; reflexivity).
  split; [exact Hrun|]. split; [vm_compute; reflexivity|].
  destruct (transcript_of_successful_run worldCached _ Hrun)
    as (reqI & reqC & respI & respC & bodyI & bodyC & issue & comments
        & Hreqs & HrespI & HbodyI & Hissue & HrespC & HbodyC & Hcomments
        & Hfile & _).
  vm_compute in Hreqs. injection Hreqs as <- <-.
  vm_compute in HrespI. injection HrespI as <-.
  vm_compute in HrespC. injection HrespC as <-.
  injection HbodyI as <-. injection HbodyC as <-.
  assert (Hi : issue = issueT).
  { vm_compute in Hissue. now injection Hissue as <-. }
  assert (Hc : comments = commentsT).
  { vm_compute in Hcomments. now injection Hcomments as <-. }
  rewrite Hi, Hc in Hfile. exact Hfile.
Defined.

(** C9 at an issue with a member [labels], and at a comments body that
    breaks off. *)
Lemma unknown_fields_ignored_malformed_fatal_witness :
  intoIssue (json.Object [("title", json.Str "T"); ("labels", json.Array []);
                          ("body", json.Str "B")]) Issue.zero None
  = intoIssue (json.Object [("title", json.Str "T"); ("body", json.Str "B")])
      Issue.zero None
  /\ exists x s,
       run worldBadJSON = Exited x s /\
       (http.StatusCode (http.mkResponse 200 "200 OK" (inl (quoted "[{'body':'hi'")))
        = http.StatusOK ->
        x = Fatal (parseFormat (commentsRequest "tok" "A" "B" "1")) (verror SyntaxError)).
Proof.
  split.
  - apply (proj1 unknown_fields_ignored_malformed_fatal
             [("title", json.Str "T")] "labels" (json.Array [])
             [("body", json.Str "B")] Issue.zero None).
    vm_compute; reflexivity.
  - apply (proj2 (proj2 (proj2 unknown_fields_ignored_malformed_fatal))
             worldBadJSON (commentsRequest "tok" "A" "B" "1")
             (http.mkResponse 200 "200 OK" (inl (quoted "[{'body':'hi'")))
             (quoted "[{'body':'hi'")).
    + vm_compute. in_list.
    + vm_compute; reflexivity.
    + reflexivity.
    + vm_compute; reflexivity.
Defined.

(** C10 at an environment without the token and without a cache file. *)
Lemma cache_written_before_token_is_read_witness :
  run worldNoToken = Exited (Panic (vstring tokenMessage)) (final (run worldNoToken))
  /\ files (final (run worldNoToken)) !! cachePath worldNoToken
     = Some (cacheText (Inputs.mk "A" "B" "3"))
  /\ exists merged pre post,
       trace (final (run worldNoToken)) =
         pre ++ writeFile (filepath.Join (cwd worldNoToken) inputsFile)
                  (cacheText merged)
             :: getenv tokenVariable :: post
       /\ ~ In (getenv tokenVariable) pre
       /\ files (final (run worldNoToken)) !! cachePath worldNoToken
          = Some (cacheText merged)
       /\ match disk worldNoToken !! cachePath worldNoToken with
          | None => merged = Inputs.mk (ownerFlag worldNoToken)
                               (repoFlag worldNoToken) (issueNumberFlag worldNoToken)
          | Some data =>
            exists cached,
              json.Unmarshal intoInputs data Inputs.zero = inl cached /\
              merged = Inputs.mk
                (if nonempty (ownerFlag worldNoToken) then ownerFlag worldNoToken
                 else Inputs.Owner cached)
                (if nonempty (repoFlag worldNoToken) then repoFlag worldNoToken
                 else Inputs.Repo cached)
                (if nonempty (issueNumberFlag worldNoToken)
                 then issueNumberFlag worldNoToken
                 else Inputs.IssueNumber cached)
          end.
Proof.
  assert (Hrun : run worldNoToken
                 = Exited (Panic (vstring tokenMessage)) (final (run worldNoToken)))
    by (vm_compute; reflexivity).
  split; [exact Hrun|]. split; [vm_compute; reflexivity|].
  apply (proj2 (cache_written_before_token_is_read worldNoToken)).
  apply (proj1 (cache_written_before_token_is_read worldNoToken) _ Hrun).
Defined.

(** C2 (amended) at an issue that is not found, and at comments that are
    not found. *)
Lemma early_exit_output_witness :
  files (final (run worldIssue404)) !! outputPath worldIssue404
  = disk worldIssue404 !! outputPath worldIssue404
  /\ exists reqI respI bodyI issue,
       head (requests (trace (final (run worldComments404)))) = Some reqI
       /\ server worldComments404 reqI = inl respI /\ http.Body respI = inl bodyI
       /\ json.Unmarshal intoIssue bodyI Issue.zero = inl issue
       /\ files (final (run worldComments404)) !! outputPath worldComments404
          = Some (issueHeader issue +:+ blank).
Proof.
  split.
  - refine (proj1 (early_exit_output worldIssue404
                     (Fatal "Request failed with status: %s" (vstring "404 Not Found"))
                     (final (run worldIssue404)) _) _).
    + vm_compute; reflexivity.
    + cbn. tauto.
  - refine (proj2 (early_exit_output worldComments404
                     (Fatal "Comments request failed with status: %s"
                        (vstring "404 Not Found"))
                     (final (run worldComments404)) _) _).
    + vm_compute; reflexivity.
    + cbn. tauto.
Defined.

(** ** Properties beyond the claims

    The two functions that keep the cache file, and what every run of
    [main] does and does not do. *)

(** *** What the scanner reads of an encoded string *)

Lemma scanAll_app (a b : string) (sc : json.scanner) :
  json.scanAll sc (a +:+ b) =
  match json.scanAll sc a with
  | Some sc' => json.scanAll sc' b
  | None => None
  end.
Proof.
  revert sc. induction a as [|c a IH]; intros sc; [reflexivity|].
  rewrite append_cons. cbn [json.scanAll].
  destruct (json.scan sc c); [apply IH | reflexivity].
Qed.

Lemma chars_app (a b : string) : chars (a +:+ b) = chars a ++ chars b.
Proof.
  induction a as [|c a IH]; [reflexivity|].
  rewrite append_cons. unfold chars in *. cbn. now rewrite IH.
Qed.

Lemma copied_nil : copied EmptyString.
Proof. intros ps l tp. reflexivity. Qed.

Lemma copied_app (a b : string) : copied a -> copied b -> copied (a +:+ b).
Proof.
  intros Ha Hb ps l tp.
  rewrite scanAll_app, Ha, Hb, chars_app, rev_app_distr, app_assoc.
  reflexivity.
Qed.

Ltac bytes c := destruct c as [[] [] [] [] [] [] [] []].

Lemma copied_safe (c : ascii) :
  (code c <? 128)%N = true -> json.htmlSafe c = true -> copied (str1 c).
Proof.
  intros H1 H2 ps l tp. bytes c.
  all: try discriminate H1.
  all: try discriminate H2.
  all: reflexivity.
Qed.

Lemma copied_escape (c : ascii) :
  (code c <? 128)%N = true -> json.htmlSafe c = false -> copied (json.escapeByte c).
Proof.
  intros H1 H2 ps l tp. bytes c.
  all: try discriminate H1.
  all: try discriminate H2.
  all: reflexivity.
Qed.

Lemma copied_high (c : ascii) : high c -> copied (str1 c).
Proof.
  unfold high. intros H1 ps l tp. bytes c.
  all: try discriminate H1.
  all: reflexivity.
Qed.

Lemma between_high (lo hi : N) (c : ascii) :
  (128 <= lo)%N -> between lo hi c = true -> high c.
Proof.
  unfold between, high. intros Hlo H.
  apply andb_true_iff in H as [H _]. apply N.leb_le in H.
  apply N.ltb_ge. lia.
Qed.

Lemma cont_high (c : ascii) : utf8.cont c = true -> high c.
Proof. apply between_high. lia. Qed.

(** What [DecodeRuneInString] has read when the first byte is not ASCII:
    a rune of [n] bytes is decided by these bytes alone. *)
Lemma Decode_high (c : ascii) (r : string) :
  high c ->
  match utf8.DecodeRuneInString (String c r) with
  | (rn, 1) => True
  | (rn, 2) =>
    exists c1 r1, r = String c1 r1 /\ high c1
      /\ forall X, utf8.DecodeRuneInString (String c (String c1 X)) = (rn, 2)
  | (rn, 3) =>
    exists c1 c2 r2, r = String c1 (String c2 r2) /\ high c1 /\ high c2
      /\ forall X, utf8.DecodeRuneInString (String c (String c1 (String c2 X))) = (rn, 3)
  | (rn, 4) =>
    exists c1 c2 c3 r3, r = String c1 (String c2 (String c3 r3))
      /\ high c1 /\ high c2 /\ high c3
      /\ forall X, utf8.DecodeRuneInString
                     (String c (String c1 (String c2 (String c3 X)))) = (rn, 4)
  | _ => False
  end.
Proof.
  unfold high. intros Hc.
  unfold utf8.DecodeRuneInString. change utf8.RuneSelf with 128%N. rewrite Hc.
  destruct (between 194 223 c) eqn:H2.
  { destruct r as [|c1 r1]; [exact I|].
    destruct (utf8.cont c1) eqn:Hc1; [|exact I].
    exists c1, r1. split; [reflexivity|]. split; [now apply cont_high|].
    intros X. now rewrite Hc1. }
  destruct (between 224 239 c) eqn:H3.
  { destruct r as [|c1 [|c2 r2]]; try exact I.
    destruct (between _ _ c1 && utf8.cont c2) eqn:Hc12; [|exact I].
    exists c1, c2, r2. split; [reflexivity|].
    apply andb_true_iff in Hc12 as [Hc1 Hc2].
    split; [|split; [now apply cont_high|]].
    - eapply between_high; [|exact Hc1]. destruct (_ =? 224)%N; lia.
    - intros X. now rewrite Hc1, Hc2. }
  destruct (between 240 244 c) eqn:H4; [|exact I].
  destruct r as [|c1 [|c2 [|c3 r3]]]; try exact I.
  destruct (between _ _ c1 && utf8.cont c2 && utf8.cont c3) eqn:Hc123; [|exact I].
  exists c1, c2, c3, r3. split; [reflexivity|].
  apply andb_true_iff in Hc123 as [Hc12 Hc3].
  apply andb_true_iff in Hc12 as [Hc1 Hc2].
  split; [|split; [now apply cont_high|split; [now apply cont_high|]]].
  - eapply between_high; [|exact Hc1]. destruct (_ =? 240)%N; lia.
  - intros X. now rewrite Hc1, Hc2, Hc3.
Qed.

Lemma copied_u202 (n : N) : copied ("\u202" +:+ str1 (hexdigit (N.land n 15))).
Proof.
  assert (H : (N.land n 15 < 16)%N).
  { change 15%N with (N.ones 4). rewrite N.land_ones. now apply N.mod_lt. }
  intros ps l tp.
  destruct (N.land n 15) as [|p]; [reflexivity|].
  do 4 (destruct p as [p|p|]; try reflexivity; try lia).
Qed.

Lemma copied_fffd : copied "\ufffd".
Proof. intros ps l tp. reflexivity. Qed.

Lemma copied_u202_then (n : N) (t : string) :
  copied t -> copied ("\u202" +:+ String (hexdigit (N.land n 15)) t).
Proof.
  intros Ht.
  change (copied (("\u202" +:+ str1 (hexdigit (N.land n 15))) +:+ t)).
  apply copied_app; [apply copied_u202 | exact Ht].
Qed.

Lemma copied_cons (c : ascii) (t : string) :
  high c -> copied t -> copied (String c t).
Proof.
  intros Hc Ht. change (copied (str1 c +:+ t)).
  apply copied_app; [now apply copied_high | exact Ht].
Qed.

Lemma copied_appendString (s : string) : copied (json.appendStringFrom 0 s).
Proof.
  remember (String.length s) as n eqn:Hn.
  assert (Hlen : String.length s <= n) by lia. clear Hn.
  revert s Hlen. induction n as [|n IH]; intros [|c r] Hlen; cbn in Hlen;
    try apply copied_nil; try lia.
  cbn [json.appendStringFrom]. change utf8.RuneSelf with 128%N.
  destruct (code c <? 128)%N eqn:Hc.
  { apply copied_app; [|apply IH; lia].
    destruct (json.htmlSafe c) eqn:Hs;
      [now apply copied_safe | now apply copied_escape]. }
  pose proof (Decode_high c r Hc) as Hd. change (high c) in Hc.
  destruct (utf8.DecodeRuneInString (String c r)) as [rn [|[|[|[|[|wd]]]]]];
    try contradiction.
  - apply copied_app; [apply copied_fffd | apply IH; lia].
  - destruct Hd as (c1 & r1 & -> & Hc1 & _). simpl in Hlen.
    destruct (_ || _).
    + apply copied_u202_then.
      destruct r1 as [|c2 r2]; [apply copied_nil | apply IH; simpl in Hlen; lia].
    + cbn [json.appendStringFrom].
      repeat (apply copied_cons; [assumption|]). apply IH. lia.
  - destruct Hd as (c1 & c2 & r2 & -> & Hc1 & Hc2 & _). simpl in Hlen.
    destruct (_ || _).
    + apply copied_u202_then. apply IH. simpl. lia.
    + cbn [json.appendStringFrom].
      repeat (apply copied_cons; [assumption|]). apply IH. lia.
  - destruct Hd as (c1 & c2 & c3 & r3 & -> & Hc1 & Hc2 & Hc3 & _). simpl in Hlen.
    destruct (_ || _).
    + apply copied_u202_then. apply IH. simpl. lia.
    + cbn [json.appendStringFrom].
      repeat (apply copied_cons; [assumption|]). apply IH. lia.
Qed.

Lemma rev_string_chars (a : string) (l : list ascii) (out : string) :
  rev_string (rev (chars a) ++ l) out = rev_string l (a +:+ out).
Proof.
  revert l. induction a as [|c a IH]; intros l; [reflexivity|].
  unfold chars in *. cbn [list_ascii_of_string rev].
  rewrite <- app_assoc. cbn [app]. rewrite IH. reflexivity.
Qed.

(** The quotation mark that ends a string literal. *)
Lemma scan_quote (a : string) (ps : list json.Frame) (tp : option json.Value) :
  json.scanAll (json.mkScanner json.stateInString ps (rev (chars a) ++ []) tp) dq
  = json.complete (json.Str a) ps tp.
Proof.
  cbn [json.scanAll dq str1]. unfold json.scan. cbn [json.step json.lit json.parseState json.top].
  change (Ascii.eqb dquote dquote) with true. cbv iota.
  rewrite rev_string_chars. cbn [rev_string]. rewrite append_nil_r.
  now destruct (json.complete _ _ _).
Qed.

(** Scans the closed piece at the head of the input. *)
Ltac scan_piece :=
  rewrite scanAll_app;
  lazymatch goal with
  | |- context [json.scanAll ?sc ?p] =>
    let v := eval vm_compute in (json.scanAll sc p) in
    change (json.scanAll sc p) with v
  end;
  cbv beta iota.

Ltac scan_string H :=
  rewrite scanAll_app, H; cbv beta iota;
  rewrite scanAll_app, scan_quote;
  lazymatch goal with
  | |- context [json.complete ?v ?ps ?tp] =>
    let v' := eval vm_compute in (json.complete v ps tp) in
    change (json.complete v ps tp) with v'
  end;
  cbv beta iota.

(** The object that the encoder writes for the three fields is read by the
    scanner as three members, whatever the fields hold. *)
Lemma parse_members (a1 a2 a3 : string) :
  copied a1 -> copied a2 -> copied a3 ->
  json.parse
    ("{" +:+ nl
     +:+ "  " +:+ dq +:+ "owner" +:+ dq +:+ ": " +:+ dq +:+ a1 +:+ dq +:+ "," +:+ nl
     +:+ "  " +:+ dq +:+ "repo" +:+ dq +:+ ": " +:+ dq +:+ a2 +:+ dq +:+ "," +:+ nl
     +:+ "  " +:+ dq +:+ "issueNumber" +:+ dq +:+ ": " +:+ dq +:+ a3 +:+ dq +:+ nl
     +:+ "}")
  = Some (json.Object [("owner", json.Str a1); ("repo", json.Str a2);
                       ("issueNumber", json.Str a3)]).
Proof.
  intros H1 H2 H3. unfold json.parse.
  do 8 scan_piece. scan_string H1.
  do 8 scan_piece. scan_string H2.
  do 8 scan_piece. scan_string H3.
  scan_piece. reflexivity.
Qed.

(** *** What a string literal of the encoder decodes to *)

Lemma lor_shiftl (a b n : N) :
  (b < 2 ^ n)%N -> N.lor (N.shiftl a n) b = (a * 2 ^ n + b)%N.
Proof.
  intros Hb. rewrite N.shiftl_mul_pow2.
  assert (Hland : N.land (a * 2 ^ n) b = 0%N).
  { apply N.bits_inj. intros i. rewrite N.land_spec, N.bits_0.
    destruct (N.ltb_spec i n) as [Hi|Hi].
    - now rewrite N.mul_pow2_bits_low.
    - destruct (N.eq_dec b 0) as [->|Hb0]; [now rewrite N.bits_0, andb_false_r|].
      rewrite (N.bits_above_log2 b i), andb_false_r; [reflexivity|].
      apply N.log2_lt_pow2 in Hb; lia. }
  now rewrite <- N.lxor_lor, <- N.add_nocarry_lxor.
Qed.

Lemma low6_mod (c : ascii) : utf8.low6 c = (code c mod 64)%N.
Proof. unfold utf8.low6. change 63%N with (N.ones 6). now rewrite N.land_ones. Qed.

Lemma between_spec (lo hi : N) (c : ascii) :
  between lo hi c = true <-> (lo <= code c <= hi)%N.
Proof.
  unfold between. rewrite andb_true_iff, !N.leb_le. tauto.
Qed.

Lemma chr_code (c : ascii) : chr (code c) = c.
Proof. apply ascii_N_embedding. Qed.

(** The rune that [DecodeRuneInString] reads from two, three and four
    bytes. *)
Lemma Decode2 (c c1 : ascii) (X : string) (rn : N) :
  high c -> utf8.DecodeRuneInString (String c (String c1 X)) = (rn, 2) ->
  (rn < 2048)%N.
Proof.
  unfold high. intros Hc. unfold utf8.DecodeRuneInString.
  change utf8.RuneSelf with 128%N. rewrite Hc.
  destruct (between 194 223 c) eqn:H2.
  - destruct (utf8.cont c1); [|discriminate]. intros [= <-].
    rewrite low6_mod.
    change 31%N with (N.ones 5). rewrite N.land_ones.
    rewrite lor_shiftl by (apply N.mod_lt; lia).
    pose proof (N.mod_lt (code c) (2 ^ 5)). pose proof (N.mod_lt (code c1) 64).
    change (2 ^ 5)%N with 32%N in *. change (2 ^ 6)%N with 64%N. lia.
  - destruct (between 224 239 c).
    { destruct X as [|c2 X]; [discriminate|]. destruct (_ && _); discriminate. }
    destruct (between 240 244 c); [|discriminate].
    destruct X as [|c2 [|c3 X]]; try discriminate. destruct (_ && _); discriminate.
Qed.

Lemma Decode3 (c c1 c2 : ascii) (X : string) (rn : N) :
  high c -> utf8.DecodeRuneInString (String c (String c1 (String c2 X))) = (rn, 3) ->
  rn = (code c mod 16 * 4096 + (code c1 mod 64 * 64 + code c2 mod 64))%N
  /\ (224 <= code c <= 239)%N /\ (128 <= code c1 <= 191)%N
  /\ (128 <= code c2 <= 191)%N.
Proof.
  unfold high. intros Hc. unfold utf8.DecodeRuneInString.
  change utf8.RuneSelf with 128%N. rewrite Hc.
  destruct (between 194 223 c) eqn:H2.
  { destruct (utf8.cont c1); discriminate. }
  destruct (between 224 239 c) eqn:H3.
  - destruct (between _ _ c1 && utf8.cont c2) eqn:H12; [|discriminate].
    intros [= <-].
    apply andb_true_iff in H12 as [H1 Hc2].
    apply between_spec in H3, H1, Hc2.
    rewrite !low6_mod.
    change 15%N with (N.ones 4). rewrite N.land_ones.
    pose proof (N.mod_lt (code c1) 64). pose proof (N.mod_lt (code c2) 64).
    rewrite (lor_shiftl _ (code c2 mod 64) 6) by (change (2 ^ 6)%N with 64%N; lia).
    rewrite lor_shiftl by (change (2 ^ 6)%N with 64%N; change (2 ^ 12)%N with 4096%N; lia).
    change (2 ^ 4)%N with 16%N. change (2 ^ 6)%N with 64%N.
    change (2 ^ 12)%N with 4096%N.
    split; [reflexivity|]. split; [exact H3|]. split; [|exact Hc2].
    destruct (_ =? 224)%N, (_ =? 237)%N; lia.
  - destruct (between 240 244 c); [|discriminate].
    destruct X as [|c3 X]; try discriminate. destruct (_ && _); discriminate.
Qed.

Lemma Decode4 (c c1 c2 c3 : ascii) (X : string) (rn : N) :
  high c ->
  utf8.DecodeRuneInString (String c (String c1 (String c2 (String c3 X)))) = (rn, 4) ->
  (65536 <= rn)%N.
Proof.
  unfold high. intros Hc. unfold utf8.DecodeRuneInString.
  change utf8.RuneSelf with 128%N. rewrite Hc.
  destruct (between 194 223 c) eqn:H2.
  { destruct (utf8.cont c1); discriminate. }
  destruct (between 224 239 c) eqn:H3.
  { destruct (_ && _); discriminate. }
  destruct (between 240 244 c) eqn:H4; [|discriminate].
  destruct (between _ _ c1 && utf8.cont c2 && utf8.cont c3) eqn:H123; [|discriminate].
  intros [= <-].
  apply andb_true_iff in H123 as [H12 Hc3]. apply andb_true_iff in H12 as [H1 Hc2].
  apply between_spec in H4, H1, Hc2, Hc3.
  rewrite !low6_mod.
  change 7%N with (N.ones 3). rewrite N.land_ones.
  pose proof (N.mod_lt (code c1) 64). pose proof (N.mod_lt (code c2) 64).
  pose proof (N.mod_lt (code c3) 64).
  rewrite (lor_shiftl _ (code c3 mod 64) 6) by (change (2 ^ 6)%N with 64%N; lia).
  rewrite (lor_shiftl _ _ 12)
    by (change (2 ^ 6)%N with 64%N; change (2 ^ 12)%N with 4096%N; lia).
  rewrite lor_shiftl
    by (change (2 ^ 6)%N with 64%N; change (2 ^ 12)%N with 4096%N;
        change (2 ^ 18)%N with 262144%N; lia).
  change (2 ^ 3)%N with 8%N. change (2 ^ 6)%N with 64%N.
  change (2 ^ 12)%N with 4096%N. change (2 ^ 18)%N with 262144%N.
  pose proof (N.div_mod (code c) 8 ltac:(lia)).
  pose proof (N.mod_lt (code c) 8 ltac:(lia)).
  pose proof (N.div_mod (code c1) 64 ltac:(lia)).
  destruct (code c =? 244)%N.
  all: destruct (N.eqb_spec (code c) 240) as [E|E].
  all: generalize dependent (code c mod 8)%N; generalize (code c / 8)%N.
  all: generalize dependent (code c1 mod 64)%N; generalize (code c1 / 64)%N.
  all: generalize dependent (code c2 mod 64)%N.
  all: generalize dependent (code c3 mod 64)%N.
  all: intros; lia.
Qed.

Lemma high_not_backslash (c : ascii) : high c -> isByte c "\" = false.
Proof. unfold high. intros H. bytes c; try discriminate H; reflexivity. Qed.

Lemma unquote_safe (c : ascii) (X : string) :
  (code c <? 128)%N = true -> json.htmlSafe c = true ->
  json.unquoteFrom 0 (str1 c +:+ X) = String c (json.unquoteFrom 0 X).
Proof.
  intros H1 H2. bytes c.
  all: try discriminate H1.
  all: try discriminate H2.
  all: reflexivity.
Qed.

Lemma unquote_escape (c : ascii) (X : string) :
  (code c <? 128)%N = true -> json.htmlSafe c = false ->
  json.unquoteFrom 0 (json.escapeByte c +:+ X) = String c (json.unquoteFrom 0 X).
Proof.
  intros H1 H2. bytes c.
  all: try discriminate H1.
  all: try discriminate H2.
  all: reflexivity.
Qed.

Lemma unquote_rune2 (c c1 : ascii) (X : string) (rn : N) :
  high c -> utf8.DecodeRuneInString (String c (String c1 X)) = (rn, 2) ->
  json.unquoteFrom 0 (String c (String c1 X))
  = String c (String c1 (json.unquoteFrom 0 X)).
Proof.
  intros Hc Hd. cbn [json.unquoteFrom].
  rewrite (high_not_backslash c Hc), Hd.
  change utf8.RuneSelf with 128%N. rewrite Hc. reflexivity.
Qed.

Lemma unquote_rune3 (c c1 c2 : ascii) (X : string) (rn : N) :
  high c ->
  utf8.DecodeRuneInString (String c (String c1 (String c2 X))) = (rn, 3) ->
  json.unquoteFrom 0 (String c (String c1 (String c2 X)))
  = String c (String c1 (String c2 (json.unquoteFrom 0 X))).
Proof.
  intros Hc Hd. cbn [json.unquoteFrom].
  rewrite (high_not_backslash c Hc), Hd.
  change utf8.RuneSelf with 128%N. rewrite Hc. reflexivity.
Qed.

Lemma unquote_rune4 (c c1 c2 c3 : ascii) (X : string) (rn : N) :
  high c ->
  utf8.DecodeRuneInString (String c (String c1 (String c2 (String c3 X)))) = (rn, 4) ->
  json.unquoteFrom 0 (String c (String c1 (String c2 (String c3 X))))
  = String c (String c1 (String c2 (String c3 (json.unquoteFrom 0 X)))).
Proof.
  intros Hc Hd. cbn [json.unquoteFrom].
  rewrite (high_not_backslash c Hc), Hd.
  change utf8.RuneSelf with 128%N. rewrite Hc. reflexivity.
Qed.

(** U+2028 and U+2029, which the encoder escapes, are read back as the
    three bytes that were there. *)
Lemma unquote_u202 (c c1 c2 : ascii) (X Y : string) (rn : N) :
  high c ->
  utf8.DecodeRuneInString (String c (String c1 (String c2 X))) = (rn, 3) ->
  (rn =? 8232)%N || (rn =? 8233)%N = true ->
  json.unquoteFrom 0 ("\u202" +:+ String (hexdigit (N.land rn 15)) Y)
  = String c (String c1 (String c2 (json.unquoteFrom 0 Y))).
Proof.
  intros Hc Hd Hrn.
  destruct (Decode3 c c1 c2 X rn Hc Hd) as (Heq & Hb & Hb1 & Hb2).
  pose proof (N.div_mod (code c) 16 ltac:(lia)) as E0.
  pose proof (N.mod_lt (code c) 16 ltac:(lia)) as L0.
  pose proof (N.div_mod (code c1) 64 ltac:(lia)) as E1.
  pose proof (N.mod_lt (code c1) 64 ltac:(lia)) as L1.
  pose proof (N.div_mod (code c2) 64 ltac:(lia)) as E2.
  pose proof (N.mod_lt (code c2) 64 ltac:(lia)) as L2.
  apply orb_true_iff in Hrn as [Hrn|Hrn]; apply N.eqb_eq in Hrn; subst rn.
  - assert (code c = 226 /\ code c1 = 128 /\ code c2 = 168)%N as (K & K1 & K2).
    { generalize dependent (code c mod 16)%N; generalize (code c / 16)%N.
      generalize dependent (code c1 mod 64)%N; generalize (code c1 / 64)%N.
      generalize dependent (code c2 mod 64)%N; generalize (code c2 / 64)%N.
      intros; lia. }
    rewrite <- (chr_code c), <- (chr_code c1), <- (chr_code c2), K, K1, K2.
    reflexivity.
  - assert (code c = 226 /\ code c1 = 128 /\ code c2 = 169)%N as (K & K1 & K2).
    { generalize dependent (code c mod 16)%N; generalize (code c / 16)%N.
      generalize dependent (code c1 mod 64)%N; generalize (code c1 / 64)%N.
      generalize dependent (code c2 mod 64)%N; generalize (code c2 / 64)%N.
      intros; lia. }
    rewrite <- (chr_code c), <- (chr_code c1), <- (chr_code c2), K, K1, K2.
    reflexivity.
Qed.

Lemma unquote_appendString (s : string) :
  ValidString s = true -> json.unquote (json.appendStringFrom 0 s) = s.
Proof.
  unfold ValidString, json.unquote.
  remember (String.length s) as n eqn:Hn.
  assert (Hlen : String.length s <= n) by lia. clear Hn.
  revert s Hlen. induction n as [|n IH]; intros [|c r] Hlen Hv; simpl in Hlen;
    try reflexivity; try lia.
  cbn [json.appendStringFrom validFrom] in *. change utf8.RuneSelf with 128%N in *.
  destruct (code c <? 128)%N eqn:Hc.
  { destruct (json.htmlSafe c) eqn:Hs.
    - rewrite unquote_safe by assumption. f_equal. apply IH; [lia | exact Hv].
    - rewrite unquote_escape by assumption. f_equal. apply IH; [lia | exact Hv]. }
  pose proof (Decode_high c r Hc) as Hd. change (high c) in Hc.
  destruct (utf8.DecodeRuneInString (String c r)) as [rn [|[|[|[|[|wd]]]]]] eqn:Hdec;
    try contradiction; try discriminate Hv.
  - destruct Hd as (c1 & r1 & -> & Hc1 & HX). simpl in Hlen.
    pose proof (Decode2 c c1 r1 rn Hc Hdec) as Hsmall.
    replace ((rn =? 8232)%N || (rn =? 8233)%N) with false
      by (symmetry; apply orb_false_iff; split; apply N.eqb_neq; lia).
    cbn [json.appendStringFrom validFrom] in *.
    rewrite (unquote_rune2 c c1 _ rn Hc (HX _)). do 2 f_equal.
    apply IH; [lia | exact Hv].
  - destruct Hd as (c1 & c2 & r2 & -> & Hc1 & Hc2 & HX). simpl in Hlen.
    cbn [validFrom] in Hv.
    destruct ((rn =? 8232)%N || (rn =? 8233)%N) eqn:Hrn.
    + rewrite (unquote_u202 c c1 c2 r2 _ rn Hc Hdec Hrn). do 3 f_equal.
      apply IH; [lia | exact Hv].
    + cbn [json.appendStringFrom].
      rewrite (unquote_rune3 c c1 c2 _ rn Hc (HX _)). do 3 f_equal.
      apply IH; [lia | exact Hv].
  - destruct Hd as (c1 & c2 & c3 & r3 & -> & Hc1 & Hc2 & Hc3 & HX). simpl in Hlen.
    pose proof (Decode4 c c1 c2 c3 r3 rn Hc Hdec) as Hbig.
    replace ((rn =? 8232)%N || (rn =? 8233)%N) with false
      by (symmetry; apply orb_false_iff; split; apply N.eqb_neq; lia).
    cbn [json.appendStringFrom validFrom] in *.
    rewrite (unquote_rune4 c c1 c2 c3 _ rn Hc (HX _)). do 4 f_equal.
    apply IH; [lia | exact Hv].
Qed.

Lemma cacheText_members (x : Inputs) :
  cacheText x =
    "{" +:+ nl
    +:+ "  " +:+ dq +:+ "owner" +:+ dq +:+ ": " +:+ dq
    +:+ json.appendStringFrom 0 (Inputs.Owner x) +:+ dq +:+ "," +:+ nl
    +:+ "  " +:+ dq +:+ "repo" +:+ dq +:+ ": " +:+ dq
    +:+ json.appendStringFrom 0 (Inputs.Repo x) +:+ dq +:+ "," +:+ nl
    +:+ "  " +:+ dq +:+ "issueNumber" +:+ dq +:+ ": " +:+ dq
    +:+ json.appendStringFrom 0 (Inputs.IssueNumber x) +:+ dq +:+ nl
    +:+ "}".
Proof.
  unfold cacheText, json.MarshalIndent, Inputs.fields.
  cbn [json.marshalFields]. unfold json.appendString.
  rewrite !append_assoc. reflexivity.
Qed.

(** What the program reads back from the text it writes to the cache
    file: every field as [encoding/json] reads the string literal that it
    has written for it. *)
Lemma Unmarshal_cacheText (x : Inputs) :
  json.Unmarshal intoInputs (cacheText x) Inputs.zero
  = inl (Inputs.mk (json.unquote (json.appendStringFrom 0 (Inputs.Owner x)))
                   (json.unquote (json.appendStringFrom 0 (Inputs.Repo x)))
                   (json.unquote (json.appendStringFrom 0 (Inputs.IssueNumber x)))).
Proof.
  unfold json.Unmarshal.
  rewrite cacheText_members, parse_members by apply copied_appendString.
  reflexivity.
Qed.

Lemma Unmarshal_cacheText_valid (x : Inputs) :
  ValidString (Inputs.Owner x) = true -> ValidString (Inputs.Repo x) = true ->
  ValidString (Inputs.IssueNumber x) = true ->
  json.Unmarshal intoInputs (cacheText x) Inputs.zero = inl x.
Proof.
  intros Ho Hr Hi. rewrite Unmarshal_cacheText.
  rewrite !unquote_appendString by assumption. now destruct x.
Qed.

(** *** The two functions of the cache file *)

(** X5: [readInputsFromFile] returns the three strings that
    [updateInputsInFile] has been given, when these are valid UTF-8 and the
    file can be written and read; the file holds the pretty-printed object. *)
Theorem written_inputs_are_read_back (w : World)
    (filePath owner repo issueNumber : string) (s : State) :
  ValidString owner = true -> ValidString repo = true ->
  ValidString issueNumber = true ->
  (forall text, fails w (writeFile filePath text) = None) ->
  fails w (readFile filePath) = None ->
  exists s',
    (updateInputsInFile w filePath owner repo issueNumber ;;
     readInputsFromFile w filePath)%proc s
    = Return (owner, repo, issueNumber) s'
    /\ files s' = <[os.abs w filePath := cacheText (Inputs.mk owner repo issueNumber)]>
                    (files s).
Proof.
  intros Ho Hr Hi Hwrite Hread.
  pose proof (Unmarshal_cacheText_valid (Inputs.mk owner repo issueNumber) Ho Hr Hi)
    as Hload.
  unfold cacheText in *.
  cbv beta zeta delta [updateInputsInFile readInputsFromFile bind orElse check ret
    panic os.WriteFile os.ReadFile called].
  rewrite Hwrite. cbn. rewrite Hread, lookup_insert_eq. cbn.
  rewrite Hload. cbn. eexists. split; reflexivity.
Qed.

(** X6: whatever bytes the three strings hold, [readInputsFromFile] does not
    panic on the file that [updateInputsInFile] has written. *)
Theorem written_inputs_always_parse (w : World)
    (filePath owner repo issueNumber : string) (s : State) :
  (forall text, fails w (writeFile filePath text) = None) ->
  fails w (readFile filePath) = None ->
  exists loaded s',
    (updateInputsInFile w filePath owner repo issueNumber ;;
     readInputsFromFile w filePath)%proc s
    = Return loaded s'.
Proof.
  intros Hwrite Hread.
  pose proof (Unmarshal_cacheText (Inputs.mk owner repo issueNumber)) as Hload.
  unfold cacheText in *.
  cbv beta zeta delta [updateInputsInFile readInputsFromFile bind orElse check ret
    panic os.WriteFile os.ReadFile called].
  rewrite Hwrite. cbn. rewrite Hread, lookup_insert_eq. cbn.
  rewrite Hload. cbn. eexists _, _. reflexivity.
Qed.

Lemma fieldIndex_lt (tags : list string) (key : string) (i : nat) :
  json.fieldIndex tags key = Some i -> (i < List.length tags)%nat.
Proof.
  revert i. induction tags as [|t tags IH]; intros i; cbn; [discriminate|].
  destruct (String.eqb _ _); [intros [= <-]; lia|].
  destruct (json.fieldIndex tags key) as [j|]; [|discriminate].
  intros [= <-]. specialize (IH j eq_refl). lia.
Qed.

(** The members of the cache file's object: the walk does not stop, a
    type error that was saved stays, and a value of the wrong type for one
    of the three fields saves one. *)
Lemma intoInputs_members (ms : list (string * json.Value)) :
  forall (x : Inputs) (saved : option error),
  exists x' saved',
    intoInputs (json.Object ms) x saved = inl (x', saved')
    /\ (saved' = saved \/ saved = None /\ typeError saved')
    /\ (saved = None ->
        (exists k v, In (k, v) ms /\ wrongType v
           /\ is_Some (json.fieldIndex ["owner"; "repo"; "issueNumber"] (json.unquote k))) ->
        typeError saved').
Proof.
  unfold intoInputs, json.intoStruct.
  induction ms as [|[k v] ms IH]; intros x saved; cbn [json.members].
  - eexists _, _. split; [reflexivity|]. split; [now left|].
    intros _ (k & v & [] & _).
  - destruct (json.fieldIndex _ (json.unquote k)) as [i|] eqn:Hi.
    + assert (Hstep : exists x1 s1,
        match i with
        | 0 => json.field Inputs.Owner
                 (fun x s => Inputs.mk s (Inputs.Repo x) (Inputs.IssueNumber x))
                 (json.intoString "owner")
        | 1 => json.field Inputs.Repo
                 (fun x s => Inputs.mk (Inputs.Owner x) s (Inputs.IssueNumber x))
                 (json.intoString "repo")
        | 2 => json.field Inputs.IssueNumber
                 (fun x s => Inputs.mk (Inputs.Owner x) (Inputs.Repo x) s)
                 (json.intoString "issueNumber")
        | _ => json.nofield
        end v x saved = inl (x1, s1)
        /\ (s1 = saved \/ saved = None /\ typeError s1)
        /\ (saved = None -> wrongType v -> typeError s1)).
      { apply fieldIndex_lt in Hi. cbn in Hi.
        destruct i as [|[|[|i]]]; try lia.
        all: destruct v, saved; cbn; eexists _, _; (split; [reflexivity|]).
        all: split; [first [now left | right; split; [reflexivity|now eexists _, _]]|].
        all: intros Hnone Hv; first [discriminate Hnone | contradiction | now eexists _, _]. }
      destruct Hstep as (x1 & s1 & -> & Hkeep & Hnew).
      destruct (IH x1 s1) as (x2 & s2 & -> & Hkeep2 & Hnew2).
      eexists _, _. split; [reflexivity|]. split.
      * destruct Hkeep as [->|[-> Ht1]]; [exact Hkeep2|].
        right. split; [reflexivity|].
        destruct Hkeep2 as [->|[-> _]]; [exact Ht1|].
        destruct Ht1 as (a & b & [=]).
      * intros -> (k' & v' & [[= <- <-]|Hin] & Hv & Hk).
        -- specialize (Hnew eq_refl Hv).
           destruct Hkeep2 as [->|[-> _]]; [exact Hnew|].
           destruct Hnew as (a & b & [=]).
        -- destruct Hkeep as [->|[_ Ht1]].
           ++ apply Hnew2; [reflexivity|]. now exists k', v'.
           ++ destruct Hkeep2 as [->|[-> _]]; [exact Ht1|].
              destruct Ht1 as (a & b & [=]).
    + destruct (IH x saved) as (x2 & s2 & -> & Hkeep2 & Hnew2).
      eexists _, _. split; [reflexivity|]. split; [exact Hkeep2|].
      intros Hnone (k' & v' & [[= <- <-]|Hin] & Hv & Hk).
      * rewrite Hi in Hk. destruct Hk as [? [=]].
      * apply Hnew2; [exact Hnone|]. now exists k', v'.
Qed.

(** X9: when the cache file holds a JSON object in which a member named
    owner, repo or issueNumber (in any case of the letters) has a value that
    is neither a string nor null, [readInputsFromFile] panics with the type
    error of [encoding/json] and leaves the files as they are. *)
Theorem cache_field_of_wrong_type_panics (w : World) (filePath data k : string)
    (ms : list (string * json.Value)) (v : json.Value) (s : State) :
  files s !! os.abs w filePath = Some data ->
  fails w (readFile filePath) = None ->
  json.parse data = Some (json.Object ms) ->
  In (k, v) ms ->
  is_Some (json.fieldIndex ["owner"; "repo"; "issueNumber"] (json.unquote k)) ->
  wrongType v ->
  exists value field s',
    readInputsFromFile w filePath s
    = Exited (Panic (verror (Errorf "failed to parse inputs from file: %w"
                               (UnmarshalTypeError value field)))) s'
    /\ files s' = files s.
Proof.
  intros Hfile Hread Hparse Hin Hk Hv.
  destruct (intoInputs_members ms Inputs.zero None)
    as (x' & saved' & Hdec & _ & Hnew).
  destruct Hnew as (value & field & ->); [reflexivity | now exists k, v|].
  exists value, field.
  cbv beta zeta delta [readInputsFromFile bind orElse ret panic os.ReadFile called].
  rewrite Hread, Hfile. unfold json.Unmarshal. rewrite Hparse, Hdec.
  eexists. split; reflexivity.
Qed.

Lemma cache_field_of_wrong_type_panics_witness :
  exists value field s',
    readInputsFromFile worldFresh homeCache
      (mkState {[ homeCache := quoted "{'owner':'A','repo':'B','issueNumber':7}" ]} [])
    = Exited (Panic (verror (Errorf "failed to parse inputs from file: %w"
                               (UnmarshalTypeError value field)))) s'
    /\ files s'
       = files (mkState {[ homeCache := quoted "{'owner':'A','repo':'B','issueNumber':7}" ]} []).
Proof.
  apply (cache_field_of_wrong_type_panics worldFresh homeCache
           (quoted "{'owner':'A','repo':'B','issueNumber':7}") "issueNumber"
           [("owner", json.Str "A"); ("repo", json.Str "B");
            ("issueNumber", json.Number "7")]
           (json.Number "7")
           (mkState {[ homeCache := quoted "{'owner':'A','repo':'B','issueNumber':7}" ]} [])).
  - vm_compute; reflexivity.
  - reflexivity.
  - vm_compute; reflexivity.
  - cbn; tauto.
  - eexists; vm_compute; reflexivity.
  - exact I.
Defined.

(** *** Every run *)

(** X1: a run changes no file but the cache file and the transcript: every
    other path holds at the end what it held at the start, however the run
    ends. *)
Theorem run_changes_two_files_only (w : World) (p : string) :
  p <> cachePath w -> p <> outputPath w ->
  files (final (run w)) !! p = disk w !! p.
Proof.
  unfold cachePath, outputPath, inputsFile, outputFile.
  intros Hcache Hout.
  destruct (run w) as [[] s|x s] eqn:Hrun; cbn [final].
  all: run_cases Hrun.
  all: try discriminate Hrun.
  all: inversion Hrun; subst; clear Hrun; cbn [files].
  all: try (destruct Hloop as (Hframe & _); cbn in Hframe;
            rewrite Hframe by exact Hout).
  all: try (destruct (short w _)).
  all: rewrite ?lookup_insert_ne by (apply not_eq_sym; assumption).
  all: reflexivity.
Qed.


(** X2: a run sends no request, or the issue request alone, or the issue
    request and then the comments request: never more than two, both GET,
    both for the same owner, repo and issue number, each with the one header
    [Authorization: Bearer] and the token of the environment, which is not
    empty. *)
Theorem requests_are_issue_then_comments (w : World) :
  exists owner repo issueNumber,
    let token := environ w tokenVariable in
    let first := issueRequest token owner repo issueNumber in
    let second := commentsRequest token owner repo issueNumber in
    requests (trace (final (run w))) = []
    \/ token <> EmptyString
       /\ (requests (trace (final (run w))) = [first]
           \/ requests (trace (final (run w))) = [first; second]).
Proof.
  unfold tokenVariable, issueRequest, commentsRequest, apiURL.
  destruct (run w) as [[] s|x s] eqn:Hrun; cbn [final].
  all: run_cases Hrun.
  all: try discriminate Hrun.
  all: inversion Hrun; subst; clear Hrun; cbn [trace].
  all: try (destruct Hloop as (_ & (ws & Htr & Hws) & _);
            cbn in Htr; rewrite Htr; clear Htr;
            rewrite ?requests_app; cbn [requests app];
            rewrite ?requests_app, (requests_writes _ Hws)).
  all: cbn [requests app].
  all: try (exists EmptyString, EmptyString, EmptyString; left; reflexivity).
  all: rewrite ?Sprintf_issuePath, ?Sprintf_commentsURL.
  all: unfold http.SetURLPath, http.HeaderSet; cbn.
  all: eexists _, _, _; right.
  all: (split; [intros Heq; rewrite Heq in *; discriminate|]).
  all: first [left; reflexivity | right; reflexivity].
Qed.


(** X4: a run that ends in a [panic] has not come to build a request; a run
    that ends in [log.Fatalf] has read a token that is not empty and has
    built the issue request. *)
Theorem panics_come_before_the_network (w : World) (x : Exit) (s : State) :
  run w = Exited x s ->
  match x with
  | Panic _ => Forall (fun c => ~ isNewRequest c) (trace s)
  | Fatal _ _ =>
    environ w tokenVariable <> EmptyString
    /\ In (newRequest "GET" apiURL) (trace s)
  end.
Proof.
  unfold tokenVariable, apiURL. intros Hrun.
  run_cases Hrun.
  all: try discriminate Hrun.
  all: inversion Hrun; subst; clear Hrun; cbn [trace].
  all: try (destruct Hloop as (_ & (ws & Htr & Hws) & (format & e' & -> & _));
            cbn in Htr; rewrite Htr; clear Htr).
  all: try (split; [intros Heq; rewrite Heq in *; discriminate | cbn; tauto]).
  all: repeat first [ apply Forall_nil_2 | apply Forall_cons_2; [cbn; tauto|] ].
Qed.

(** *** A run after a run *)

Lemma cachePath_cwd (w w' : World) : cwd w' = cwd w -> cachePath w' = cachePath w.
Proof.
  unfold cachePath, os.abs. now intros ->.
Qed.

Lemma fresh_cache_file (w : World) :
  disk w !! cachePath w = None ->
  fails w getwd = None ->
  (forall text, fails w (writeFile (filepath.Join (cwd w) inputsFile) text) = None) ->
  files (final (run w)) !! cachePath w =
    Some (cacheText (Inputs.mk (ownerFlag w) (repoFlag w) (issueNumberFlag w))).
Proof.
  intros Hdisk Hwd Hwrite.
  pose proof (paths_differ w) as Hne.
  unfold cachePath, outputPath, inputsFile, outputFile in *.
  destruct (run w) as [[] s|x s] eqn:Hrun; cbn [final].
  all: run_cases Hrun.
  all: try congruence.
  all: try discriminate Hrun.
  all: inversion Hrun; subst; clear Hrun; cbn [files].
  all: try (destruct Hloop as (Hframe & _); cbn in Hframe;
            rewrite Hframe by exact Hne).
  all: rewrite ?(lookup_insert_ne _ _ _ _ (not_eq_sym Hne)).
  all: rewrite lookup_insert_eq.
  all: reflexivity.
Qed.

Lemma empty_cache_panics (w : World) (data : string) (cached : Inputs) :
  disk w !! cachePath w = Some data ->
  json.Unmarshal intoInputs data Inputs.zero = inl cached ->
  Inputs.Owner cached = EmptyString \/ Inputs.Repo cached = EmptyString ->
  fails w getwd = None ->
  fails w (readFile (filepath.Join (cwd w) inputsFile)) = None ->
  exists s, run w = Exited (Panic (vstring emptyMessage)) s /\ requests (trace s) = [].
Proof.
  unfold cachePath, inputsFile. intros Hdisk Hload Hempty Hwd Hread.
  assert (Htest : String.eqb (Inputs.Owner cached) EmptyString
                  || String.eqb (Inputs.Repo cached) EmptyString = true).
  { destruct Hempty as [-> | ->]; [reflexivity | apply orb_true_r]. }
  destruct (run w) as [[] s|x s] eqn:Hrun.
  all: run_cases Hrun.
  all: try congruence.
  all: try discriminate Hrun.
  all: inversion Hrun; subst; clear Hrun.
  all: eexists; split; reflexivity.
Qed.

(** X7: when a run without a cache file has no owner flag or no repo flag,
    the cache file that it writes makes every later run in that directory
    end in the panic for the empty fields, with no request sent, whatever
    flags the later run is given. *)
Theorem cache_without_owner_or_repo_blocks_later_runs (w w' : World) :
  disk w !! cachePath w = None ->
  ownerFlag w = EmptyString \/ repoFlag w = EmptyString ->
  fails w getwd = None ->
  (forall text, fails w (writeFile (filepath.Join (cwd w) inputsFile) text) = None) ->
  cwd w' = cwd w ->
  disk w' = files (final (run w)) ->
  fails w' getwd = None ->
  fails w' (readFile (filepath.Join (cwd w') inputsFile)) = None ->
  exists s, run w' = Exited (Panic (vstring emptyMessage)) s /\ requests (trace s) = [].
Proof.
  intros Hdisk Hempty Hwd Hwrite Hcwd Hnext Hwd' Hread'.
  pose proof (fresh_cache_file w Hdisk Hwd Hwrite) as Hfile.
  rewrite <- Hnext, <- (cachePath_cwd w w' Hcwd) in Hfile.
  eapply empty_cache_panics; try eassumption.
  - apply Unmarshal_cacheText.
  - cbn [Inputs.Owner Inputs.Repo].
    destruct Hempty as [-> | ->]; [left | right]; reflexivity.
Qed.

(** X8: when a run without a cache file is given flags that are valid UTF-8,
    a later run in that directory without flags sends its issue request to
    the path of the flags of the first run. *)
Theorem second_run_requests_the_flags_of_the_first (w w' : World)
    (req : http.Request) :
  disk w !! cachePath w = None ->
  ValidString (ownerFlag w) = true -> ValidString (repoFlag w) = true ->
  ValidString (issueNumberFlag w) = true ->
  fails w getwd = None ->
  (forall text, fails w (writeFile (filepath.Join (cwd w) inputsFile) text) = None) ->
  cwd w' = cwd w ->
  disk w' = files (final (run w)) ->
  ownerFlag w' = EmptyString -> repoFlag w' = EmptyString ->
  issueNumberFlag w' = EmptyString ->
  head (requests (trace (final (run w')))) = Some req ->
  url.Path (http.URL req) =
    Some (issuePath (ownerFlag w) (repoFlag w) (issueNumberFlag w)).
Proof.
  intros Hdisk Ho Hr Hi Hwd Hwrite Hcwd Hnext Ho' Hr' Hi' Hreq.
  pose proof (fresh_cache_file w Hdisk Hwd Hwrite) as Hfile.
  rewrite <- Hnext, <- (cachePath_cwd w w' Hcwd) in Hfile.
  pose proof (Unmarshal_cacheText_valid
                (Inputs.mk (ownerFlag w) (repoFlag w) (issueNumberFlag w)) Ho Hr Hi)
    as Hload.
  rewrite (cached_request_uses_resolved w' _ _ req Hfile Hload Hreq).
  rewrite Ho', Hr', Hi'. reflexivity.
Qed.

(** *** A write to the transcript that fails *)

Lemma append_nonempty (a b : string) : b <> EmptyString -> a +:+ b <> EmptyString.
Proof.
  intros Hb. destruct a as [|c a]; [exact Hb|].
  rewrite append_cons. discriminate.
Qed.

Lemma append_nonempty_l (a b : string) : a <> EmptyString -> a +:+ b <> EmptyString.
Proof.
  intros Ha. destruct a as [|c a]; [contradiction|].
  rewrite append_cons. discriminate.
Qed.

Lemma substring_proper (n : nat) (b : string) :
  (n < String.length b)%nat ->
  exists rest, b = String.substring 0 n b +:+ rest /\ rest <> EmptyString.
Proof.
  revert n. induction b as [|c b IH]; intros n Hn; cbn in Hn; [lia|].
  destruct n as [|n].
  - exists (String c b). split; [reflexivity | discriminate].
  - destruct (IH n) as (rest & Hb & Hrest); [lia|].
    exists rest. cbn [String.substring]. rewrite append_cons, <- Hb. auto.
Qed.

(** A write that fails has written less than it was given. *)
Lemma shortWrite_proper (w : World) (c : Call) (b : string) :
  b <> EmptyString ->
  exists rest, b = os.shortWrite w c b +:+ rest /\ rest <> EmptyString.
Proof.
  intros Hb. unfold os.shortWrite. apply substring_proper.
  destruct b; [contradiction|]. cbn. lia.
Qed.

Lemma partial_write (w : World) (file : os.File) (b format text : string)
    (k : unit -> Proc unit) :
  b <> EmptyString ->
  partial w file text (k tt) ->
  partial w file (b +:+ text)
    (bind (check (os.WriteString w file b) (fun err => log.Fatalf format err)) k).
Proof.
  intros Hb Hk s x s' d Hrun Hd. unfold bind at 1 in Hrun.
  destruct (write_checked w file b format s) as [(e & _ & Hm) | (_ & Hm)];
    rewrite Hm in Hrun.
  - injection Hrun as <- <-.
    destruct (shortWrite_proper w
                (write file (String.length (content w file s)) b) b Hb)
      as (r & Hbr & Hr).
    eexists _, (r +:+ text). cbn [files]. rewrite lookup_insert_eq.
    unfold content at 1. rewrite Hd. cbn [default].
    split; [reflexivity|]. split; [|now apply append_nonempty_l].
    now rewrite <- append_assoc, <- Hbr.
  - unfold content in Hrun. rewrite Hd in Hrun. cbn [default] in Hrun.
    destruct (Hk _ _ _ (d +:+ b) Hrun) as (p & rest & Hfile & -> & Hrest).
    { cbn [files]. apply lookup_insert_eq. }
    exists (b +:+ p), rest. rewrite Hfile, !append_assoc. auto.
Qed.

Lemma rangeComments_partial (w : World) (file : os.File) (comments : list Comment) :
  forall i, partial w file (written i comments) (rangeComments w file i comments).
Proof.
  induction comments as [|c rest IH]; intros i.
  - intros s x s' d Hrun. rewrite rangeComments_nil in Hrun. discriminate Hrun.
  - rewrite rangeComments_cons. cbn [written].
    rewrite <- commentBlock_written, !append_assoc.
    assert (Hblock :
      partial w file
        (fmt.Sprintf "Comment %d by %s at %s"
           [fmt.int (N.of_nat (i + 1)); fmt.str (User.Login (Comment.User c));
            fmt.str (time.FormatDateTime (Comment.DateTime c))]
         +:+ ":" +:+ nl +:+ fmt.Sprintf ("%s" +:+ nl) [fmt.str (Comment.Body c)]
         +:+ written (S i) rest)
        (bind (check (os.WriteString w file
                 (fmt.Sprintf "Comment %d by %s at %s"
                    [fmt.int (N.of_nat (i + 1));
                     fmt.str (User.Login (Comment.User c));
                     fmt.str (time.FormatDateTime (Comment.DateTime c))]
                  +:+ ":" +:+ nl))
                 (fun err => log.Fatalf "Failed to write comment header to file: %s" err))
           (fun _ =>
         bind (check (os.WriteString w file
                 (fmt.Sprintf ("%s" +:+ nl) [fmt.str (Comment.Body c)]))
                 (fun err => log.Fatalf "Failed to write comment body to file: %s" err))
           (fun _ => rangeComments w file (S i) rest)))).
    { match goal with
      | |- partial _ _ (?h +:+ ":" +:+ nl +:+ ?b +:+ ?t) _ =>
        replace (h +:+ ":" +:+ nl +:+ b +:+ t)
          with ((h +:+ ":" +:+ nl) +:+ b +:+ t) by now rewrite !append_assoc
      end.
      apply partial_write; [apply append_nonempty; discriminate|].
      apply partial_write; [|apply IH].
      rewrite Sprintf_commentBody. apply append_nonempty. discriminate. }
    destruct (0 <? i)%nat.
    + apply partial_write; [discriminate | exact Hblock].
    + intros s x s' d Hrun Hd. unfold bind at 1, ret in Hrun.
      exact (Hblock s x s' d Hrun Hd).
Qed.

(** [run_paths H] is [run_cases H] with the loop left as it stands. *)
Ltac run_paths H :=
  cbv beta delta [run main getAbsolutePath readInputsFromFile updateInputsInFile
    bind orElse check ret panic log.Fatalf os.Getwd os.Stat os.ReadFile
    os.WriteFile os.Getenv os.Create os.WriteString http.NewRequest
    client.Do io.ReadAll fmt.Println called nonempty] in H;
  cbn in H;
  repeat run_step H.

(** What a write to the transcript that fails leaves, in the text that the
    program builds. *)
Lemma failed_write_partial (w : World) (x : Exit) (s : State) :
  run w = Exited x s ->
  ((exists e, x = Fatal "Failed to write issue details to file: %s" (verror e)) ->
   exists reqI respI bodyI issue done rest,
     requests (trace s) = [reqI]
     /\ server w reqI = inl respI /\ http.Body respI = inl bodyI
     /\ json.Unmarshal intoIssue bodyI Issue.zero = inl issue
     /\ files s !! outputPath w = Some done
     /\ issueHeader issue +:+ blank = done +:+ rest
     /\ rest <> EmptyString)
  /\ (writeFailure x ->
      exists reqI reqC respI respC bodyI bodyC issue comments done rest,
        requests (trace s) = [reqI; reqC]
        /\ server w reqI = inl respI /\ http.Body respI = inl bodyI
        /\ json.Unmarshal intoIssue bodyI Issue.zero = inl issue
        /\ server w reqC = inl respC /\ http.Body respC = inl bodyC
        /\ json.Unmarshal intoComments bodyC [] = inl comments
        /\ files s !! outputPath w = Some (issueHeader issue +:+ blank +:+ done)
        /\ joinBlocks (commentBlocks comments) = done +:+ rest
        /\ rest <> EmptyString).
Proof.
  unfold outputPath, outputFile. intros Hrun.
  run_paths Hrun.
  all: try discriminate Hrun.
  all: try (inversion Hrun; subst; clear Hrun;
            split; [intros (e' & [=]) | intros (f & e' & [=] & Hf)];
            subst; cbn in Hf; exfalso; intuition discriminate).
  all: try match goal with
       | E : rangeComments ?w ?f ?i ?l ?st = Exited _ _ |- _ =>
         pose proof (rangeComments_spec w f l i st) as Hloop; rewrite E in Hloop;
         edestruct (rangeComments_partial w f l i st) as (p & rest & Hfile & Hw & Hrest);
           [exact E | cbn [files]; apply lookup_insert_eq |]
       end.
  all: inversion Hrun; subst; clear Hrun.
  all: cbn [trace files final].
  all: rewrite ?Sprintf_issueLine in *.
  all: try (destruct Hloop as (_ & (ws & Htr & Hws) & (f & e' & -> & Hf));
            split; [intros (e'' & [= -> _]); cbn in Hf; exfalso; intuition discriminate|];
            intros _; cbn [final trace] in Htr;
            do 8 eexists; exists p, rest;
            (split;
              [ rewrite Htr, requests_app, (requests_writes _ Hws), app_nil_r; cbn;
                reflexivity |]);
            repeat (split; [eassumption|]);
            rewrite written_joinBlocks in Hw;
            (split; [|split; assumption]);
            rewrite Hfile, lookup_insert_eq in *;
            cbn [default]; change (EmptyString +:+ ?y) with y;
            now rewrite !append_assoc).
  all: split;
    [intros _ | intros (f & e' & [= <- <-] & Hf); cbn in Hf; exfalso; intuition discriminate].
  all: rewrite !lookup_insert_eq; cbn [default id].
  all: change (EmptyString +:+ ?y) with y.
  all: match goal with
       | |- context [os.shortWrite ?w ?c ?b] =>
         destruct (shortWrite_proper w c b) as (rest & Hb & Hrest);
           [apply append_nonempty; discriminate|]
       end.
  all: do 4 eexists; eexists _, rest.
  all: split; [cbn; reflexivity|].
  all: repeat (split; [eassumption|]).
  all: split; [reflexivity | split; [exact Hb | exact Hrest]].
Qed.

(** X10: a run that ends on a write to the transcript that fails leaves
    there a part, and not the whole, of the text that it was writing: of
    the issue header block and its blank line, when it is their write that
    failed; else the issue header block, its blank line and a part of the
    comment blocks of the comments that were decoded.  The part ends where
    the write that failed stopped. *)
Theorem failed_write_leaves_what_was_written (w : World) (x : Exit) (s : State) :
  run w = Exited x s ->
  ((exists e, x = Fatal "Failed to write issue details to file: %s" (verror e)) ->
   exists reqI respI bodyI issue done rest,
     requests (trace s) = [reqI]
     /\ server w reqI = inl respI /\ http.Body respI = inl bodyI
     /\ json.Unmarshal intoIssue bodyI Issue.zero = inl issue
     /\ files s !! outputPath w = Some done
     /\ headerText issue +:+ nl = done +:+ rest
     /\ rest <> EmptyString)
  /\ (writeFailure x ->
      exists reqI reqC respI respC bodyI bodyC issue comments done rest,
        requests (trace s) = [reqI; reqC]
        /\ server w reqI = inl respI /\ http.Body respI = inl bodyI
        /\ json.Unmarshal intoIssue bodyI Issue.zero = inl issue
        /\ server w reqC = inl respC /\ http.Body respC = inl bodyC
        /\ json.Unmarshal intoComments bodyC [] = inl comments
        /\ files s !! outputPath w = Some (headerText issue +:+ nl +:+ done)
        /\ joinBlocks (blockTexts comments) = done +:+ rest
        /\ rest <> EmptyString).
Proof.
  intros Hrun. destruct (failed_write_partial w x s Hrun) as [Hissue Hloop].
  split.
  - intros Hx.
    destruct (Hissue Hx)
      as (reqI & respI & bodyI & issue & done & rest
          & Hreqs & HrespI & HbodyI & Hdec & Hfile & Htext & Hrest).
    exists reqI, respI, bodyI, issue, done, rest.
    rewrite <- (headerText_issueHeader issue (Unmarshal_Issue_valid _ _ Hdec)).
    repeat (split; [assumption|]). exact Hrest.
  - intros Hx.
    destruct (Hloop Hx)
      as (reqI & reqC & respI & respC & bodyI & bodyC & issue & comments & done
          & rest & Hreqs & HrespI & HbodyI & Hdec & HrespC & HbodyC & Hdecs
          & Hfile & Htext & Hrest).
    exists reqI, reqC, respI, respC, bodyI, bodyC, issue, comments, done, rest.
    rewrite <- (headerText_issueHeader issue (Unmarshal_Issue_valid _ _ Hdec)).
    rewrite <- (blockTexts_commentBlocks comments (Unmarshal_Comments_valid _ _ Hdecs)).
    repeat (split; [assumption|]). exact Hrest.
Qed.

(** *** Timestamps as they are printed *)

Lemma digit_chr (c : ascii) (d : N) : time.digit c = Some d -> chr (48 + d) = c.
Proof.
  unfold time.digit, isDigit, between. intros H.
  destruct (_ && _) eqn:Hb; [|discriminate]. injection H as <-.
  apply andb_true_iff in Hb as [H1 _]. apply N.leb_le in H1.
  replace (48 + (code c - 48))%N with (code c) by lia. apply ascii_N_embedding.
Qed.

Lemma digit_isDigit (c : ascii) : isDigit c = true -> is_Some (time.digit c).
Proof. unfold time.digit. intros ->. now eexists. Qed.

Lemma two_digits (a b : N) :
  (b < 10)%N ->
  ((a * 10 + b) / 10 = a /\ (a * 10 + b) mod 10 = b)%N.
Proof.
  intros Hb. split.
  - symmetry. apply (N.div_unique _ _ a b); lia.
  - symmetry. apply (N.mod_unique _ _ a b); lia.
Qed.

Lemma appendInt_digits (c0 c1 : ascii) (d0 d1 : N) :
  time.digit c0 = Some d0 -> time.digit c1 = Some d1 ->
  time.appendInt (d0 * 10 + d1) 2 = String c0 (str1 c1).
Proof.
  intros H0 H1.
  pose proof (digit_lt _ _ H0). pose proof (digit_lt _ _ H1).
  rewrite appendInt_2 by lia.
  destruct (two_digits d0 d1) as [-> ->]; [assumption|].
  now rewrite (digit_chr _ _ H0), (digit_chr _ _ H1).
Qed.

Lemma appendInt_year (c0 c1 c2 c3 : ascii) (a b c d : N) :
  time.digit c0 = Some a -> time.digit c1 = Some b ->
  time.digit c2 = Some c -> time.digit c3 = Some d ->
  time.appendInt (((a * 10 + b) * 10 + c) * 10 + d) 4
  = String c0 (String c1 (String c2 (str1 c3))).
Proof.
  intros H0 H1 H2 H3.
  pose proof (digit_lt _ _ H0). pose proof (digit_lt _ _ H1).
  pose proof (digit_lt _ _ H2). pose proof (digit_lt _ _ H3).
  rewrite appendInt_4 by lia.
  set (x := (((a * 10 + b) * 10 + c) * 10 + d)%N).
  assert (E3 : (x / 1000 = a)%N).
  { symmetry. apply (N.div_unique _ _ a (b * 100 + c * 10 + d)); subst x; lia. }
  assert (E2 : (x / 100 = a * 10 + b)%N).
  { symmetry. apply (N.div_unique _ _ _ (c * 10 + d)); subst x; lia. }
  assert (E1 : (x / 10 = (a * 10 + b) * 10 + c)%N).
  { symmetry. apply (N.div_unique _ _ _ d); subst x; lia. }
  rewrite E3, E2, E1.
  destruct (two_digits a b) as [_ ->]; [assumption|].
  destruct (two_digits (a * 10 + b) c) as [_ ->]; [assumption|].
  replace (x mod 10)%N with d
    by (apply (N.mod_unique _ _ ((a * 10 + b) * 10 + c) d); subst x; lia).
  now rewrite (digit_chr _ _ H0), (digit_chr _ _ H1), (digit_chr _ _ H2),
    (digit_chr _ _ H3).
Qed.

Lemma skip_inv (d : ascii) (s r : string) :
  time.skip (str1 d) s = Some r -> s = String d r.
Proof.
  unfold time.skip. destruct s as [|c s]; [discriminate|].
  unfold isByte. destruct (String.eqb_spec (str1 c) (str1 d)) as [[= ->]|];
    [now intros [= ->] | discriminate].
Qed.

Lemma getnum_two (s r : string) (fixed : bool) (n : N) :
  time.getnum s fixed = Some (n, r) ->
  fixed = true \/ (exists c, String.get 1 s = Some c /\ isDigit c = true) ->
  exists c0 c1, s = String c0 (String c1 r)
                /\ time.appendInt n 2 = String c0 (str1 c1).
Proof.
  unfold time.getnum. destruct s as [|c0 s]; [discriminate|].
  destruct (time.digit c0) as [d0|] eqn:H0; [|discriminate]. cbn.
  destruct s as [|c1 s].
  - destruct fixed; [discriminate|]. intros _ [[=]|(c & [=] & _)].
  - destruct (time.digit c1) as [d1|] eqn:H1.
    + intros [= <- <-] _. exists c0, c1. split; [reflexivity|].
      now apply appendInt_digits.
    + destruct fixed; [discriminate|]. intros _ [[=]|(c & [= <-] & Hc)].
      apply digit_isDigit in Hc. rewrite H1 in Hc. destruct Hc as [? [=]].
Qed.

Lemma last_append_quote (s : string) : time.last (s +:+ dq) = Some dquote.
Proof.
  induction s as [|c s IH]; [reflexivity|].
  rewrite append_cons. cbn [time.last]. rewrite IH.
  destruct (s +:+ dq) eqn:E; [|reflexivity].
  destruct s; discriminate E.
Qed.

Lemma init_append_quote (s : string) : time.init (s +:+ dq) = s.
Proof.
  induction s as [|c s IH]; [reflexivity|].
  rewrite append_cons. cbn [time.init]. rewrite IH.
  destruct (s +:+ dq) eqn:E; [|reflexivity].
  destruct s; discriminate E.
Qed.

(** X11: a date of the response whose hour has two digits is printed with
    the digits it was received with: the first ten bytes of the JSON string,
    a space, and the eight bytes after the [T]; the zone offset and the
    fraction of a second are dropped and the clock is not converted. *)
Theorem timestamp_is_printed_as_received (raw : string) (t0 t : time.Time)
    (saved saved' : option error) :
  intoTime (json.Str raw) t0 saved = inl (t, saved') ->
  (exists c, String.get 12 raw = Some c /\ isDigit c = true) ->
  time.FormatDateTime t
  = String.substring 0 10 raw +:+ " " +:+ String.substring 11 8 raw.
Proof.
  unfold intoTime. cbn [json.text].
  destruct (time.UnmarshalJSON _ t0) as [t1|] eqn:Hdec; [|discriminate].
  intros [= -> _]. revert Hdec.
  unfold time.UnmarshalJSON.
  change (dq +:+ raw +:+ dq) with (String dquote (raw +:+ dq)).
  change (String.eqb (String dquote (raw +:+ dq)) "null") with false. cbv iota.
  destruct (raw +:+ dq) as [|c r] eqn:E; [destruct raw; discriminate E|].
  rewrite <- E, last_append_quote, init_append_quote. clear E c r.
  change (Ascii.eqb dquote dquote) with true.
  rewrite bool_decide_eq_true_2 by reflexivity. cbn [andb].
  destruct (time.ParseRFC3339 raw) as [t'|] eqn:Hparse; [|discriminate].
  intros [= <-] Hhour. revert Hparse.
  unfold time.ParseRFC3339.
  destruct raw as [|y0 [|y1 [|y2 [|y3 r]]]]; try discriminate.
  destruct (time.digit y0) as [a|] eqn:Ha; [|discriminate].
  destruct (time.digit y1) as [b|] eqn:Hb; [|discriminate].
  destruct (time.digit y2) as [c|] eqn:Hc; [|discriminate].
  destruct (time.digit y3) as [d|] eqn:Hd; [|discriminate].
  cbn.
  destruct (time.skip "-" r) as [r1|] eqn:S1; [|discriminate]. cbn.
  destruct (time.getnum r1 true) as [[month r2]|] eqn:Hmonth; [|discriminate]. cbn.
  destruct (time.skip "-" r2) as [r3|] eqn:S2; [|discriminate]. cbn.
  destruct (time.getnum r3 true) as [[day r4]|] eqn:Hday; [|discriminate]. cbn.
  destruct (time.skip "T" r4) as [r5|] eqn:S3; [|discriminate]. cbn.
  destruct (time.getnum r5 false) as [[hour r6]|] eqn:Hh; [|discriminate]. cbn.
  destruct (time.skip ":" r6) as [r7|] eqn:S4; [|discriminate]. cbn.
  destruct (time.getnum r7 true) as [[min r8]|] eqn:Hmin; [|discriminate]. cbn.
  destruct (time.skip ":" r8) as [r9|] eqn:S5; [|discriminate]. cbn.
  destruct (time.getnum r9 true) as [[sec r10]|] eqn:Hsec; [|discriminate]. cbn.
  destruct (time.zone _) as [r11|]; [|discriminate]. cbn.
  destruct (_ && _); [|discriminate]. intros [= <-].
  apply (skip_inv "-") in S1, S2. apply (skip_inv "T") in S3.
  apply (skip_inv ":") in S4, S5.
  apply getnum_two in Hmonth as (m0 & m1 & -> & Em); [|now left].
  apply getnum_two in Hday as (d0 & d1 & -> & Ed); [|now left].
  apply getnum_two in Hmin as (n0 & n1 & -> & En); [|now left].
  apply getnum_two in Hsec as (s0 & s1 & -> & Es); [|now left].
  subst r r2 r4 r6 r8.
  apply getnum_two in Hh as (h0 & h1 & -> & Eh); [|right; exact Hhour].
  unfold time.FormatDateTime.
  cbn [time.Year time.Month time.Day time.Hour time.Minute time.Second].
  rewrite (appendInt_year y0 y1 y2 y3 a b c d Ha Hb Hc Hd), Em, Ed, Eh, En, Es.
  destruct r10; reflexivity.
Qed.

(** *** Instances *)

Lemma run_changes_two_files_only_witness :
  "/etc/hosts" <> cachePath worldFresh
  /\ "/etc/hosts" <> outputPath worldFresh
  /\ files (final (run worldFresh)) !! "/etc/hosts" = disk worldFresh !! "/etc/hosts".
Proof.
  assert (H1 : "/etc/hosts" <> cachePath worldFresh) by (vm_compute; discriminate).
  assert (H2 : "/etc/hosts" <> outputPath worldFresh) by (vm_compute; discriminate).
  split; [exact H1|]. split; [exact H2|].
  exact (run_changes_two_files_only worldFresh "/etc/hosts" H1 H2).
Defined.

Lemma panics_come_before_the_network_witness :
  run worldIssue404
  = Exited (Fatal "Request failed with status: %s" (vstring "404 Not Found"))
           (final (run worldIssue404))
  /\ environ worldIssue404 tokenVariable <> EmptyString
  /\ In (newRequest "GET" apiURL) (trace (final (run worldIssue404))).
Proof.
  assert (H : run worldIssue404
              = Exited (Fatal "Request failed with status: %s" (vstring "404 Not Found"))
                       (final (run worldIssue404)))
    by (vm_compute; reflexivity).
  split; [exact H|].
  exact (panics_come_before_the_network worldIssue404 _ _ H).
Defined.

Lemma written_inputs_are_read_back_witness :
  ValidString "A" = true /\ ValidString "B" = true /\ ValidString "3" = true
  /\ (forall text, fails worldFresh (writeFile homeCache text) = None)
  /\ fails worldFresh (readFile homeCache) = None
  /\ exists s',
       (updateInputsInFile worldFresh homeCache "A" "B" "3" ;;
        readInputsFromFile worldFresh homeCache)%proc (mkState ∅ [])
       = Return ("A", "B", "3") s'
       /\ files s' = <[os.abs worldFresh homeCache := cacheText (Inputs.mk "A" "B" "3")]> ∅.
Proof.
  do 3 (split; [reflexivity|]).
  split; [intros text; reflexivity|]. split; [reflexivity|].
  apply (written_inputs_are_read_back worldFresh homeCache "A" "B" "3" (mkState ∅ []));
    reflexivity.
Defined.

Lemma written_inputs_always_parse_witness :
  (forall text, fails worldFresh (writeFile homeCache text) = None)
  /\ fails worldFresh (readFile homeCache) = None
  /\ exists loaded s',
       (updateInputsInFile worldFresh homeCache (str1 (chr 255)) "B" "3" ;;
        readInputsFromFile worldFresh homeCache)%proc (mkState ∅ [])
       = Return loaded s'.
Proof.
  split; [intros text; reflexivity|]. split; [reflexivity|].
  apply (written_inputs_always_parse worldFresh homeCache (str1 (chr 255)) "B" "3"
           (mkState ∅ [])); reflexivity.
Defined.

Lemma cache_without_owner_or_repo_blocks_later_runs_witness :
  disk worldNoFlags !! cachePath worldNoFlags = None
  /\ (ownerFlag worldNoFlags = EmptyString \/ repoFlag worldNoFlags = EmptyString)
  /\ exists s,
       run (after worldNoFlags "A" "B" "3") = Exited (Panic (vstring emptyMessage)) s
       /\ requests (trace s) = [].
Proof.
  split; [vm_compute; reflexivity|]. split; [left; reflexivity|].
  apply (cache_without_owner_or_repo_blocks_later_runs worldNoFlags
           (after worldNoFlags "A" "B" "3"));
    first [reflexivity | left; reflexivity].
Defined.

Lemma second_run_requests_the_flags_of_the_first_witness :
  disk worldFresh !! cachePath worldFresh = None
  /\ head (requests (trace (final (run (after worldFresh EmptyString EmptyString
                                           EmptyString)))))
     = Some (issueRequest "tok" "A" "B" "3")
  /\ url.Path (http.URL (issueRequest "tok" "A" "B" "3")) = Some (issuePath "A" "B" "3").
Proof.
  assert (H : head (requests (trace (final (run (after worldFresh EmptyString
                                                   EmptyString EmptyString)))))
              = Some (issueRequest "tok" "A" "B" "3")) by (vm_compute; reflexivity).
  split; [vm_compute; reflexivity|]. split; [exact H|].
  apply (second_run_requests_the_flags_of_the_first worldFresh
           (after worldFresh EmptyString EmptyString EmptyString)
           (issueRequest "tok" "A" "B" "3"));
    first [exact H | reflexivity].
Defined.

Lemma failed_write_leaves_what_was_written_witness :
  run worldDiskFull
  = Exited (Fatal "Failed to write comment header to file: %s"
              (verror (Errno "no space left on device")))
           (final (run worldDiskFull))
  /\ files (final (run worldDiskFull)) !! outputPath worldDiskFull
     = Some (headerText issueT +:+ nl
             +:+ "Comment 1 by v at 2020-01-03 03:04:05:" +:+ nl +:+ "hi" +:+ nl
             +:+ nl +:+ "Comment ")
  /\ exists reqI reqC respI respC bodyI bodyC issue comments done rest,
       requests (trace (final (run worldDiskFull))) = [reqI; reqC]
       /\ server worldDiskFull reqI = inl respI /\ http.Body respI = inl bodyI
       /\ json.Unmarshal intoIssue bodyI Issue.zero = inl issue
       /\ server worldDiskFull reqC = inl respC /\ http.Body respC = inl bodyC
       /\ json.Unmarshal intoComments bodyC [] = inl comments
       /\ files (final (run worldDiskFull)) !! outputPath worldDiskFull
          = Some (headerText issue +:+ nl +:+ done)
       /\ joinBlocks (blockTexts comments) = done +:+ rest
       /\ rest <> EmptyString.
Proof.
  assert (Hrun : run worldDiskFull
                 = Exited (Fatal "Failed to write comment header to file: %s"
                             (verror (Errno "no space left on device")))
                          (final (run worldDiskFull)))
    by (vm_compute; reflexivity).
  split; [exact Hrun|]. split; [vm_compute; reflexivity|].
  apply (proj2 (failed_write_leaves_what_was_written worldDiskFull _ _ Hrun)).
  eexists _, _. split; [reflexivity | cbn; tauto].
Defined.

Lemma timestamp_is_printed_as_received_witness :
  intoTime (json.Str "2020-01-04T03:04:05+02:00") time.zero None
  = inl (time.Date 2020 1 4 3 4 5, None)
  /\ time.FormatDateTime (time.Date 2020 1 4 3 4 5) = "2020-01-04 03:04:05".
Proof.
  assert (H : intoTime (json.Str "2020-01-04T03:04:05+02:00") time.zero None
              = inl (time.Date 2020 1 4 3 4 5, None)) by (vm_compute; reflexivity).
  split; [exact H|].
  apply (timestamp_is_printed_as_received "2020-01-04T03:04:05+02:00" time.zero
           (time.Date 2020 1 4 3 4 5) None None H).
  exists "3"%char. split; reflexivity.
Defined.
